(** * e-Commerce-Recommender: the client-side data-synchronisation layer

    A shallow embedding of the TypeScript sources

    - [frontend/app/recommendations/page.tsx] (file staging, upload transport),
    - [frontend/lib/api.ts] (the fetch wrapper and its error text),
    - the behaviour and catalog dashboard pages (response normalisation and
      the optimistic create / update / delete handlers),
    - [frontend/app/dashboard/recommendations/page.tsx] (normalisation of the
      recommendation envelopes),

    followed by the properties the specification states about them.

    React state is passed explicitly.  Everything the browser decides (the
    clock, the random generator, the outcome of a network call, the order in
    which callbacks fire) is an input of the model. *)

From Stdlib Require Import Ascii String ZArith Lia Sorted SpecFloat.
From stdpp Require Import gmap strings list sorting pretty.

Set Warnings "-register-all".
Local Open Scope Z_scope.

(* ===================================================================== *)
(** * Numbers *)
(* ===================================================================== *)

Module Double.

(** A Number is an IEEE 754 binary64 value, held as the standard library's
    [spec_float].  Every finite one is a whole multiple of [2^-1074]: it is
    computed with as that multiple, its value in units. *)
Definition UNIT : Z := 2 ^ 1074.

(** The integer nearest to [n / d], halves going to the even one ([0 <= n],
    [0 < d]). *)
Definition ties_even (n d : Z) : Z :=
  let k := n / d in
  let r := n mod d in
  if 2 * r <? d then k
  else if d <? 2 * r then k + 1
  else if Z.even k then k else k + 1.

(** Round to nearest, ties to even, of the fraction [p / q] of a unit
    ([0 <= p], [0 < q]), in units: 53 significant bits, the last one no
    smaller than the unit. *)
Definition nearest (p q : Z) : Z :=
  let j := Z.max 0 (Z.log2 (p / q) - 52) in
  ties_even p (q * 2 ^ j) * 2 ^ j.

(** The same for a fraction of either sign. *)
Definition round (p q : Z) : Z :=
  if p <? 0 then - nearest (- p) q else nearest p q.

(** The first value too large for a finite double. *)
Definition OVERFLOW : Z := 2 ^ 1024 * UNIT.

(** A double from its value in units. *)
Definition of_units (u : Z) : spec_float :=
  if u =? 0 then S754_zero false
  else if OVERFLOW <=? Z.abs u then S754_infinity (u <? 0)
  else
    let j := Z.max 0 (Z.log2 (Z.abs u) - 52) in
    S754_finite (u <? 0) (Z.to_pos (Z.abs u / 2 ^ j)) (j - 1074).

(** The value of a finite double in units ([None] for NaN and the
    infinities). *)
Definition units (x : spec_float) : option Z :=
  match x with
  | S754_zero _ => Some 0
  | S754_finite s m e =>
      let u := if 0 <=? e + 1074 then Zpos m * 2 ^ (e + 1074)
               else Zpos m / 2 ^ (- (e + 1074)) in
      Some (if s then - u else u)
  | _ => None
  end.

(** The Number for an integer. *)
Definition of_Z (n : Z) : spec_float := of_units (round (n * UNIT) 1).

(** ** Number::toString *)

(** [10^n <= u / UNIT] *)
Definition at_least_pow10 (u n : Z) : bool :=
  if 0 <=? n then 10 ^ n * UNIT <=? u else UNIT <=? u * 10 ^ (- n).

Fixpoint raise (fuel : nat) (u c : Z) : Z :=
  match fuel with
  | O => c
  | S fuel => if at_least_pow10 u (c + 1) then raise fuel u (c + 1) else c
  end.

(** The [n] with [10^(n-1) <= u / UNIT < 10^n], for [0 < u]. *)
Definition decade (u : Z) : Z :=
  raise 5 u ((Z.log2 u - 1074) * 30103 / 100000 - 2) + 1.

(** [floor (u / UNIT / 10^t)] *)
Definition digits_down (u t : Z) : Z :=
  if 0 <=? t then u / (UNIT * 10 ^ t) else u * 10 ^ (- t) / UNIT.

(** The double nearest to [s * 10^t], in units. *)
Definition decimal (s t : Z) : Z :=
  if 0 <=? t then nearest (s * 10 ^ t * UNIT) 1 else nearest (s * UNIT) (10 ^ (- t)).

(** How far [s * 10^t] is from [u / UNIT], on a common scale. *)
Definition distance (u s t : Z) : Z :=
  if 0 <=? t then Z.abs (u - s * 10 ^ t * UNIT)
  else Z.abs (u * 10 ^ (- t) - s * UNIT).

(** The digits [s] with [k] digits such that [s * 10^(n-k)] is the double
    [u], the closest to it, the even one of two equally close; [None] when
    no [s] of [k] digits is. *)
Definition shortest_at (u n k : Z) : option Z :=
  let t := n - k in
  let lo := digits_down u t in
  let hi := lo + 1 in
  let lo_ok := decimal lo t =? u in
  let hi_ok := decimal hi t =? u in
  if lo_ok && hi_ok then
    match distance u lo t ?= distance u hi t with
    | Lt => Some lo
    | Gt => Some hi
    | Eq => Some (if Z.even lo then lo else hi)
    end
  else if lo_ok then Some lo
  else if hi_ok then Some hi
  else None.

(** The smallest [k] that has such digits, from [k] on. *)
Fixpoint shortest (fuel : nat) (u n k : Z) : Z * Z :=
  match fuel with
  | O => (digits_down u (n - k), k)
  | S fuel =>
      match shortest_at u n k with
      | Some s => (s, k)
      | None => shortest fuel u n (k + 1)
      end
  end.

Fixpoint zeros (n : nat) : string :=
  match n with O => "" | S n => "0" +:+ zeros n end.

(** The text of a positive finite double. *)
Definition positive_text (u : Z) : string :=
  let n0 := decade u in
  let '(s, k) := shortest 17 u n0 1 in
  let '(s, n) := if s =? 10 ^ k then (10 ^ (k - 1), n0 + 1) else (s, n0) in
  let digits := pretty s in
  if (k <=? n) && (n <=? 21) then digits +:+ zeros (Z.to_nat (n - k))
  else if (0 <? n) && (n <=? 21) then
    substring 0 (Z.to_nat n) digits +:+ "." +:+
    substring (Z.to_nat n) (Z.to_nat (k - n)) digits
  else if (-6 <? n) && (n <=? 0) then
    "0." +:+ zeros (Z.to_nat (- n)) +:+ digits
  else
    let e := n - 1 in
    let exponent := (if e <? 0 then "-" else "+") +:+ pretty (Z.abs e) in
    if k =? 1 then digits +:+ "e" +:+ exponent
    else substring 0 1 digits +:+ "." +:+
         substring 1 (Z.to_nat (k - 1)) digits +:+ "e" +:+ exponent.

(** Number::toString (radix 10). *)
Definition to_text (x : spec_float) : string :=
  match x with
  | S754_nan => "NaN"
  | S754_zero _ => "0"
  | S754_infinity false => "Infinity"
  | S754_infinity true => "-Infinity"
  | S754_finite s m e =>
      match units (S754_finite false m e) with
      | Some u => (if s then "-" else "") +:+ positive_text u
      | None => ""
      end
  end.

(** [Math.round] of a finite double in units: the nearest integer, halves
    going up. *)
Definition Math_round (u : Z) : Z := (2 * u + UNIT) / (2 * UNIT).

(** [x > 0] *)
Definition positive (x : spec_float) : bool :=
  match x with
  | S754_finite false _ _ | S754_infinity false => true
  | _ => false
  end.

End Double.

(** An integer literal stands for its Number. *)
Coercion Double.of_Z : Z >-> spec_float.

(* ===================================================================== *)
(** * JavaScript values *)
(* ===================================================================== *)

Module Js.

(** The values a parsed JSON document (and a table row) can hold, together
    with [undefined]. *)
Inductive jsval :=
  | VUndef
  | VNull
  | VBool (b : bool)
  | VNum (x : spec_float)
  | VStr (s : string)
  | VArr (l : list jsval)
  | VObj (m : gmap string jsval).

(** An object literal [{}]. *)
Definition empty_obj : jsval := VObj ∅.

(** ToBoolean: what [if (v)], [!v], [a || b] and [a && b] test. *)
Definition truthy (v : jsval) : bool :=
  match v with
  | VUndef | VNull => false
  | VBool b => b
  | VNum (S754_zero _) | VNum S754_nan => false
  | VNum _ => true
  | VStr s => negb (String.eqb s "")
  | VArr _ | VObj _ => true
  end.

(** [a || b] *)
Definition js_or (a b : jsval) : jsval := if truthy a then a else b.

(** [Array.isArray(v)] *)
Definition isArray (v : jsval) : bool :=
  match v with VArr _ => true | _ => false end.

(** The one-character string at index [i] of [s], as [s[i]] reads it. *)
Definition char_at (s : string) (i : nat) : jsval :=
  match String.get i s with
  | Some c => VStr (String c EmptyString)
  | None => VUndef
  end.

(** A property read that cannot throw: [v?.key].  On a primitive a named
    property is [undefined]; [null?.key] and [undefined?.key] short-circuit. *)
Definition get_opt (v : jsval) (key : string) : jsval :=
  match v with
  | VObj m => default VUndef (m !! key)
  | _ => VUndef
  end.

(** [v?.[i]] for a numeric index. *)
Definition index_opt (v : jsval) (i : nat) : jsval :=
  match v with
  | VArr l => default VUndef (l !! i)
  | VStr s => char_at s i
  | VObj m => default VUndef (m !! pretty i)
  | _ => VUndef
  end.

(** A plain property read [v.key]: a TypeError on [null] and [undefined]. *)
Definition get_prop (v : jsval) (key : string) : option jsval :=
  match v with
  | VUndef | VNull => None
  | _ => Some (get_opt v key)
  end.

(** ToString, as [String(v)], a template literal and [new Error(v)] apply it.
    An array joins its elements with commas, [null] and [undefined] elements
    giving the empty string. *)
Fixpoint to_string (v : jsval) : string :=
  match v with
  | VUndef => "undefined"
  | VNull => "null"
  | VBool true => "true"
  | VBool false => "false"
  | VNum x => Double.to_text x
  | VStr s => s
  | VArr l =>
      let elem x := match x with VUndef | VNull => "" | _ => to_string x end in
      (fix join (xs : list jsval) : string :=
         match xs with
         | [] => ""
         | [x] => elem x
         | x :: rest => elem x +:+ "," +:+ join rest
         end) l
  | VObj _ => "[object Object]"
  end.

(** A thrown value: an instance of [Error] with its message (a [TypeError]
    or a [SyntaxError] is one), or anything else. *)
Inductive exn :=
  | Error_ (message : string)
  | NotAnError (v : jsval).

(** [s.toLowerCase()], on the ASCII letters. *)
Definition lower_ascii (c : ascii) : ascii :=
  let n := nat_of_ascii c in
  if ((65 <=? n) && (n <=? 90))%nat then ascii_of_nat (n + 32) else c.

Fixpoint toLowerCase (s : string) : string :=
  match s with
  | EmptyString => EmptyString
  | String c rest => String (lower_ascii c) (toLowerCase rest)
  end.

(** [s.endsWith(suffix)] *)
Definition endsWith (s suffix : string) : bool :=
  let n := String.length s in
  let k := String.length suffix in
  (k <=? n)%nat && String.eqb (substring (n - k) k s) suffix.

End Js.

(* ===================================================================== *)
(** * The upload page: file staging and transport
      ([frontend/app/recommendations/page.tsx]) *)
(* ===================================================================== *)

Module Page.
Import Js.

(** A browser [File]: name, declared media type, size in bytes and an opaque
    reference to its content. *)
Record File := {
  file_name : string;
  file_type : string;
  file_size : Z;
  file_blob : nat
}.

(** [FileWithMeta] of [lib/types.ts]. *)
Record FileWithMeta := {
  file : File;
  id : string;
  name : string;
  size : Z
}.

(** [UploadProgress] of [lib/types.ts]; [perFile] is a [Record<string, number>]. *)
Record UploadProgress := {
  overall : Z;
  perFile : gmap string Z
}.

Definition MAX_FILE_SIZE : Z := 5 * 1024 * 1024.

(** [{ overall: 0, perFile: {} }] *)
Definition progress_zero : UploadProgress := {| overall := 0; perFile := ∅ |}.

(** The two transports of [handleUpload]. *)
Inductive mode := Real | Mock.

(** The terminal outcomes of an upload session.  A [load] that does not adopt
    a recommendation list always stores an error message; it is recorded as
    [ServerError] with the status it came with. *)
Inductive outcome :=
  | Success (recs expl : jsval)
  | ServerError (status : Z) (msg : jsval)
  | NetworkError
  | Aborted.

(** What a session lets the page observe, in order: its start, with the
    transport and the staged files it took along, then progress, then the
    outcome. *)
Inductive emitted :=
  | EvStart (m : mode) (snapshot : list FileWithMeta)
  | EvProgress (p : UploadProgress)
  | EvOutcome (o : outcome).

(** The suspended computations of [handleUpload], one per session: the mock
    loop waiting at its [await] before iteration [i], or a request in flight.
    Both closures hold the [files] array of the render that started them. *)
Inductive task :=
  | MockLoop (snapshot : list FileWithMeta) (i : Z)
  | XhrInFlight (snapshot : list FileWithMeta).

(** The [useState] cells of the page, then what lives outside React: the
    suspended sessions by handle, the next handle, and the record of what
    each session emitted (the last two are there to state properties; no
    handler reads them). *)
Record State := {
  files : list FileWithMeta;
  isUploading : bool;
  uploadProgress : UploadProgress;
  recommendations : jsval;
  explanation : jsval;
  error : jsval;
  mockMode : bool;
  abortController : option nat;
  showLargeFileWarning : bool;
  pendingLargeFiles : list File;
  tasks : gmap nat task;
  next_handle : nat;
  log : list (nat * emitted)
}.

Definition initial : State := {|
  files := []; isUploading := false; uploadProgress := progress_zero;
  recommendations := VArr []; explanation := VStr ""; error := VStr "";
  mockMode := false; abortController := None;
  showLargeFileWarning := false; pendingLargeFiles := [];
  tasks := ∅; next_handle := 0%nat; log := []
|}.

(** ** State setters *)

Definition setFiles (v : list FileWithMeta) (s : State) : State :=
  {| files := v; isUploading := isUploading s; uploadProgress := uploadProgress s;
     recommendations := recommendations s; explanation := explanation s;
     error := error s; mockMode := mockMode s; abortController := abortController s;
     showLargeFileWarning := showLargeFileWarning s;
     pendingLargeFiles := pendingLargeFiles s;
     tasks := tasks s; next_handle := next_handle s; log := log s |}.

Definition setIsUploading (v : bool) (s : State) : State :=
  {| files := files s; isUploading := v; uploadProgress := uploadProgress s;
     recommendations := recommendations s; explanation := explanation s;
     error := error s; mockMode := mockMode s; abortController := abortController s;
     showLargeFileWarning := showLargeFileWarning s;
     pendingLargeFiles := pendingLargeFiles s;
     tasks := tasks s; next_handle := next_handle s; log := log s |}.

Definition setUploadProgress (v : UploadProgress) (s : State) : State :=
  {| files := files s; isUploading := isUploading s; uploadProgress := v;
     recommendations := recommendations s; explanation := explanation s;
     error := error s; mockMode := mockMode s; abortController := abortController s;
     showLargeFileWarning := showLargeFileWarning s;
     pendingLargeFiles := pendingLargeFiles s;
     tasks := tasks s; next_handle := next_handle s; log := log s |}.

Definition setRecommendations (v : jsval) (s : State) : State :=
  {| files := files s; isUploading := isUploading s; uploadProgress := uploadProgress s;
     recommendations := v; explanation := explanation s;
     error := error s; mockMode := mockMode s; abortController := abortController s;
     showLargeFileWarning := showLargeFileWarning s;
     pendingLargeFiles := pendingLargeFiles s;
     tasks := tasks s; next_handle := next_handle s; log := log s |}.

Definition setExplanation (v : jsval) (s : State) : State :=
  {| files := files s; isUploading := isUploading s; uploadProgress := uploadProgress s;
     recommendations := recommendations s; explanation := v;
     error := error s; mockMode := mockMode s; abortController := abortController s;
     showLargeFileWarning := showLargeFileWarning s;
     pendingLargeFiles := pendingLargeFiles s;
     tasks := tasks s; next_handle := next_handle s; log := log s |}.

Definition setError (v : jsval) (s : State) : State :=
  {| files := files s; isUploading := isUploading s; uploadProgress := uploadProgress s;
     recommendations := recommendations s; explanation := explanation s;
     error := v; mockMode := mockMode s; abortController := abortController s;
     showLargeFileWarning := showLargeFileWarning s;
     pendingLargeFiles := pendingLargeFiles s;
     tasks := tasks s; next_handle := next_handle s; log := log s |}.

Definition setMockMode (v : bool) (s : State) : State :=
  {| files := files s; isUploading := isUploading s; uploadProgress := uploadProgress s;
     recommendations := recommendations s; explanation := explanation s;
     error := error s; mockMode := v; abortController := abortController s;
     showLargeFileWarning := showLargeFileWarning s;
     pendingLargeFiles := pendingLargeFiles s;
     tasks := tasks s; next_handle := next_handle s; log := log s |}.

Definition setAbortController (v : option nat) (s : State) : State :=
  {| files := files s; isUploading := isUploading s; uploadProgress := uploadProgress s;
     recommendations := recommendations s; explanation := explanation s;
     error := error s; mockMode := mockMode s; abortController := v;
     showLargeFileWarning := showLargeFileWarning s;
     pendingLargeFiles := pendingLargeFiles s;
     tasks := tasks s; next_handle := next_handle s; log := log s |}.

Definition setShowLargeFileWarning (v : bool) (s : State) : State :=
  {| files := files s; isUploading := isUploading s; uploadProgress := uploadProgress s;
     recommendations := recommendations s; explanation := explanation s;
     error := error s; mockMode := mockMode s; abortController := abortController s;
     showLargeFileWarning := v;
     pendingLargeFiles := pendingLargeFiles s;
     tasks := tasks s; next_handle := next_handle s; log := log s |}.

Definition setPendingLargeFiles (v : list File) (s : State) : State :=
  {| files := files s; isUploading := isUploading s; uploadProgress := uploadProgress s;
     recommendations := recommendations s; explanation := explanation s;
     error := error s; mockMode := mockMode s; abortController := abortController s;
     showLargeFileWarning := showLargeFileWarning s;
     pendingLargeFiles := v;
     tasks := tasks s; next_handle := next_handle s; log := log s |}.

(** The session [h] is suspended on [t]. *)
Definition suspend (h : nat) (t : task) (s : State) : State :=
  {| files := files s; isUploading := isUploading s; uploadProgress := uploadProgress s;
     recommendations := recommendations s; explanation := explanation s;
     error := error s; mockMode := mockMode s; abortController := abortController s;
     showLargeFileWarning := showLargeFileWarning s;
     pendingLargeFiles := pendingLargeFiles s;
     tasks := <[h := t]> (tasks s); next_handle := next_handle s; log := log s |}.

(** The session [h] has run to its end: nothing of it will fire again. *)
Definition finish (h : nat) (s : State) : State :=
  {| files := files s; isUploading := isUploading s; uploadProgress := uploadProgress s;
     recommendations := recommendations s; explanation := explanation s;
     error := error s; mockMode := mockMode s; abortController := abortController s;
     showLargeFileWarning := showLargeFileWarning s;
     pendingLargeFiles := pendingLargeFiles s;
     tasks := delete h (tasks s); next_handle := next_handle s; log := log s |}.

(** A new session takes the next handle. *)
Definition fresh_handle (s : State) : State :=
  {| files := files s; isUploading := isUploading s; uploadProgress := uploadProgress s;
     recommendations := recommendations s; explanation := explanation s;
     error := error s; mockMode := mockMode s; abortController := abortController s;
     showLargeFileWarning := showLargeFileWarning s;
     pendingLargeFiles := pendingLargeFiles s;
     tasks := tasks s; next_handle := S (next_handle s); log := log s |}.

(** The session [h] emitted [e]. *)
Definition emit (h : nat) (e : emitted) (s : State) : State :=
  {| files := files s; isUploading := isUploading s; uploadProgress := uploadProgress s;
     recommendations := recommendations s; explanation := explanation s;
     error := error s; mockMode := mockMode s; abortController := abortController s;
     showLargeFileWarning := showLargeFileWarning s;
     pendingLargeFiles := pendingLargeFiles s;
     tasks := tasks s; next_handle := next_handle s; log := log s ++ [(h, e)] |}.

(** ** The file stager *)

(** [file.type === "text/csv" || file.name.toLowerCase().endsWith(".csv")] *)
Definition isCSV (f : File) : bool :=
  String.eqb (file_type f) "text/csv"
  || endsWith (toLowerCase (file_name f)) ".csv".

(** [`${file.name}-${Date.now()}-${Math.random()}`]; the clock and the random
    generator are the inputs [now] and [rnd], asked for the [k]-th file. *)
Definition make_id (now : nat -> Z) (rnd : nat -> string) (k : nat) (f : File)
  : string :=
  file_name f +:+ "-" +:+ pretty (now k) +:+ "-" +:+ rnd k.

Definition with_meta (now : nat -> Z) (rnd : nat -> string) (k : nat) (f : File)
  : FileWithMeta :=
  {| file := f; id := make_id now rnd k f; name := file_name f; size := file_size f |}.

(** The accumulators of the [for ... of] loop of [handleFilesSelected]. *)
Record scan := {
  validFiles : list FileWithMeta;
  largeFiles : list File;
  hasInvalidType : bool
}.

Fixpoint scan_files (now : nat -> Z) (rnd : nat -> string) (k : nat)
    (selectedFiles : list File) (acc : scan) : scan :=
  match selectedFiles with
  | [] => acc
  | f :: rest =>
      scan_files now rnd (S k) rest
        (if negb (isCSV f) then
           {| validFiles := validFiles acc; largeFiles := largeFiles acc;
              hasInvalidType := true |}
         else if file_size f >? MAX_FILE_SIZE then
           {| validFiles := validFiles acc; largeFiles := largeFiles acc ++ [f];
              hasInvalidType := hasInvalidType acc |}
         else
           {| validFiles := validFiles acc ++ [with_meta now rnd k f];
              largeFiles := largeFiles acc;
              hasInvalidType := hasInvalidType acc |})
  end.

Definition handleFilesSelected (now : nat -> Z) (rnd : nat -> string)
    (selectedFiles : list File) (s : State) : State :=
  let r := scan_files now rnd 0 selectedFiles
             {| validFiles := []; largeFiles := []; hasInvalidType := false |} in
  let s := if hasInvalidType r
           then setError (VStr "Only CSV files are allowed") s
           else setError (VStr "") s in
  let s := if (0 <? length (largeFiles r))%nat
           then setShowLargeFileWarning true (setPendingLargeFiles (largeFiles r) s)
           else s in
  setFiles (files s ++ validFiles r) s.

Definition handleConfirmLargeFiles (now : nat -> Z) (rnd : nat -> string)
    (s : State) : State :=
  let newFiles := imap (with_meta now rnd) (pendingLargeFiles s) in
  let s := setFiles (files s ++ newFiles) s in
  let s := setPendingLargeFiles [] s in
  setShowLargeFileWarning false s.

Definition handleCancelLargeFiles (s : State) : State :=
  setShowLargeFileWarning false (setPendingLargeFiles [] s).

Definition handleRemoveFile (rid : string) (s : State) : State :=
  setFiles (filter (fun f => id f ≠ rid) (files s)) s.

(** ** The transport engine *)

Section Transport.

(** [mockRecommendations] of [lib/mock-data], which the sources import but
    do not contain: the canned envelope is a parameter. *)
Variable mockRecommendations : jsval.

(** Whether ToNumber of a string is greater than zero; the platform's number
    parser, only consulted when a response carries a [length] property that
    is not a number. *)
Variable numeric_positive : string -> bool.

(** [files.forEach((f) => { perFileProgress[f.id] = v })] on a fresh object. *)
Definition per_file (snapshot : list FileWithMeta) (v : Z) : gmap string Z :=
  foldl (fun m f => <[id f := v]> m) ∅ snapshot.

(** [Math.round((event.loaded / event.total) * 100)], in the arithmetic of
    the platform: the two counts become Numbers, the quotient is rounded to
    a double, so is its product with 100, and [Math.round] takes the nearest
    integer of that.  The counts of a progress event are unsigned 64-bit
    integers, and [total] is not 0 when the length is computable; there no
    step overflows. *)
Definition round_percent (loaded total : Z) : Z :=
  let l := Double.round (loaded * Double.UNIT) 1 in
  let t := Double.round (total * Double.UNIT) 1 in
  let ratio := Double.round (l * Double.UNIT) t in
  Double.Math_round (Double.round (ratio * 100) 1).

(** [files.length > 0 && !isUploading]: what enables the upload button. *)
Definition canUpload (s : State) : bool :=
  (0 <? length (files s))%nat && negb (isUploading s).

(** [handleUpload] up to its first suspension: the mock loop stops at its
    first [await], the real transport returns once the request is sent. *)
Definition handleUpload (s : State) : State :=
  if (length (files s) =? 0)%nat then s
  else
    let snapshot := files s in
    let h := next_handle s in
    let s := setError (VStr "") s in
    let s := setRecommendations (VArr []) s in
    let s := setExplanation (VStr "") s in
    if mockMode s then
      let s := setIsUploading true s in
      let s := setUploadProgress progress_zero s in
      emit h (EvStart Mock snapshot) (suspend h (MockLoop snapshot 0) (fresh_handle s))
    else
      let s := setAbortController (Some h) s in
      let s := setIsUploading true s in
      let s := setUploadProgress progress_zero s in
      emit h (EvStart Real snapshot) (suspend h (XhrInFlight snapshot) (fresh_handle s)).

(** One turn of the mock loop: the timer of [await new Promise(...)] fires,
    the body of iteration [i] runs, and either the loop suspends again with
    [i + 10] or, the test [i <= 100] failing, the canned envelope is adopted. *)
Definition mock_tick (h : nat) (snapshot : list FileWithMeta) (i : Z)
    (s : State) : State :=
  let p := {| overall := i; perFile := per_file snapshot i |} in
  let s := emit h (EvProgress p) (setUploadProgress p s) in
  if i + 10 <=? 100 then suspend h (MockLoop snapshot (i + 10)) s
  else
    let recs := get_opt mockRecommendations "recommendations" in
    let expl := js_or (get_opt mockRecommendations "explanation") (VStr "") in
    let s := setRecommendations recs s in
    let s := setExplanation expl s in
    let s := setIsUploading false s in
    emit h (EvOutcome (Success recs expl)) (finish h s).

(** [xhr.upload.onprogress] *)
Definition onprogress (h : nat) (snapshot : list FileWithMeta)
    (lengthComputable : bool) (loaded total : Z) (s : State) : State :=
  if lengthComputable then
    let percent := round_percent loaded total in
    let p := {| overall := percent; perFile := per_file snapshot percent |} in
    emit h (EvProgress p) (setUploadProgress p s)
  else s.

(** [v.length > 0] for a truthy [v]. *)
Definition length_positive (v : jsval) : bool :=
  match v with
  | VArr l => (0 <? length l)%nat
  | VStr s => (0 <? String.length s)%nat
  | VObj m =>
      match m !! "length" with
      | Some (VNum x) => Double.positive x
      | Some (VBool b) => b
      | Some (VStr t) => numeric_positive t
      | Some (VArr l) => numeric_positive (to_string (VArr l))
      | _ => false
      end
  | _ => false
  end.

(** The load that adopts nothing: the message is stored and the session ends. *)
Definition load_failed (h : nat) (status : Z) (msg : jsval) (s : State) : State :=
  emit h (EvOutcome (ServerError status msg)) (finish h (setError msg s)).

(** [xhr.onload]; [parsed] is what [JSON.parse(xhr.responseText)] returns,
    [None] when it throws. *)
Definition onload (h : nat) (status : Z) (responseText : string)
    (parsed : option jsval) (s : State) : State :=
  let s := setIsUploading false s in
  let s := setAbortController None s in
  if status =? 200 then
    match parsed with
    | Some data =>
        match get_prop data "recommendations" with
        | Some recs =>
            if truthy recs && length_positive recs then
              let expl := js_or (get_opt data "explanation") (VStr "") in
              let s := setRecommendations recs s in
              let s := setExplanation expl s in
              emit h (EvOutcome (Success recs expl)) (finish h s)
            else
              load_failed h status
                (VStr "No recommendations found for uploaded data.") s
        | None => load_failed h status (VStr "Unexpected server response.") s
        end
    | None => load_failed h status (VStr "Unexpected server response.") s
    end
  else
    let raw := js_or (VStr responseText) (VStr "Server error occurred.") in
    match parsed with
    | Some errorData =>
        match get_prop errorData "message" with
        | Some m =>
            load_failed h status
              (js_or m (js_or (get_opt errorData "error")
                              (VStr "Server error occurred."))) s
        | None => load_failed h status raw s
        end
    | None => load_failed h status raw s
    end.

(** [xhr.onerror] *)
Definition onerror (h : nat) (s : State) : State :=
  let s := setIsUploading false s in
  let s := setAbortController None s in
  let s := setError (VStr "Network error. Please check your connection.") s in
  emit h (EvOutcome NetworkError) (finish h s).

(** [xhr.onabort] *)
Definition onabort (h : nat) (s : State) : State :=
  let s := setIsUploading false s in
  let s := setAbortController None s in
  let s := setUploadProgress progress_zero s in
  emit h (EvOutcome Aborted) (finish h s).

(** [controller.abort()] for the controller of session [c]: its listener
    calls [xhr.abort()], which fires [abort] on a request still in flight and
    nothing on one that is done. *)
Definition controller_abort (c : nat) (s : State) : State :=
  match tasks s !! c with
  | Some (XhrInFlight _) => onabort c s
  | _ => s
  end.

Definition handleCancelUpload (s : State) : State :=
  match abortController s with
  | Some c => controller_abort c s
  | None => s
  end.

(** ** The page as a transition system *)

(** What the user and the browser can do to the page.  The callbacks of a
    session carry its handle. *)
Inductive Event :=
  | FilesSelected (now : nat -> Z) (rnd : nat -> string) (selected : list File)
  | ConfirmLargeFiles (now : nat -> Z) (rnd : nat -> string)
  | CancelLargeFiles
  | WarningOpenChange (open : bool)
  | RemoveFile (rid : string)
  | MockModeChange (checked : bool)
  | ClickUpload
  | ClickCancel
  | TimerFire (h : nat)
  | XhrProgress (h : nat) (lengthComputable : bool) (loaded total : Z)
  | XhrLoad (h : nat) (status : Z) (responseText : string) (parsed : option jsval)
  | XhrError (h : nat).

(** One event.  The upload button is disabled unless [canUpload]; a timer or
    a request callback only exists for a session that is still suspended on
    it.  The other controls are dispatched unconditionally (the page also
    disables file selection and removal during an upload, which only removes
    behaviours). *)
Definition step (s : State) (e : Event) : State :=
  match e with
  | FilesSelected now rnd selected => handleFilesSelected now rnd selected s
  | ConfirmLargeFiles now rnd => handleConfirmLargeFiles now rnd s
  | CancelLargeFiles => handleCancelLargeFiles s
  | WarningOpenChange b => setShowLargeFileWarning b s
  | RemoveFile rid => handleRemoveFile rid s
  | MockModeChange b => setMockMode b s
  | ClickUpload => if canUpload s then handleUpload s else s
  | ClickCancel => handleCancelUpload s
  | TimerFire h =>
      match tasks s !! h with
      | Some (MockLoop snapshot i) => mock_tick h snapshot i s
      | _ => s
      end
  | XhrProgress h lc loaded total =>
      match tasks s !! h with
      | Some (XhrInFlight snapshot) => onprogress h snapshot lc loaded total s
      | _ => s
      end
  | XhrLoad h status responseText parsed =>
      match tasks s !! h with
      | Some (XhrInFlight _) => onload h status responseText parsed s
      | _ => s
      end
  | XhrError h =>
      match tasks s !! h with
      | Some (XhrInFlight _) => onerror h s
      | _ => s
      end
  end.

Definition run (s : State) (tr : list Event) : State := foldl step s tr.

(** ** Reading the record of a session *)

(** What session [h] emitted, in order. *)
Definition emitted_by (h : nat) (l : list (nat * emitted)) : list emitted :=
  snd <$> filter (fun x => fst x = h) l.

Definition is_outcome (e : emitted) : bool :=
  match e with EvOutcome _ => true | _ => false end.

Definition outcomes_of (h : nat) (l : list (nat * emitted)) : list emitted :=
  filter (fun e => is_outcome e = true) (emitted_by h l).

(** The overall percentages of the progress events of a list. *)
Fixpoint overalls (l : list emitted) : list Z :=
  match l with
  | [] => []
  | EvProgress p :: rest => overall p :: overalls rest
  | _ :: rest => overalls rest
  end.

(** Every percentage kept for a file is the overall one, and every staged
    file of the session has one. *)
Definition uniform (snapshot : list FileWithMeta) (p : UploadProgress) : Prop :=
  (forall k v, perFile p !! k = Some v -> v = overall p) /\
  (forall f, f ∈ snapshot -> perFile p !! id f = Some (overall p)).

End Transport.

End Page.

(* ===================================================================== *)
(** * The fetch wrapper ([frontend/lib/api.ts]) *)
(* ===================================================================== *)

Module Api.
Import Js.

(** What [response.json()] settles to. *)
Inductive body :=
  | Json (v : jsval)
  | NotJson (syntax_error : string).

(** What [fetch(url, config)] settles to. *)
Inductive fetch_result :=
  | Response (status : Z) (statusText : string) (b : body)
  | FetchRejects (e : exn).

(** What the promise of [apiFetch] settles to. *)
Inductive settled :=
  | Resolved (v : jsval)
  | Rejected (e : exn).

(** [response.ok] *)
Definition ok (status : Z) : bool := (200 <=? status) && (status <=? 299).

Section Fetch.

(** The message the engine gives the TypeError of a property read on [null]
    or [undefined]. *)
Variable type_error_text : string.

(** [response.json().catch(() => ({}))] *)
Definition json_or_empty (b : body) : jsval :=
  match b with Json v => v | NotJson _ => empty_obj end.

(** [errorData.detail?.[0]?.msg || errorData.detail || errorData.message ||
    `<label>: ${response.status} ${response.statusText}`]; [None] when the
    first read of [errorData] throws. *)
Definition error_argument (label : string) (status : Z) (statusText : string)
    (errorData : jsval) : option jsval :=
  match get_prop errorData "detail" with
  | None => None
  | Some detail =>
      Some (js_or (get_opt (index_opt detail 0) "msg")
           (js_or detail
           (js_or (get_opt errorData "message")
                  (VStr (label +:+ ": " +:+ pretty status +:+ " " +:+ statusText)))))
  end.

(** The statement [if (!response.ok) { ... throw new Error(...) } return await
    response.json()] shared by [apiFetch] and [uploadFile]. *)
Definition settle_response (label : string) (status : Z) (statusText : string)
    (b : body) : settled :=
  if negb (ok status) then
    match error_argument label status statusText (json_or_empty b) with
    | Some v => Rejected (Error_ (to_string v))
    | None => Rejected (Error_ type_error_text)
    end
  else
    match b with
    | Json v => Resolved v
    | NotJson m => Rejected (Error_ m)
    end.

(** [apiFetch]: the [catch] rethrows an [Error] and replaces anything else. *)
Definition apiFetch (r : fetch_result) : settled :=
  let attempt :=
    match r with
    | Response status statusText b => settle_response "API Error" status statusText b
    | FetchRejects e => Rejected e
    end in
  match attempt with
  | Rejected (NotAnError _) => Rejected (Error_ "An unexpected error occurred")
  | other => other
  end.

(** [uploadFile]: the same statement with its own label and no [catch]. *)
Definition uploadFile (r : fetch_result) : settled :=
  match r with
  | Response status statusText b => settle_response "Upload Error" status statusText b
  | FetchRejects e => Rejected e
  end.

End Fetch.

(** The error text as the specification words it, to compare [apiFetch]
    with: the first field that is present among [detail[0].msg], [detail]
    and [message] of the parsed body, else ["<status> <statusText>"]. *)
Definition present (v : jsval) : bool :=
  match v with VUndef => false | _ => true end.

Definition spec_error_text (status : Z) (statusText : string) (b : body) : string :=
  let fallback := pretty status +:+ " " +:+ statusText in
  match b with
  | NotJson _ => fallback
  | Json errorData =>
      let detail := get_opt errorData "detail" in
      if present (get_opt (index_opt detail 0) "msg")
      then to_string (get_opt (index_opt detail 0) "msg")
      else if present detail then to_string detail
      else if present (get_opt errorData "message")
      then to_string (get_opt errorData "message")
      else fallback
  end.

End Api.

(* ===================================================================== *)
(** * Response normalisation (the three list fetches) *)
(* ===================================================================== *)

Module Normalizer.
Import Js.

(** The elements of [v] when [Array.isArray(v)]. *)
Definition as_array (v : jsval) : option (list jsval) :=
  match v with VArr l => Some l | _ => None end.

(** [data?.key && Array.isArray(data.key)], with the array it then uses. *)
Definition array_field (data : jsval) (key : string) : option (list jsval) :=
  if truthy (get_opt data key) then as_array (get_opt data key) else None.

(** [fetchBehaviors], from the response to the list given to [setBehaviour]:
    [behaviorsList] starts empty and is stored whatever branch ran. *)
Definition fetchBehaviors (data : jsval) (behaviour : list jsval) : list jsval :=
  let behaviorsList :=
    match as_array data with
    | Some l => l
    | None =>
        match array_field data "behaviors" with
        | Some l => l
        | None =>
            match array_field data "data" with
            | Some l => l
            | None => []
            end
        end
    end in
  behaviorsList.

(** [fetchProducts]: [setCatalog] is called inside each branch, and by none
    when no branch applies. *)
Definition fetchProducts (data : jsval) (catalog : list jsval) : list jsval :=
  match as_array data with
  | Some l => l
  | None =>
      match array_field data "products" with
      | Some l => l
      | None =>
          match array_field data "data" with
          | Some l => l
          | None => catalog
          end
      end
  end.

(** The recommendation list and explanation of the dashboard page. *)
Record Recs := {
  recommendations : list jsval;
  explanation : jsval
}.

(** [fetchStoredRecommendations] of the dashboard page: the envelope key is
    tried first, then the bare array; there is no [data] branch and no final
    [else], so a response that matches neither leaves the state alone. *)
Definition fetchStoredRecommendations (data : jsval) (st : Recs) : Recs :=
  match array_field data "recommendations" with
  | Some l =>
      {| recommendations := l;
         explanation := if truthy (get_opt data "explanation")
                        then get_opt data "explanation"
                        else explanation st |}
  | None =>
      match as_array data with
      | Some l => {| recommendations := l; explanation := explanation st |}
      | None => st
      end
  end.

(** [handleGenerateRecommendations], from the response to the state: the
    same branches, the final [else] only showing a notification (the
    notifications are left out). *)
Definition handleGenerateRecommendations (data : jsval) (st : Recs) : Recs :=
  match array_field data "recommendations" with
  | Some l =>
      {| recommendations := l;
         explanation := if truthy (get_opt data "explanation")
                        then get_opt data "explanation"
                        else explanation st |}
  | None =>
      match as_array data with
      | Some l => {| recommendations := l; explanation := explanation st |}
      | None => st
      end
  end.

(** A raw value that matches none of the rules for the key [key]. *)
Definition unrecognised (key : string) (data : jsval) : Prop :=
  as_array data = None /\ array_field data key = None
  /\ array_field data "data" = None.

End Normalizer.

(* ===================================================================== *)
(** * The mutation coordinator (behaviour and catalog pages) *)
(* ===================================================================== *)

Module Coordinator.
Import Js.

(** A table row: a [Record<string, string | number>]. *)
Abbreviation row := (gmap string jsval).

(** [r.key] on a row. *)
Definition field (r : row) (key : string) : jsval := default VUndef (r !! key).

(** A cell of a JavaScript array: an element, an explicit [undefined], or a
    hole left by a write beyond the end. *)
Inductive slot :=
  | Hole
  | Undefined
  | Item (r : row).

(** [arr[i]]: the row there, or [undefined]. *)
Definition read (arr : list slot) (i : nat) : option row :=
  match arr !! i with
  | Some (Item r) => Some r
  | _ => None
  end.

(** [[...arr]]: the iterator turns holes into [undefined]. *)
Definition spread_array (arr : list slot) : list slot :=
  (fun c => match c with Hole => Undefined | _ => c end) <$> arr.

(** [arr[i] = x]: in range the cell is replaced; beyond the end the array
    grows, the cells in between being holes. *)
Definition array_set (arr : list slot) (i : nat) (x : slot) : list slot :=
  if (i <? length arr)%nat then <[i := x]> arr
  else arr ++ replicate (i - length arr) Hole ++ [x].

(** [arr.filter((_, idx) => idx !== i)]: the callback is not called on
    holes, which are dropped. *)
Definition is_hole (c : slot) : bool :=
  match c with Hole => true | _ => false end.

Definition filter_out (i : nat) (arr : list slot) : list slot :=
  snd <$> filter (fun c => c.1 ≠ i /\ is_hole c.2 = false)
                 (imap (fun idx c => (idx, c)) arr).

(** [{ ...o, ...data }] where [o] may be [undefined]. *)
Definition merge (o : option row) (data : row) : row := data ∪ default ∅ o.

(** The remote calls of [lib/api.ts] the handlers make. *)
Inductive api_call :=
  | updateBehavior (behaviorId : jsval) (behavior : row)
  | deleteBehavior (behaviorId : jsval)
  | addBehavior (behavior : row)
  | updateProduct (productId : jsval) (product : row)
  | deleteProduct (productId : jsval)
  | addProduct (product : row).

(** The notifications of [sonner]. *)
Inductive toast :=
  | toast_error (title : string) (description : string)
  | toast_success (title : string).

(** An [async] handler, as the sequence of its effects: notifications,
    functional updates of the page list, awaited remote calls with the two
    ways they settle, and the way the handler itself settles.  Console
    output is left out. *)
Inductive prog :=
  | Return
  | Throw (e : exn)
  | Notify (t : toast) (k : prog)
  | SetRows (f : list slot -> list slot) (k : prog)
  | Await (c : api_call) (k : jsval + exn -> prog).

(** What running a handler leaves behind. *)
Record world := {
  rows : list slot;
  toasts : list toast;
  calls : list api_call
}.

(** Runs a handler.  [remote] settles each call; [meanwhile] is what other
    flows did to the list while the handler was suspended on a call. *)
Fixpoint exec (remote : api_call -> jsval + exn)
    (meanwhile : list slot -> list slot) (p : prog) (w : world)
  : world * option exn :=
  match p with
  | Return => (w, None)
  | Throw e => (w, Some e)
  | Notify t k =>
      exec remote meanwhile k
        {| rows := rows w; toasts := toasts w ++ [t]; calls := calls w |}
  | SetRows f k =>
      exec remote meanwhile k
        {| rows := f (rows w); toasts := toasts w; calls := calls w |}
  | Await c k =>
      exec remote meanwhile (k (remote c))
        {| rows := meanwhile (rows w); toasts := toasts w; calls := calls w ++ [c] |}
  end.

(** A handler of a page showing [l], run to completion. *)
Definition run_handler (remote : api_call -> jsval + exn)
    (meanwhile : list slot -> list slot) (handler : list slot -> prog)
    (l : list slot) : world * option exn :=
  exec remote meanwhile (handler l) {| rows := l; toasts := []; calls := [] |}.

(** [error instanceof Error ? error.message : "Please try again"] *)
Definition describe (error : exn) : string :=
  match error with
  | Error_ message => message
  | NotAnError _ => "Please try again"
  end.

(** [String(v)] *)
Definition js_String (v : jsval) : jsval := VStr (to_string v).

(** The functional update of both [handleUpdate] right after the call
    failed, and of the behaviour page after it succeeded:
    [updated[rowIndex] = { ...prev[rowIndex], ...data }]. *)
Definition update_merged (rowIndex : nat) (data : row) (prev : list slot)
  : list slot :=
  array_set (spread_array prev) rowIndex (Item (merge (read prev rowIndex) data)).

(** ** The behaviour page *)

Module Behaviour.
Section Handlers.

(** The message the engine gives the TypeError of a property read on
    [undefined]. *)
Variable type_error_text : string.

Definition handleUpdate (rowIndex : nat) (data : row) (behaviour : list slot)
  : prog :=
  match read behaviour rowIndex with
  | None => Throw (Error_ type_error_text)
  | Some item =>
      let behaviorId :=
        js_or (field item "_id") (js_or (field item "behavior_id") (field item "user_id")) in
      if negb (truthy (field item "_id")) then
        Notify (toast_error "Cannot update: Missing _id field"
                  "Please refresh the page to load the latest data with IDs")
          Return
      else
        let behaviorData : row :=
          <["user_id" := js_String (js_or (field data "user_id") (field item "user_id"))]>
          (<["product_id" := js_String (field data "product_id")]>
          (<["action" := js_String (field data "action")]>
          (<["timestamp" := js_String (field data "timestamp")]> ∅))) in
        Await (updateBehavior behaviorId behaviorData) (fun settled =>
          match settled with
          | inl _ =>
              SetRows (update_merged rowIndex data)
                (Notify (toast_success "Behavior updated successfully") Return)
          | inr error =>
              Notify (toast_error "Failed to update behavior" (describe error))
                (SetRows (update_merged rowIndex data) Return)
          end)
  end.

Definition handleDelete (rowIndex : nat) (behaviour : list slot) : prog :=
  match read behaviour rowIndex with
  | None => Throw (Error_ type_error_text)
  | Some item =>
      let behaviorId :=
        js_or (field item "_id") (js_or (field item "behavior_id") (field item "user_id")) in
      if negb (truthy (field item "_id")) then
        Notify (toast_error "Cannot delete: Missing _id field"
                  "Please refresh the page to load the latest data with IDs")
          Return
      else
        Await (deleteBehavior behaviorId) (fun settled =>
          match settled with
          | inl _ =>
              SetRows (filter_out rowIndex)
                (Notify (toast_success "Behavior deleted successfully") Return)
          | inr error =>
              Notify (toast_error "Failed to delete behavior" (describe error))
                (SetRows (filter_out rowIndex) Return)
          end)
  end.

Definition handleAddFromDialog (data : row) (behaviour : list slot) : prog :=
  let behaviorData : row :=
    <["user_id" := field data "user_id"]>
    (<["product_id" := field data "product_id"]>
    (<["action" := field data "action"]>
    (<["timestamp" := field data "timestamp"]> ∅))) in
  Await (addBehavior behaviorData) (fun settled =>
    match settled with
    | inl result =>
        let newBehavior : row :=
          <["_id" := get_opt result "_id"]>
          (<["behavior_id" := get_opt result "behavior_id"]> behaviorData) in
        SetRows (fun prev => spread_array prev ++ [Item newBehavior])
          (Notify (toast_success "Behavior added successfully") Return)
    | inr error =>
        Notify (toast_error "Failed to add behavior" (describe error))
          (Throw error)
    end).

End Handlers.
End Behaviour.

(** ** The catalog page *)

Module Catalog.
Section Handlers.

(** The message the engine gives the TypeError of a property read on
    [undefined]. *)
Variable type_error_text : string.

(** [Number(v)], the platform's conversion. *)
Variable js_Number : jsval -> jsval.

Definition handleUpdate (rowIndex : nat) (data : row) (catalog : list slot)
  : prog :=
  match read catalog rowIndex with
  | None => Throw (Error_ type_error_text)
  | Some item =>
      let productId := field item "product_id" in
      let productData : row :=
        <["product_id" := productId]>
        (<["name" := js_String (field data "name")]>
        (<["brand" := js_String (field data "brand")]>
        (<["category" := js_String (field data "category")]>
        (<["price" := js_Number (field data "price")]>
        (<["rating" := js_Number (field data "rating")]>
        (<["features" := js_String (field data "features")]> ∅)))))) in
      Await (updateProduct productId productData) (fun settled =>
        match settled with
        | inl _ =>
            SetRows (fun prev =>
                       array_set (spread_array prev) rowIndex
                         (Item (<["product_id" := productId]> data)))
              (Notify (toast_success "Product updated successfully") Return)
        | inr error =>
            Notify (toast_error "Failed to update product" (describe error))
              (SetRows (update_merged rowIndex data) Return)
        end)
  end.

Definition handleDelete (rowIndex : nat) (catalog : list slot) : prog :=
  match read catalog rowIndex with
  | None => Throw (Error_ type_error_text)
  | Some item =>
      let productId := field item "product_id" in
      Await (deleteProduct productId) (fun settled =>
        match settled with
        | inl _ =>
            SetRows (filter_out rowIndex)
              (Notify (toast_success "Product deleted successfully") Return)
        | inr error =>
            Notify (toast_error "Failed to delete product" (describe error))
              (SetRows (filter_out rowIndex) Return)
        end)
  end.

Definition handleAddFromDialog (data : row) (catalog : list slot) : prog :=
  let productData : row :=
    <["product_id" := field data "product_id"]>
    (<["name" := field data "name"]>
    (<["brand" := field data "brand"]>
    (<["category" := field data "category"]>
    (<["price" := field data "price"]>
    (<["rating" := field data "rating"]>
    (<["features" := field data "features"]> ∅)))))) in
  Await (addProduct productData) (fun settled =>
    match settled with
    | inl result =>
        let newProduct : row :=
          <["product_id" := js_or (get_opt result "product_id") (field data "product_id")]>
          productData in
        SetRows (fun prev => spread_array prev ++ [Item newProduct])
          (Notify (toast_success "Product added successfully") Return)
    | inr error =>
        Notify (toast_error "Failed to add product" (describe error))
          (Throw error)
    end).

End Handlers.
End Catalog.

End Coordinator.

(* ===================================================================== *)
(** * Vocabulary of the properties and sample data *)
(* ===================================================================== *)

Module Vocabulary.
Import Js Page.

(** A name ends in [suffix] whatever the case of its letters. *)
Definition ends_in_ignoring_case (s suffix : string) : Prop :=
  exists stem ext, s = stem +:+ ext /\ toLowerCase ext = suffix.

(** What the specification calls a CSV file. *)
Definition declared_csv (f : File) : Prop :=
  file_type f = "text/csv" \/ ends_in_ignoring_case (file_name f) ".csv".

(** The staged entries a selection gives, the [k]-th file being the first:
    one per CSV file of at most [MAX_FILE_SIZE] bytes, in order. *)
Fixpoint staged_from (now : nat -> Z) (rnd : nat -> string) (k : nat)
    (selected : list File) : list FileWithMeta :=
  match selected with
  | [] => []
  | f :: rest =>
      (if isCSV f && (file_size f <=? MAX_FILE_SIZE)
       then [with_meta now rnd k f] else [])
      ++ staged_from now rnd (S k) rest
  end.

(** The CSV files of a selection that exceed [MAX_FILE_SIZE]. *)
Definition oversized (selected : list File) : list File :=
  filter (fun f => isCSV f = true /\ MAX_FILE_SIZE < file_size f) selected.

Section TransportVocabulary.

Variable mockRecommendations : jsval.
Variable numeric_positive : string -> bool.

(** The states the page can be in. *)
Definition reachable (s : State) : Prop :=
  exists tr, s = run mockRecommendations numeric_positive initial tr.

(** The first [n] ticks of the mock cadence: 0, 10, 20, ... *)
Definition ticks (n : nat) : list Z := (fun k => 10 * Z.of_nat k) <$> seq 0 n.

(** The progress the engine publishes for the percentage [v]. *)
Definition progress_at (snapshot : list FileWithMeta) (v : Z) : UploadProgress :=
  {| overall := v; perFile := per_file snapshot v |}.

Definition published (snapshot : list FileWithMeta) (v : Z) : emitted :=
  EvProgress (progress_at snapshot v).

(** The outcome of a mock session. *)
Definition canned_success : outcome :=
  Success (get_opt mockRecommendations "recommendations")
          (js_or (get_opt mockRecommendations "explanation") (VStr "")).

(** What the progress cell holds while a mock loop is suspended before its
    iteration [i]: the reset of the click before the first iteration, the
    tick of the iteration before afterwards. *)
Definition last_shown (snapshot : list FileWithMeta) (i : Z) : UploadProgress :=
  if i =? 0 then progress_zero else progress_at snapshot (i - 10).

Definition shows_last_tick (s : State) : Prop :=
  forall h snapshot i, tasks s !! h = Some (MockLoop snapshot i) ->
    uploadProgress s = last_shown snapshot i.

(** What a session has emitted so far, given what it is suspended on
    ([None] once it has run to its end). *)
Inductive history : option task -> list emitted -> Prop :=
  | history_mock_running snapshot n :
      (n <= 10)%nat ->
      history (Some (MockLoop snapshot (10 * Z.of_nat n)))
              (EvStart Mock snapshot :: (published snapshot <$> ticks n))
  | history_real_running snapshot vs :
      history (Some (XhrInFlight snapshot))
              (EvStart Real snapshot :: (published snapshot <$> vs))
  | history_mock_done snapshot :
      history None
              (EvStart Mock snapshot :: (published snapshot <$> ticks 11)
                 ++ [EvOutcome canned_success])
  | history_real_done snapshot vs o :
      history None
              (EvStart Real snapshot :: (published snapshot <$> vs)
                 ++ [EvOutcome o]).

(** At most one session is suspended, and the page cells agree with it. *)
Inductive shape (s : State) : Prop :=
  | shape_idle :
      tasks s = ∅ -> abortController s = None -> isUploading s = false ->
      shape s
  | shape_mock h snapshot i :
      tasks s = {[ h := MockLoop snapshot i ]} -> abortController s = None ->
      isUploading s = true -> shape s
  | shape_real h snapshot :
      tasks s = {[ h := XhrInFlight snapshot ]} -> abortController s = Some h ->
      isUploading s = true -> shape s.

(** The invariant of the page. *)
Record Inv (s : State) : Prop := {
  inv_shape : shape s;
  inv_born : forall h, (h < next_handle s)%nat ->
    history (tasks s !! h) (emitted_by h (log s));
  inv_unborn : forall h, (next_handle s <= h)%nat ->
    tasks s !! h = None /\ emitted_by h (log s) = []
}.

(** What the event [e] makes the sessions emit in state [s]. *)
Definition delivered (s : State) (e : Event) : list (nat * emitted) :=
  drop (length (log s)) (log (step mockRecommendations numeric_positive s e)).

Definition is_tick (h : nat) (e : Event) : bool :=
  match e with TimerFire h' => Nat.eqb h h' | _ => false end.

Definition is_cancel (e : Event) : bool :=
  match e with ClickCancel => true | _ => false end.

(** The byte counters of a progress event are unsigned 64-bit integers. *)
Definition byte_count (n : Z) : bool := (0 <=? n) && (n <? 2 ^ 64).

(** The byte counters a transport reports for a request only grow, against
    a total that is positive and does not change: [last] holds the counters
    of the latest computable progress event of each request. *)
Definition counter_ok (last : gmap nat (Z * Z)) (e : Event) : bool :=
  match e with
  | XhrProgress h true loaded total =>
      byte_count loaded && byte_count total && (0 <? total) &&
      match last !! h with
      | None => true
      | Some (loaded0, total0) => (total0 =? total) && (loaded0 <=? loaded)
      end
  | _ => true
  end.

Definition track (last : gmap nat (Z * Z)) (e : Event) : gmap nat (Z * Z) :=
  match e with
  | XhrProgress h true loaded total => <[h := (loaded, total)]> last
  | _ => last
  end.

Fixpoint counters_ok (last : gmap nat (Z * Z)) (tr : list Event) : bool :=
  match tr with
  | [] => true
  | e :: rest => counter_ok last e && counters_ok (track last e) rest
  end.

(** The percentage [v] is at most what the latest counters of request [h]
    round to. *)
Definition below_counters (last : gmap nat (Z * Z)) (h : nat) (v : Z) : Prop :=
  exists loaded0 total0,
    last !! h = Some (loaded0, total0) /\ 0 < total0
    /\ v <= round_percent loaded0 total0.

(** The percentages session [h] has published are in order and stay below
    what the session can still publish. *)
Definition ordered (last : gmap nat (Z * Z)) (s : State) (h : nat) : Prop :=
  StronglySorted Z.le (overalls (emitted_by h (log s)))
  /\ (forall snapshot, tasks s !! h = Some (XhrInFlight snapshot) ->
        Forall (below_counters last h) (overalls (emitted_by h (log s))))
  /\ (forall snapshot i, tasks s !! h = Some (MockLoop snapshot i) ->
        Forall (fun v => v < i) (overalls (emitted_by h (log s)))).

Definition snapshot_of (t : task) : list FileWithMeta :=
  match t with MockLoop snapshot _ => snapshot | XhrInFlight snapshot => snapshot end.

(** The progress a page shows for a session that has published the
    percentages [vs]: the latest one, or the zero it was reset to. *)
Definition shown (snapshot : list FileWithMeta) (vs : list Z) : UploadProgress :=
  match last vs with
  | Some v => progress_at snapshot v
  | None => progress_zero
  end.

(** The progress cell shows the suspended session. *)
Definition tracks (s : State) : Prop :=
  forall h t, tasks s !! h = Some t ->
    uploadProgress s = shown (snapshot_of t) (overalls (emitted_by h (log s))).

Definition Ordered (last : gmap nat (Z * Z)) (s : State) : Prop :=
  (forall h, ordered last s h) /\ tracks s.

(** The timer events of session [h] in a trace. *)
Definition count_ticks (h : nat) (tr : list Event) : nat :=
  length (filter (fun e => is_tick h e = true) tr).

End TransportVocabulary.

End Vocabulary.

Module Samples.
Import Js Page.

Definition now0 (k : nat) : Z := 1700000000000 + Z.of_nat k.
Definition rnd0 (k : nat) : string := "0.25".

Definition small_csv : File :=
  {| file_name := "a.csv"; file_type := "text/csv"; file_size := 1024; file_blob := 1 |}.
Definition large_csv : File :=
  {| file_name := "B.CSV"; file_type := ""; file_size := 6 * 1024 * 1024; file_blob := 2 |}.

Definition staged_small : FileWithMeta := with_meta now0 rnd0 0 small_csv.

(** A canned envelope to run the mock transport with. *)
Definition canned : jsval :=
  VObj (<["recommendations" := VArr [VObj (<["product_id" := VStr "P1"]> ∅)]]>
       (<["explanation" := VStr "Because you viewed P0"]> ∅)).

Definition no_number (t : string) : bool := false.

(** A behaviour row that came from the server, and one that did not. *)
Definition row_with_id : gmap string jsval :=
  <["_id" := VStr "65a1"]> (<["user_id" := VStr "U001"]>
  (<["product_id" := VStr "P1"]> (<["action" := VStr "view"]>
  (<["timestamp" := VStr "2024-01-01 10:00:00"]> ∅)))).

Definition row_without_id : gmap string jsval :=
  <["user_id" := VStr "U002"]> (<["product_id" := VStr "P7"]>
  (<["action" := VStr "view"]>
  (<["timestamp" := VStr "2024-01-02 09:30:00"]> ∅))).

(** An edit of the product and the action. *)
Definition edit : gmap string jsval :=
  <["user_id" := VStr "U001"]> (<["product_id" := VStr "P2"]>
  (<["action" := VStr "purchase"]>
  (<["timestamp" := VStr "2024-01-01 10:00:00"]> ∅))).

Definition server_down : exn := Error_ "API Error: 503 Service Unavailable".

(** One small CSV file staged. *)
Definition page_staged : list Event := [FilesSelected now0 rnd0 [small_csv]].

(** ... and mock mode switched on. *)
Definition page_mock_ready : list Event :=
  [FilesSelected now0 rnd0 [small_csv]; MockModeChange true].

(** ... and the mock upload started. *)
Definition page_mock_running : list Event :=
  [FilesSelected now0 rnd0 [small_csv]; MockModeChange true; ClickUpload].

(** A real upload started. *)
Definition page_real_running : list Event :=
  [FilesSelected now0 rnd0 [small_csv]; ClickUpload].

(** A real upload whose transport reports 25 then 60 bytes of 100 and which
    the user then cancels. *)
Definition page_real_cancelled : list Event :=
  [FilesSelected now0 rnd0 [small_csv]; ClickUpload;
   XhrProgress 0 true 25 100; XhrProgress 0 true 60 100; ClickCancel].

(** A real upload whose transport has reported 60 bytes of 100 ... *)
Definition page_real_at_60 : list Event :=
  [FilesSelected now0 rnd0 [small_csv]; ClickUpload; XhrProgress 0 true 60 100].

(** ... when the response arrives: status 200 with the canned envelope. *)
Definition load_ok : Event := XhrLoad 0 200 "{...}" (Some canned).

End Samples.

(* ===================================================================== *)
(** * The page bar ([frontend/components/pagination.tsx]) *)
(* ===================================================================== *)

Module Pager.

(** [startPage] and [endPage] as they stand when the [for] loop begins. *)
Definition window (currentPage totalPages : Z) : Z * Z :=
  let startPage := Z.max 1 (currentPage - 2) in
  let endPage := Z.min totalPages (currentPage + 2) in
  let endPage := if currentPage <=? 3 then Z.min totalPages 5 else endPage in
  let startPage :=
    if currentPage >=? totalPages - 2 then Z.max 1 (totalPages - 4)
    else startPage in
  (startPage, endPage).

(** [pages] after [for (let i = startPage; i <= endPage; i++) pages.push(i)]. *)
Definition pages (currentPage totalPages : Z) : list Z :=
  let '(startPage, endPage) := window currentPage totalPages in
  seqZ startPage (endPage - startPage + 1).

(** What the bar renders, left to right: a button with the page its click
    asks for, or the dots. *)
Inductive control :=
  | Prev (disabled : bool) (target : Z)
  | Numbered (target : Z) (current : bool)
  | Dots
  | Next (disabled : bool) (target : Z).

Definition Pagination (currentPage totalPages : Z) : list control :=
  let '(startPage, endPage) := window currentPage totalPages in
  [Prev (currentPage =? 1) (currentPage - 1)]
  ++ (if startPage >? 1
      then Numbered 1 false :: (if startPage >? 2 then [Dots] else [])
      else [])
  ++ ((fun page => Numbered page (page =? currentPage))
        <$> pages currentPage totalPages)
  ++ (if endPage <? totalPages
      then (if endPage <? totalPages - 1 then [Dots] else [])
           ++ [Numbered totalPages false]
      else [])
  ++ [Next (currentPage =? totalPages) (currentPage + 1)].

(** The pages of the numbered buttons, in the order they are rendered. *)
Fixpoint numbered (cs : list control) : list Z :=
  match cs with
  | [] => []
  | Numbered target _ :: rest => target :: numbered rest
  | _ :: rest => numbered rest
  end.

(** The pages [onPageChange] can be called with: the target of every button
    that is not disabled. *)
Fixpoint clickable (cs : list control) : list Z :=
  match cs with
  | [] => []
  | Prev false target :: rest => target :: clickable rest
  | Next false target :: rest => target :: clickable rest
  | Numbered target _ :: rest => target :: clickable rest
  | _ :: rest => clickable rest
  end.

End Pager.

(* ===================================================================== *)
(** * The recommendation table: sorting state and pages
      ([RecommendationsTable]) *)
(* ===================================================================== *)

Module RecommendationsTable.

Definition ROWS_PER_PAGE : Z := 10.

(** [arr.slice(start, end)]: a negative index counts from the end, and both
    indices are clamped to the array. *)
Definition slice {A : Type} (arr : list A) (start end_ : Z) : list A :=
  let len := Z.of_nat (length arr) in
  let k := if start <? 0 then Z.max (len + start) 0 else Z.min start len in
  let final := if end_ <? 0 then Z.max (len + end_) 0 else Z.min end_ len in
  take (Z.to_nat (final - k)) (drop (Z.to_nat k) arr).

(** [Math.ceil(sortedData.length / ROWS_PER_PAGE)] *)
Definition totalPages {A : Type} (sortedData : list A) : Z :=
  (Z.of_nat (length sortedData) + ROWS_PER_PAGE - 1) / ROWS_PER_PAGE.

Definition paginatedData {A : Type} (sortedData : list A) (currentPage : Z)
  : list A :=
  let start := (currentPage - 1) * ROWS_PER_PAGE in
  slice sortedData start (start + ROWS_PER_PAGE).

(** [SortConfig] of [lib/types.ts]. *)
Inductive SortField := price | rating | similarity_score | overall_score.
Inductive SortDirection := asc | desc.

Record SortConfig := {
  field : option SortField;
  direction : SortDirection
}.

Definition SortField_eqb (a b : SortField) : bool :=
  match a, b with
  | price, price | rating, rating | similarity_score, similarity_score
  | overall_score, overall_score => true
  | _, _ => false
  end.

(** The functional update of [handleSort]. *)
Definition handleSort (f : SortField) (prev : SortConfig) : SortConfig :=
  {| field := Some f;
     direction :=
       match field prev, direction prev with
       | Some g, asc => if SortField_eqb g f then desc else asc
       | _, _ => asc
       end |}.

(** The cells of the table that decide which rows are shown. *)
Record View := {
  searchQuery : string;
  sortConfig : SortConfig;
  currentPage : Z;
  topNFilter : string
}.

Definition initial : View :=
  {| searchQuery := ""; sortConfig := {| field := None; direction := asc |};
     currentPage := 1; topNFilter := "all" |}.

Definition handleSearchChange (query : string) (v : View) : View :=
  {| searchQuery := query; sortConfig := sortConfig v;
     currentPage := 1; topNFilter := topNFilter v |}.

Definition handleTopNChange (value : string) (v : View) : View :=
  {| searchQuery := searchQuery v; sortConfig := sortConfig v;
     currentPage := 1; topNFilter := value |}.

Definition setCurrentPage (page : Z) (v : View) : View :=
  {| searchQuery := searchQuery v; sortConfig := sortConfig v;
     currentPage := page; topNFilter := topNFilter v |}.

(** The page bar is rendered only when there is more than one page. *)
Definition bar {A : Type} (sortedData : list A) (v : View) : list Pager.control :=
  if totalPages sortedData >? 1
  then Pager.Pagination (currentPage v) (totalPages sortedData)
  else [].

(** ** The table as a transition system *)

Section Rows.

Context {A : Type}.

(** [filteredData] for the recommendations the table was given, by
    [searchQuery] and [topNFilter]; the parsing of the top-N value, the
    Unicode string functions and the comparison of scores are the
    platform's. *)
Variable filteredData : string -> string -> list A.

(** [[...l].sort(compare)] by a column and a direction. *)
Variable sort : SortField -> SortDirection -> list A -> list A.

Definition sortedData (v : View) : list A :=
  match field (sortConfig v) with
  | None => filteredData (searchQuery v) (topNFilter v)
  | Some f =>
      sort f (direction (sortConfig v)) (filteredData (searchQuery v) (topNFilter v))
  end.

(** What the user can do to the table; [Click page] is a click on a button
    of the page bar that asks for [page]. *)
Inductive Action :=
  | Search (query : string)
  | TopN (value : string)
  | SortBy (f : SortField)
  | Click (page : Z).

(** One action.  A click exists only for an enabled button of the bar as it
    is rendered. *)
Definition step (v : View) (a : Action) : View :=
  match a with
  | Search query => handleSearchChange query v
  | TopN value => handleTopNChange value v
  | SortBy f =>
      {| searchQuery := searchQuery v; sortConfig := handleSort f (sortConfig v);
         currentPage := currentPage v; topNFilter := topNFilter v |}
  | Click page =>
      if bool_decide (page ∈ Pager.clickable (bar (sortedData v) v))
      then setCurrentPage page v else v
  end.

Definition run (v : View) (tr : list Action) : View := foldl step v tr.

End Rows.

End RecommendationsTable.

(* ===================================================================== *)
(** * The editable table ([EditableTable]) *)
(* ===================================================================== *)

Module EditableTable.
Import Js.

(** A [DataRow]. *)
Abbreviation DataRow := (gmap string jsval).

Record Editing := {
  editingRow : option nat;
  editedData : DataRow
}.

Definition idle : Editing := {| editingRow := None; editedData := ∅ |}.

Definition startEditing (rowIndex : nat) (row : DataRow) (e : Editing) : Editing :=
  {| editingRow := Some rowIndex; editedData := row |}.

Definition cancelEditing (e : Editing) : Editing := idle.

(** [setEditedData((prev) => ({ ...prev, [key]: value }))] *)
Definition handleCellChange (key : string) (value : jsval) (e : Editing) : Editing :=
  {| editingRow := editingRow e; editedData := <[key := value]> (editedData e) |}.

(** [saveEditing]: the call of [onUpdate] it makes, if any, and the state it
    leaves; [has_onUpdate] tells whether the prop was given. *)
Definition saveEditing (has_onUpdate : bool) (e : Editing)
  : option (nat * DataRow) * Editing :=
  (match editingRow e with
   | Some rowIndex => if has_onUpdate then Some (rowIndex, editedData e) else None
   | None => None
   end, idle).

(** [handleDelete]: the call of [onDelete] it makes, if any; [confirmed] is
    the answer to [confirm(...)]. *)
Definition handleDelete (has_onDelete confirmed : bool) (rowIndex : nat)
  : option nat :=
  if has_onDelete && confirmed then Some rowIndex else None.

Section Search.

(** The string functions of the platform: [trim], [toLowerCase] and
    [includes] work on Unicode text. *)
Variable trim : string -> string.
Variable lower : string -> string.
Variable includes : string -> string -> bool.

(** The test of [filter]:
    [Object.values(row).some((value) =>
       String(value).toLowerCase().includes(query))]. *)
Definition row_matches (query : string) (row : DataRow) : bool :=
  existsb (fun value => includes (lower (to_string value)) query)
          (snd <$> map_to_list row).

Definition filteredData (searchQuery : string) (data : list DataRow)
  : list DataRow :=
  if String.eqb (trim searchQuery) "" then data
  else
    let query := lower searchQuery in
    base.filter (fun row => row_matches query row = true) data.

End Search.

End EditableTable.

(* ===================================================================== *)
(** * The remote calls of the coordinator, through [apiFetch] *)
(* ===================================================================== *)

Module Client.
Import Js Api Coordinator.

(** A settled promise, as an [await] sees it: a value, or a throw. *)
Definition awaited (s : settled) : jsval + exn :=
  match s with
  | Resolved v => inl v
  | Rejected e => inr e
  end.

(** [updateBehavior], [deleteBehavior], [addBehavior], [updateProduct],
    [deleteProduct] and [addProduct] of [lib/api.ts] each return
    [apiFetch(...)]; [network] is what [fetch] settles to for the call. *)
Definition through_apiFetch (type_error_text : string)
    (network : api_call -> fetch_result) : api_call -> jsval + exn :=
  fun c => awaited (apiFetch type_error_text (network c)).

End Client.

(* ===================================================================== *)
(** * The dashboard pages: refresh and upload *)
(* ===================================================================== *)

Module Dashboard.
Import Js Api.

(** The requests of [lib/api.ts] these handlers make. *)
Inductive request :=
  | getBehaviors
  | getProducts
  | getAllStoredRecommendations
  | generateRecommendations (userId : string)
  | uploadProducts (file : Page.File)
  | uploadUserBehavior (file : Page.File).

(** The notifications of [sonner], with their optional description. *)
Inductive notice :=
  | note_success (title : string)
  | note_error (title : string) (description : option string)
  | note_info (title : string) (description : option string).

(** A page: its [useState] cells, then the notifications shown and the
    requests sent so far, in order. *)
Record page (C : Type) := Build_page {
  cells : C;
  notices : list notice;
  requests : list request
}.
Arguments Build_page {C} _ _ _.
Arguments cells {C} _.
Arguments notices {C} _.
Arguments requests {C} _.

(** An [async] function over the page: it leaves a page and either returns
    ([inl]) or throws ([inr]).  A handler is run with no other handler of
    the page interleaved. *)
Definition act (C A : Type) : Type := page C -> page C * (A + exn).

Definition ret {C A : Type} (a : A) : act C A := fun p => (p, inl a).

Definition bind {C A B : Type} (m : act C A) (k : A -> act C B) : act C B :=
  fun p =>
    match m p with
    | (p', inl a) => k a p'
    | (p', inr e) => (p', inr e)
    end.

(** [try { body } catch (error) { handler }] *)
Definition try_catch {C A : Type} (body : act C A) (handler : exn -> act C A)
  : act C A :=
  fun p =>
    match body p with
    | (p', inr e) => handler e p'
    | done => done
    end.

(** [try { body } finally { cleanup }] *)
Definition finally {C A : Type} (body : act C A) (cleanup : act C unit)
  : act C A :=
  fun p =>
    match body p with
    | (p', r) =>
        match cleanup p' with
        | (p'', inl _) => (p'', r)
        | (p'', inr e) => (p'', inr e)
        end
    end.

(** A state setter called with a value computed from the cells. *)
Definition update {C : Type} (f : C -> C) : act C unit :=
  fun p => ({| cells := f (cells p); notices := notices p;
               requests := requests p |}, inl tt).

Definition toast {C : Type} (n : notice) : act C unit :=
  fun p => ({| cells := cells p; notices := notices p ++ [n];
               requests := requests p |}, inl tt).

(** [if (b) { m }] *)
Definition when {C : Type} (b : bool) (m : act C unit) : act C unit :=
  if b then m else ret tt.

Declare Scope act_scope.
Delimit Scope act_scope with act.
Notation "'let*' x ':=' m 'in' k" := (bind m (fun x => k))
  (at level 10, x name, m at level 100, k at level 200) : act_scope.
Notation "m ;; k" := (bind m (fun _ => k))
  (at level 100, k at level 200, right associativity) : act_scope.

(** [error instanceof Error ? error.message : fallback] *)
Definition message_or (fallback : string) (error : exn) : string :=
  match error with
  | Error_ message => message
  | NotAnError _ => fallback
  end.

Section Requests.

(** The message the engine gives the TypeError of a property read on
    [undefined]. *)
Variable type_error_text : string.

(** What [fetch] settles to for the [n]-th request the page sends. *)
Variable network : nat -> request -> fetch_result.

(** The wrapper of [lib/api.ts] behind each request: the two uploads go
    through [uploadFile], the others through [apiFetch]. *)
Definition settle (n : nat) (r : request) : settled :=
  match r with
  | uploadProducts _ | uploadUserBehavior _ => uploadFile type_error_text (network n r)
  | _ => apiFetch type_error_text (network n r)
  end.

(** [await r(...)] *)
Definition send {C : Type} (r : request) : act C jsval :=
  fun p =>
    ({| cells := cells p; notices := notices p; requests := requests p ++ [r] |},
     match settle (length (requests p)) r with
     | Resolved v => inl v
     | Rejected e => inr e
     end).

(** The two uploads at the head of every [handleUpload]:
    [if (catalogFile) { await uploadProducts(catalogFile); toast.success(...) }]
    and the same for the behaviour file. *)
Definition upload_files {C : Type} (catalogFile behaviourFile : option Page.File)
  : act C unit :=
  ((match catalogFile with
    | Some file =>
        send (uploadProducts file) ;;
        toast (note_success "Products uploaded successfully")
    | None => ret tt
    end) ;;
   match behaviourFile with
   | Some file =>
       send (uploadUserBehavior file) ;;
       toast (note_success "User behavior uploaded successfully")
   | None => ret tt
   end)%act.

(** [uploadBothFiles] of [lib/api.ts]: [results] is the object it returns. *)
Definition uploadBothFiles {C : Type} (productsFile behaviorFile : option Page.File)
  : act C (gmap string jsval) :=
  (let* results := ret (∅ : gmap string jsval) in
   let* results :=
     match productsFile with
     | Some file =>
         let* v := send (uploadProducts file) in
         ret (<["products" := v]> results)
     | None => ret results
     end in
   let* results :=
     match behaviorFile with
     | Some file =>
         let* v := send (uploadUserBehavior file) in
         ret (<["behavior" := v]> results)
     | None => ret results
     end in
   ret results)%act.

End Requests.

(** ** The behaviour page *)

Module BehaviourPage.

Record state := {
  behaviour : list jsval;
  isLoading : bool;
  isRefreshing : bool
}.

Definition setBehaviour (v : list jsval) (c : state) : state :=
  {| behaviour := v; isLoading := isLoading c; isRefreshing := isRefreshing c |}.
Definition setIsLoading (v : bool) (c : state) : state :=
  {| behaviour := behaviour c; isLoading := v; isRefreshing := isRefreshing c |}.
Definition setIsRefreshing (v : bool) (c : state) : state :=
  {| behaviour := behaviour c; isLoading := isLoading c; isRefreshing := v |}.

Section Handlers.

Variable type_error_text : string.
Variable network : nat -> request -> fetch_result.

Definition fetchBehaviors (showToast : bool) : act state unit :=
  finally
    (try_catch
       (update (setIsRefreshing true) ;;
        let* data := send type_error_text network getBehaviors in
        update (fun c => setBehaviour (Normalizer.fetchBehaviors data (behaviour c)) c) ;;
        when showToast (toast (note_success "Behaviors refreshed successfully")))%act
       (fun error =>
          when showToast
            (toast (note_error "Failed to fetch behaviors"
                      (Some (message_or "Using local data" error))))))
    (update (setIsRefreshing false)).

Definition handleUpload (catalogFile behaviourFile : option Page.File)
  : act state unit :=
  (update (setIsLoading true) ;;
   finally
     (try_catch
        (upload_files type_error_text network catalogFile behaviourFile ;;
         fetchBehaviors false)
        (fun error =>
           toast (note_error "Upload failed"
                    (Some (message_or "Please try again" error)))))
     (update (setIsLoading false)))%act.

End Handlers.
End BehaviourPage.

(** ** The catalog page *)

Module CatalogPage.

Record state := {
  catalog : list jsval;
  isLoading : bool;
  isRefreshing : bool
}.

Definition setCatalog (v : list jsval) (c : state) : state :=
  {| catalog := v; isLoading := isLoading c; isRefreshing := isRefreshing c |}.
Definition setIsLoading (v : bool) (c : state) : state :=
  {| catalog := catalog c; isLoading := v; isRefreshing := isRefreshing c |}.
Definition setIsRefreshing (v : bool) (c : state) : state :=
  {| catalog := catalog c; isLoading := isLoading c; isRefreshing := v |}.

Section Handlers.

Variable type_error_text : string.
Variable network : nat -> request -> fetch_result.

Definition fetchProducts (showToast : bool) : act state unit :=
  finally
    (try_catch
       (update (setIsRefreshing true) ;;
        let* data := send type_error_text network getProducts in
        update (fun c => setCatalog (Normalizer.fetchProducts data (catalog c)) c) ;;
        when showToast (toast (note_success "Products refreshed successfully")))%act
       (fun error =>
          when showToast
            (toast (note_error "Failed to fetch products"
                      (Some (message_or "Using local data" error))))))
    (update (setIsRefreshing false)).

Definition handleUpload (catalogFile behaviourFile : option Page.File)
  : act state unit :=
  (update (setIsLoading true) ;;
   finally
     (try_catch
        (upload_files type_error_text network catalogFile behaviourFile ;;
         fetchProducts false)
        (fun error =>
           toast (note_error "Upload failed"
                    (Some (message_or "Please try again" error)))))
     (update (setIsLoading false)))%act.

End Handlers.
End CatalogPage.

(** ** The recommendations page of the dashboard *)

Module RecommendationsPage.

Record state := {
  shown : Normalizer.Recs;
  userId : string;
  isGenerating : bool;
  isLoading : bool
}.

Definition setShown (v : Normalizer.Recs) (c : state) : state :=
  {| shown := v; userId := userId c; isGenerating := isGenerating c;
     isLoading := isLoading c |}.
Definition setIsGenerating (v : bool) (c : state) : state :=
  {| shown := shown c; userId := userId c; isGenerating := v;
     isLoading := isLoading c |}.
Definition setIsLoading (v : bool) (c : state) : state :=
  {| shown := shown c; userId := userId c; isGenerating := isGenerating c;
     isLoading := v |}.

Section Handlers.

Variable type_error_text : string.
Variable network : nat -> request -> fetch_result.

(** [String.prototype.trim] of the platform. *)
Variable trim : string -> string.

Definition fetchStoredRecommendations : act state unit :=
  finally
    (try_catch
       (update (setIsLoading true) ;;
        let* data := send type_error_text network getAllStoredRecommendations in
        update (fun c =>
                  setShown (Normalizer.fetchStoredRecommendations data (shown c)) c))%act
       (fun error => ret tt))
    (update (setIsLoading false)).

(** [`Generated ${n} recommendations!`] *)
Definition generated (n : nat) : string :=
  "Generated " +:+ pretty (Z.of_nat n) +:+ " recommendations!".

Definition handleGenerateRecommendations : act state unit :=
  fun p =>
    if String.eqb (trim (userId (cells p))) "" then
      toast (note_error "Please enter a User ID" None) p
    else
      finally
        (try_catch
           (update (setIsGenerating true) ;;
            toast (note_info "Generating recommendations..."
                     (Some "This may take a moment as we analyze user behavior and product data.")) ;;
            let* data := send type_error_text network
                         (generateRecommendations (userId (cells p))) in
            update (fun c =>
                      setShown (Normalizer.handleGenerateRecommendations data (shown c)) c) ;;
            toast (note_success
                     match Normalizer.array_field data "recommendations" with
                     | Some l => generated (length l)
                     | None =>
                         match Normalizer.as_array data with
                         | Some l => generated (length l)
                         | None => "Recommendations generated successfully"
                         end
                     end))%act
           (fun error =>
              toast (note_error "Failed to generate recommendations"
                       (Some (message_or "Please try again" error)))))
        (update (setIsGenerating false)) p.

Definition handleUpload (catalogFile behaviourFile : option Page.File)
  : act state unit :=
  try_catch
    (upload_files type_error_text network catalogFile behaviourFile ;;
     toast (note_info "Files uploaded! Click 'Generate' to create new recommendations."
              None))%act
    (fun error =>
       toast (note_error "Upload failed"
                (Some (message_or "Please try again" error)))).

End Handlers.
End RecommendationsPage.

End Dashboard.

(* ===================================================================== *)
(** * The dialogs ([UploadDialog], [AddBehaviorDialog], [AddProductDialog]) *)
(* ===================================================================== *)

Module UploadDialog.
Import Js.

Record dialog := {
  open : bool;
  catalogFile : option Page.File;
  behaviourFile : option Page.File;
  isUploading : bool;
  error : string
}.

Definition initial : dialog :=
  {| open := false; catalogFile := None; behaviourFile := None;
     isUploading := false; error := "" |}.

Definition setOpen (v : bool) (d : dialog) : dialog :=
  {| open := v; catalogFile := catalogFile d; behaviourFile := behaviourFile d;
     isUploading := isUploading d; error := error d |}.
Definition setCatalogFile (v : option Page.File) (d : dialog) : dialog :=
  {| open := open d; catalogFile := v; behaviourFile := behaviourFile d;
     isUploading := isUploading d; error := error d |}.
Definition setBehaviourFile (v : option Page.File) (d : dialog) : dialog :=
  {| open := open d; catalogFile := catalogFile d; behaviourFile := v;
     isUploading := isUploading d; error := error d |}.
Definition setIsUploading (v : bool) (d : dialog) : dialog :=
  {| open := open d; catalogFile := catalogFile d; behaviourFile := behaviourFile d;
     isUploading := v; error := error d |}.
Definition setError (v : string) (d : dialog) : dialog :=
  {| open := open d; catalogFile := catalogFile d; behaviourFile := behaviourFile d;
     isUploading := isUploading d; error := v |}.

(** [picked] is [e.target.files?.[0]]. *)
Definition handleCatalogChange (picked : option Page.File) (d : dialog) : dialog :=
  match picked with
  | Some file =>
      if Page.isCSV file then setError "" (setCatalogFile (Some file) d)
      else setError "Please select a valid CSV file for product catalog" d
  | None => d
  end.

Definition handleBehaviourChange (picked : option Page.File) (d : dialog) : dialog :=
  match picked with
  | Some file =>
      if Page.isCSV file then setError "" (setBehaviourFile (Some file) d)
      else setError "Please select a valid CSV file for user behaviour" d
  | None => d
  end.

Definition handleRemoveCatalog (d : dialog) : dialog := setCatalogFile None d.
Definition handleRemoveBehaviour (d : dialog) : dialog := setBehaviourFile None d.

(** [handleUpload], run to its end beside the page [w] that owns the
    [onUpload] prop ([None] when the prop is not given); the awaited call
    leaves a page and returns or throws. *)
Definition handleUpload {W : Type}
    (onUpload : option (option Page.File -> option Page.File -> W -> W * (unit + exn)))
    (d : dialog) (w : W) : dialog * W :=
  match catalogFile d, behaviourFile d with
  | None, None => (setError "Please select at least one file to upload" d, w)
  | _, _ =>
      let d := setIsUploading true d in
      let d := setError "" d in
      let '(w, settled) :=
        match onUpload with
        | Some f => f (catalogFile d) (behaviourFile d) w
        | None => (w, inl tt)
        end in
      let d :=
        match settled with
        | inl _ => setOpen false (setBehaviourFile None (setCatalogFile None d))
        | inr err =>
            setError (Dashboard.message_or "Failed to upload files" err) d
        end in
      (setIsUploading false d, w)
  end.

(** What the user can do to the dialog between uploads. *)
Inductive Action :=
  | OpenChange (v : bool)
  | CatalogChange (picked : option Page.File)
  | BehaviourChange (picked : option Page.File)
  | RemoveCatalog
  | RemoveBehaviour.

Definition step (d : dialog) (a : Action) : dialog :=
  match a with
  | OpenChange v => setOpen v d
  | CatalogChange picked => handleCatalogChange picked d
  | BehaviourChange picked => handleBehaviourChange picked d
  | RemoveCatalog => handleRemoveCatalog d
  | RemoveBehaviour => handleRemoveBehaviour d
  end.

End UploadDialog.

Module AddDialog.
Import Js Coordinator.

(** The cells the two dialogs share; [formData] is the object of the form. *)
Record dialog := {
  open : bool;
  isAdding : bool;
  formData : row
}.

Definition setOpen (v : bool) (d : dialog) : dialog :=
  {| open := v; isAdding := isAdding d; formData := formData d |}.
Definition setIsAdding (v : bool) (d : dialog) : dialog :=
  {| open := open d; isAdding := v; formData := formData d |}.
Definition setFormData (v : row) (d : dialog) : dialog :=
  {| open := open d; isAdding := isAdding d; formData := v |}.

(** The form of [AddBehaviorDialog] as it is created and reset; [stamp] is
    [new Date().toISOString().replace('T', ' ').slice(0, 19)]. *)
Definition blank_behavior (stamp : string) : row :=
  <["user_id" := VStr ""]> (<["product_id" := VStr ""]>
  (<["action" := VStr "view"]> (<["timestamp" := VStr stamp]> ∅))).

(** The form of [AddProductDialog] as it is created and reset. *)
Definition blank_product : row :=
  <["product_id" := VStr ""]> (<["name" := VStr ""]>
  (<["category" := VStr ""]> (<["price" := VNum 0]>
  (<["rating" := VNum 0]> (<["brand" := VStr ""]>
  (<["features" := VStr ""]> ∅)))))).

(** [!formData.a || !formData.b || ...] over the required fields. *)
Definition missing (required : list string) (data : row) : bool :=
  existsb (fun key => negb (truthy (field data key))) required.

(** [handleSubmit] of both dialogs, run to its end beside the page [w] that
    owns the [onAdd] prop; [required] are the fields tested first and
    [blank] is the form the success branch resets to. *)
Definition handleSubmit {W : Type} (required : list string) (blank : row)
    (onAdd : row -> W -> W * option exn) (d : dialog) (w : W) : dialog * W :=
  if missing required (formData d) then (d, w)
  else
    let d := setIsAdding true d in
    let '(w, thrown) := onAdd (formData d) w in
    let d :=
      match thrown with
      | None => setOpen false (setFormData blank d)
      | Some _ => d
      end in
    (setIsAdding false d, w).

Definition AddBehaviorDialog_handleSubmit {W : Type} (stamp : string) :=
  @handleSubmit W ["user_id"; "product_id"] (blank_behavior stamp).

Definition AddProductDialog_handleSubmit {W : Type} :=
  @handleSubmit W ["product_id"; "name"; "brand"; "category"] blank_product.

(** The [onAdd] prop as a page gives it: the page handler, run on the list
    the page shows, its notifications and calls added to those so far. *)
Definition page_handler (remote : api_call -> jsval + exn)
    (meanwhile : list slot -> list slot) (handler : row -> list slot -> prog)
    (data : row) (w : world) : world * option exn :=
  exec remote meanwhile (handler data (rows w)) w.

End AddDialog.

(* ===================================================================== *)
(** * Vocabulary and sample data for the dashboard and the tables *)
(* ===================================================================== *)

Module DashboardVocabulary.
Import Js Api Dashboard.

(** The uploads a [handleUpload] is asked for, in the order it makes them. *)
Definition plan (catalogFile behaviourFile : option Page.File) : list request :=
  option_list (uploadProducts <$> catalogFile)
  ++ option_list (uploadUserBehavior <$> behaviourFile).

(** The notifications of the uploads that went through. *)
Definition uploaded (catalogFile behaviourFile : option Page.File) : list notice :=
  match catalogFile with
  | Some _ => [note_success "Products uploaded successfully"]
  | None => []
  end
  ++ match behaviourFile with
     | Some _ => [note_success "User behavior uploaded successfully"]
     | None => []
     end.

(** A server that accepts everything and lists no rows. *)
Definition accepting (n : nat) (r : request) : fetch_result :=
  Response 200 "OK" (Json (VArr [])).

(** A server that refuses everything. *)
Definition refusing (n : nat) (r : request) : fetch_result :=
  Response 500 "Internal Server Error"
    (Json (VObj (<["detail" := VStr "database is down"]> ∅))).

Definition fresh_behaviour_page : page BehaviourPage.state :=
  {| cells := {| BehaviourPage.behaviour := [VObj Samples.row_with_id];
                 BehaviourPage.isLoading := false;
                 BehaviourPage.isRefreshing := false |};
     notices := []; requests := [] |}.

Definition fresh_recommendations_page (userId : string)
  : page RecommendationsPage.state :=
  {| cells := {| RecommendationsPage.shown :=
                   {| Normalizer.recommendations := [];
                      Normalizer.explanation := VStr "" |};
                 RecommendationsPage.userId := userId;
                 RecommendationsPage.isGenerating := false;
                 RecommendationsPage.isLoading := false |};
     notices := []; requests := [] |}.

(** [s.includes(q)], on the text of the samples. *)
Fixpoint includes (s q : string) : bool :=
  String.prefix q s
  || match s with
     | EmptyString => false
     | String _ rest => includes rest q
     end.

(** Three catalog rows. *)
Definition product (product_id name : string) : gmap string jsval :=
  <["product_id" := VStr product_id]> (<["name" := VStr name]> ∅).

Definition three_products : list (gmap string jsval) :=
  [product "P1" "Kettle"; product "P2" "Lamp"; product "P3" "Laptop"].

End DashboardVocabulary.

(* ===================================================================== *)
(** * Properties *)
(* ===================================================================== *)

(** ** Rounding to a double *)

Module DoubleFacts.
Import Double.

Lemma UNIT_pos : 0 < UNIT.
Proof. unfold UNIT. apply Z.pow_pos_nonneg; lia. Qed.

Lemma div_cross_mono (p1 q1 p2 q2 : Z) :
  0 < q1 -> 0 < q2 -> p1 * q2 <= p2 * q1 -> p1 / q1 <= p2 / q2.
Proof.
  intros H1 H2 H. apply Z.div_le_lower_bound; [done |].
  pose proof (Z.mul_div_le p1 q1 H1). nia.
Qed.

Lemma ties_even_floor (n d : Z) :
  0 < d -> n / d <= ties_even n d <= n / d + 1.
Proof.
  intros Hd. unfold ties_even.
  destruct (2 * (n mod d) <? d); [lia |].
  destruct (d <? 2 * (n mod d)); [lia |].
  destruct (Z.even (n / d)); lia.
Qed.

Lemma ties_even_lower (n d k : Z) :
  0 < d -> k * d <= n -> k <= ties_even n d.
Proof.
  intros Hd Hk. pose proof (ties_even_floor n d Hd).
  assert (k <= n / d) by (apply Z.div_le_lower_bound; lia). lia.
Qed.

Lemma ties_even_upper (n d k : Z) :
  0 < d -> n <= k * d -> ties_even n d <= k.
Proof.
  intros Hd Hk. unfold ties_even.
  pose proof (Z.div_mod n d ltac:(lia)) as Hdm.
  pose proof (Z.mod_pos_bound n d Hd) as Hr.
  assert (Hfloor : n / d <= k).
  { apply Z.div_le_upper_bound; lia. }
  destruct (decide (n / d = k)) as [E | E].
  - assert (n mod d = 0) by nia.
    assert (E1 : (2 * (n mod d) <? d) = true) by lia. rewrite E1. lia.
  - destruct (2 * (n mod d) <? d); [lia |].
    destruct (d <? 2 * (n mod d)); [lia |].
    destruct (Z.even (n / d)); lia.
Qed.

Lemma ties_even_mono (n1 d1 n2 d2 : Z) :
  0 < d1 -> 0 < d2 -> n1 * d2 <= n2 * d1 ->
  ties_even n1 d1 <= ties_even n2 d2.
Proof.
  intros H1 H2 H.
  pose proof (div_cross_mono _ _ _ _ H1 H2 H) as Hk.
  pose proof (ties_even_floor n1 d1 H1) as B1.
  pose proof (ties_even_floor n2 d2 H2) as B2.
  destruct (decide (n1 / d1 = n2 / d2)) as [E | E]; [| lia].
  unfold ties_even. rewrite E.
  pose proof (Z.div_mod n1 d1 ltac:(lia)) as Hdm1.
  pose proof (Z.div_mod n2 d2 ltac:(lia)) as Hdm2.
  pose proof (Z.mod_pos_bound n1 d1 H1) as Hr1.
  pose proof (Z.mod_pos_bound n2 d2 H2) as Hr2.
  rewrite E in Hdm1.
  assert (Hr : (n1 mod d1) * d2 <= (n2 mod d2) * d1) by nia.
  destruct (2 * (n1 mod d1) <? d1) eqn:A1.
  - destruct (2 * (n2 mod d2) <? d2); [lia |].
    destruct (d2 <? 2 * (n2 mod d2)); [lia |].
    destruct (Z.even (n2 / d2)); lia.
  - assert (A2 : (2 * (n2 mod d2) <? d2) = false) by nia. rewrite A2.
    destruct (d1 <? 2 * (n1 mod d1)) eqn:B1'.
    + assert (B2' : (d2 <? 2 * (n2 mod d2)) = true) by nia. rewrite B2'. lia.
    + destruct (d2 <? 2 * (n2 mod d2)); destruct (Z.even (n2 / d2)); lia.
Qed.

Lemma pow2_pos (j : Z) : 0 <= j -> 0 < 2 ^ j.
Proof. intros. apply Z.pow_pos_nonneg; lia. Qed.

(** Rounding keeps the order of the fractions. *)
Lemma nearest_mono (p1 q1 p2 q2 : Z) :
  0 <= p1 -> 0 < q1 -> 0 < q2 -> p1 * q2 <= p2 * q1 ->
  nearest p1 q1 <= nearest p2 q2.
Proof.
  intros Hp1 H1 H2 H. unfold nearest.
  assert (Hp2 : 0 <= p2) by nia.
  pose proof (div_cross_mono _ _ _ _ H1 H2 H) as Hk.
  assert (Hf1 : 0 <= p1 / q1) by (apply Z.div_pos; lia).
  pose proof (Z.log2_le_mono _ _ Hk) as Hlog.
  set (j1 := Z.max 0 (Z.log2 (p1 / q1) - 52)).
  set (j2 := Z.max 0 (Z.log2 (p2 / q2) - 52)).
  assert (Hj1 : 0 <= j1) by lia. assert (Hj2 : 0 <= j2) by lia.
  pose proof (pow2_pos j1 Hj1) as P1. pose proof (pow2_pos j2 Hj2) as P2.
  destruct (decide (j1 = j2)) as [E | E].
  - rewrite E. apply Z.mul_le_mono_nonneg_r; [lia |].
    apply ties_even_mono; nia.
  - assert (Hlt : j1 + 1 <= j2) by lia.
    assert (Hj2' : j2 = Z.log2 (p2 / q2) - 52) by lia.
    (* the larger one has a full mantissa *)
    assert (Hbig : 2 ^ 52 <= ties_even p2 (q2 * 2 ^ j2)).
    { apply ties_even_lower; [nia |].
      assert (0 < p2 / q2).
      { destruct (decide (0 < p2 / q2)); [done |].
        assert (p2 / q2 <= 0) by lia.
        assert (Z.log2 (p2 / q2) = 0) by (apply Z.log2_nonpos; lia). lia. }
      pose proof (Z.log2_spec (p2 / q2) ltac:(lia)) as [Hlo _].
      pose proof (Z.mul_div_le p2 q2 H2).
      assert (2 ^ (j2 + 52) <= p2 / q2) by (rewrite Hj2'; by replace (Z.log2 (p2 / q2) - 52 + 52) with (Z.log2 (p2 / q2)) by lia).
      rewrite Z.pow_add_r in * by lia. nia. }
    (* the smaller one has at most 53 bits *)
    assert (Hsmall : ties_even p1 (q1 * 2 ^ j1) <= 2 ^ 53).
    { apply ties_even_upper; [nia |].
      assert (Hup : p1 / q1 < 2 ^ (j1 + 53)).
      { destruct (decide (0 < p1 / q1)) as [Hpos | Hz].
        - pose proof (Z.log2_spec (p1 / q1) Hpos) as [_ Hhi].
          eapply Z.lt_le_trans; [exact Hhi |].
          apply Z.pow_le_mono_r; lia.
        - assert (p1 / q1 = 0) by lia.
          pose proof (pow2_pos (j1 + 53) ltac:(lia)). lia. }
      assert (p1 < q1 * 2 ^ (j1 + 53)).
      { pose proof (Z.div_mod p1 q1 ltac:(lia)).
        pose proof (Z.mod_pos_bound p1 q1 H1). nia. }
      rewrite Z.pow_add_r in * by lia. nia. }
    assert (Hstep : 2 ^ 53 * 2 ^ j1 <= 2 ^ 52 * 2 ^ j2).
    { rewrite <- !Z.pow_add_r by lia. apply Z.pow_le_mono_r; lia. }
    nia.
Qed.

Lemma nearest_nonneg (p q : Z) : 0 <= p -> 0 < q -> 0 <= nearest p q.
Proof.
  intros Hp Hq. unfold nearest.
  set (j := Z.max 0 _). pose proof (pow2_pos j ltac:(lia)).
  assert (0 <= ties_even p (q * 2 ^ j)) by (apply ties_even_lower; nia).
  nia.
Qed.

Lemma round_mono (p1 q1 p2 q2 : Z) :
  0 < q1 -> 0 < q2 -> p1 * q2 <= p2 * q1 -> round p1 q1 <= round p2 q2.
Proof.
  intros H1 H2 H. unfold round.
  destruct (p1 <? 0) eqn:E1; destruct (p2 <? 0) eqn:E2.
  - assert (nearest (- p2) q2 <= nearest (- p1) q1) by (apply nearest_mono; nia).
    lia.
  - pose proof (nearest_nonneg (- p1) q1 ltac:(lia) H1).
    pose proof (nearest_nonneg p2 q2 ltac:(lia) H2). lia.
  - nia.
  - apply nearest_mono; nia.
Qed.

Lemma round_ext (p1 q1 p2 q2 : Z) :
  0 < q1 -> 0 < q2 -> p1 * q2 = p2 * q1 -> round p1 q1 = round p2 q2.
Proof.
  intros H1 H2 H. apply Z.le_antisymm; apply round_mono; lia.
Qed.

Lemma round_pos (p q : Z) : 0 < p -> 0 < q -> 0 < q -> 1 * q <= p -> 0 < round p q.
Proof.
  intros Hp Hq _ Hge. unfold round.
  assert (E : (p <? 0) = false) by lia. rewrite E. unfold nearest.
  set (j := Z.max 0 _). pose proof (pow2_pos j ltac:(lia)).
  assert (Hj : j = 0 \/ j = Z.log2 (p / q) - 52 /\ 0 < j) by lia.
  destruct Hj as [-> | [Hj Hjpos]].
  - assert (1 <= ties_even p (q * 2 ^ 0)) by (apply ties_even_lower; simpl; lia).
    simpl in *. lia.
  - assert (0 < p / q) by (apply Z.div_str_pos; lia).
    pose proof (Z.log2_spec (p / q) ltac:(lia)) as [Hlo _].
    pose proof (Z.mul_div_le p q Hq).
    assert (1 <= ties_even p (q * 2 ^ j)).
    { apply ties_even_lower; [nia |].
      assert (2 ^ j <= 2 ^ Z.log2 (p / q)) by (apply Z.pow_le_mono_r; lia). nia. }
    nia.
Qed.

Lemma Math_round_mono (u1 u2 : Z) : u1 <= u2 -> Math_round u1 <= Math_round u2.
Proof.
  intros H. unfold Math_round. pose proof UNIT_pos.
  apply Z.div_le_mono; lia.
Qed.

End DoubleFacts.

(** ** Strings *)


Module StringFacts.
Import Js.

Lemma app_cons (c : ascii) (s t : string) :
  String c s +:+ t = String c (s +:+ t).
Proof. reflexivity. Qed.

Lemma app_empty (t : string) : "" +:+ t = t.
Proof. reflexivity. Qed.

Lemma toLowerCase_app (s t : string) :
  toLowerCase (s +:+ t) = toLowerCase s +:+ toLowerCase t.
Proof.
  induction s as [|c s IH]; [done |].
  rewrite !app_cons. simpl. by rewrite IH, app_cons.
Qed.

Lemma toLowerCase_length (s : string) :
  String.length (toLowerCase s) = String.length s.
Proof. induction s as [|c s IH]; simpl; [done | by rewrite IH]. Qed.

Lemma toLowerCase_substring (s : string) (a b : nat) :
  toLowerCase (substring a b s) = substring a b (toLowerCase s).
Proof.
  revert a b. induction s as [|c s IH]; intros a b.
  - by destruct a, b.
  - destruct a as [|a]; simpl.
    + destruct b as [|b]; simpl; [done | by rewrite IH].
    + apply IH.
Qed.

Lemma substring_all (s : string) : substring 0 (String.length s) s = s.
Proof. induction s as [|d s IH]; simpl; [done | by rewrite IH]. Qed.

Lemma substring_split (s : string) (m : nat) :
  (m <= String.length s)%nat ->
  s = substring 0 m s +:+ substring m (String.length s - m) s.
Proof.
  revert m. induction s as [|c s IH]; intros m Hm; simpl in *.
  - by destruct m.
  - destruct m as [|m]; simpl.
    + by rewrite app_empty, substring_all.
    + rewrite app_cons. f_equal. apply IH. lia.
Qed.

Lemma substring_app_suffix (p suffix : string) :
  substring (String.length p) (String.length suffix) (p +:+ suffix) = suffix.
Proof.
  induction p as [|c p IH].
  - rewrite app_empty. apply substring_all.
  - rewrite app_cons. simpl. exact IH.
Qed.

Lemma app_length (s t : string) :
  String.length (s +:+ t) = (String.length s + String.length t)%nat.
Proof.
  induction s as [|c s IH]; [done |].
  rewrite app_cons. simpl. by rewrite IH.
Qed.

(** [endsWith] holds exactly of the strings that are a stem followed by the
    suffix. *)
Lemma endsWith_spec (s suffix : string) :
  endsWith s suffix = true <-> exists stem, s = stem +:+ suffix.
Proof.
  unfold endsWith. rewrite andb_true_iff, Nat.leb_le, String.eqb_eq. split.
  - intros [Hle Hsub].
    exists (substring 0 (String.length s - String.length suffix) s).
    pose proof (substring_split s (String.length s - String.length suffix)) as E.
    replace (String.length s - (String.length s - String.length suffix))%nat
      with (String.length suffix) in E by lia.
    rewrite Hsub in E. apply E. lia.
  - intros [stem ->]. rewrite app_length. split; [lia |].
    replace (String.length stem + String.length suffix - String.length suffix)%nat
      with (String.length stem) by lia.
    apply substring_app_suffix.
Qed.

End StringFacts.

(** ** The file stager *)

Module StagerFacts.
Import Js Page Vocabulary StringFacts.

Lemma csv_suffix_spec (s : string) :
  endsWith (toLowerCase s) ".csv" = true <-> ends_in_ignoring_case s ".csv".
Proof.
  rewrite endsWith_spec. split.
  - intros [stem Hs].
    assert (Hlen : (4 <= String.length s)%nat).
    { rewrite <- toLowerCase_length, Hs, app_length. simpl. lia. }
    exists (substring 0 (String.length s - 4) s),
           (substring (String.length s - 4) 4 s).
    split.
    + pose proof (substring_split s (String.length s - 4)) as E.
      replace (String.length s - (String.length s - 4))%nat with 4%nat in E by lia.
      apply E. lia.
    + rewrite toLowerCase_substring, Hs.
      replace (String.length s - 4)%nat with (String.length stem).
      * apply (substring_app_suffix stem ".csv").
      * rewrite <- (toLowerCase_length s), Hs, app_length. simpl. lia.
  - intros (stem & ext & -> & Hext).
    exists (toLowerCase stem). by rewrite toLowerCase_app, Hext.
Qed.

(** The test of the loop is the specification's notion of a CSV file. *)
Lemma isCSV_spec (f : File) : isCSV f = true <-> declared_csv f.
Proof.
  unfold isCSV, declared_csv.
  rewrite orb_true_iff, String.eqb_eq, csv_suffix_spec. tauto.
Qed.


(** The loop, in closed form. *)
Lemma scan_files_closed now rnd (selected : list File) : forall k acc,
  scan_files now rnd k selected acc =
  {| validFiles := validFiles acc ++ staged_from now rnd k selected;
     largeFiles := largeFiles acc ++ oversized selected;
     hasInvalidType :=
       hasInvalidType acc || existsb (fun f => negb (isCSV f)) selected |}.
Proof.
  induction selected as [|f rest IH]; intros k acc.
  - simpl. rewrite !app_nil_r, orb_false_r. by destruct acc.
  - simpl. rewrite IH. unfold oversized. rewrite filter_cons.
    destruct (decide _) as [[Hcsv Hbig] | Hno].
    + rewrite Hcsv. simpl.
      assert (E1 : (file_size f >? MAX_FILE_SIZE) = true) by lia.
      assert (E2 : (file_size f <=? MAX_FILE_SIZE) = false) by lia.
      rewrite E1, E2. simpl. by rewrite <- app_assoc.
    + destruct (isCSV f) eqn:Hcsv; simpl.
      * assert (E1 : (file_size f >? MAX_FILE_SIZE) = false) by lia.
        assert (E2 : (file_size f <=? MAX_FILE_SIZE) = true) by lia.
        rewrite E1, E2. simpl. by rewrite <- app_assoc.
      * by rewrite orb_true_r.
Qed.

Lemma elem_of_staged_from now rnd (selected : list File) : forall k m,
  m ∈ staged_from now rnd k selected <->
  exists j f, selected !! j = Some f /\ m = with_meta now rnd (k + j) f
              /\ isCSV f = true /\ file_size f <= MAX_FILE_SIZE.
Proof.
  induction selected as [|f rest IH]; intros k m; simpl.
  - split; [by intros ?%elem_of_nil | by intros (j & g & ? & _)].
  - rewrite elem_of_app, IH. split.
    + intros [Hm | (j & g & Hj & -> & Hcsv' & Hsz')].
      * destruct (isCSV f) eqn:Hcsv; simpl in Hm;
          [| by apply elem_of_nil in Hm].
        destruct (file_size f <=? MAX_FILE_SIZE) eqn:Hsz; simpl in Hm;
          [| by apply elem_of_nil in Hm].
        apply list_elem_of_singleton in Hm as ->.
        exists 0%nat, f. rewrite Nat.add_0_r. repeat split; [done | lia].
      * exists (S j), g. rewrite Nat.add_succ_r. simpl. done.
    + intros (j & g & Hj & -> & Hcsv & Hsz). destruct j as [|j]; simpl in Hj.
      * injection Hj as ->. left. rewrite Hcsv. simpl.
        assert (E : (file_size g <=? MAX_FILE_SIZE) = true) by lia.
        rewrite E, Nat.add_0_r. apply list_elem_of_singleton. done.
      * right. exists j, g. rewrite Nat.add_succ_r. simpl. done.
Qed.

Lemma elem_of_oversized (selected : list File) (f : File) :
  f ∈ oversized selected <->
  f ∈ selected /\ isCSV f = true /\ MAX_FILE_SIZE < file_size f.
Proof. unfold oversized. rewrite list_elem_of_filter. tauto. Qed.


(** What [handleFilesSelected] leaves in each cell it writes. *)
Lemma handleFilesSelected_cells now rnd selected s :
  let s' := handleFilesSelected now rnd selected s in
  files s' = files s ++ staged_from now rnd 0 selected
  /\ pendingLargeFiles s' =
       (if decide (oversized selected = []) then pendingLargeFiles s
        else oversized selected)
  /\ showLargeFileWarning s' =
       (if decide (oversized selected = []) then showLargeFileWarning s else true)
  /\ error s' =
       (if existsb (fun f => negb (isCSV f)) selected
        then VStr "Only CSV files are allowed" else VStr "").
Proof.
  unfold handleFilesSelected. rewrite scan_files_closed. simpl.
  destruct (existsb _ selected); destruct (oversized selected) as [|g gs];
    simpl; rewrite ?decide_True, ?decide_False by done; done.
Qed.

End StagerFacts.

Module StagerClaims.
Import Js Page Vocabulary StringFacts StagerFacts Samples.

Lemma fmap_file_imap now rnd (l : list File) : forall k,
  file <$> imap (fun j => with_meta now rnd (k + j)) l = l.
Proof.
  induction l as [|f rest IH]; intros k; [done |].
  rewrite imap_cons, fmap_cons. simpl. f_equal.
  rewrite <- (IH (S k)) at 2. f_equal. apply imap_ext.
  intros j g _. simpl. by rewrite Nat.add_succ_r.
Qed.





(** C8.  A CSV file above 5 MB goes to the pending set (and opens the
    confirmation dialog) and no staged entry is made for it: every entry
    [handleFilesSelected] adds is for a file of at most 5 MB.
    [handleConfirmLargeFiles] appends one staged entry per pending file, all
    of them and in order, and empties the pending set;
    [handleCancelLargeFiles] empties the pending set and leaves the staged
    set as it was. *)
Theorem large_files_wait_for_confirmation now rnd (selected : list File)
    (s : State) :
  let s' := handleFilesSelected now rnd selected s in
  (forall f, f ∈ selected -> declared_csv f -> MAX_FILE_SIZE < file_size f ->
     f ∈ pendingLargeFiles s' /\ showLargeFileWarning s' = true)
  /\ (forall m, m ∈ files s' ->
        m ∈ files s \/ file_size (file m) <= MAX_FILE_SIZE)
  /\ (exists added,
        files (handleConfirmLargeFiles now rnd s) = files s ++ added
        /\ file <$> added = pendingLargeFiles s)
  /\ pendingLargeFiles (handleConfirmLargeFiles now rnd s) = []
  /\ showLargeFileWarning (handleConfirmLargeFiles now rnd s) = false
  /\ pendingLargeFiles (handleCancelLargeFiles s) = []
  /\ files (handleCancelLargeFiles s) = files s.
Proof.
  intros s'.
  destruct (handleFilesSelected_cells now rnd selected s)
    as (Hfiles & Hpend & Hwarn & _).
  fold s' in Hfiles, Hpend, Hwarn.
  repeat split; try reflexivity.
  - rewrite Hpend.
    assert (Hin : f ∈ oversized selected).
    { apply elem_of_oversized. by rewrite isCSV_spec. }
    destruct (decide _) as [E | _]; [| done].
    rewrite E in Hin. by apply elem_of_nil in Hin.
  - rewrite Hwarn.
    assert (Hin : f ∈ oversized selected).
    { apply elem_of_oversized. by rewrite isCSV_spec. }
    destruct (decide _) as [E | _]; [| done].
    rewrite E in Hin. by apply elem_of_nil in Hin.
  - intros m. rewrite Hfiles, elem_of_app, elem_of_staged_from.
    intros [? | (j & f & _ & -> & _ & Hsz)]; [by left | by right].
  - exists (imap (with_meta now rnd) (pendingLargeFiles s)). split; [done |].
    apply (fmap_file_imap now rnd (pendingLargeFiles s) 0).
Qed.

Lemma large_csv_declared : declared_csv large_csv.
Proof. apply isCSV_spec. reflexivity. Qed.

(** The selection [a.csv] (1 KB) with [B.CSV] (6 MB): [B.CSV] is pending. *)
Lemma large_files_wait_for_confirmation_witness :
  large_csv ∈ pendingLargeFiles
                (handleFilesSelected now0 rnd0 [small_csv; large_csv] initial)
  /\ showLargeFileWarning
       (handleFilesSelected now0 rnd0 [small_csv; large_csv] initial) = true.
Proof.
  pose proof (large_files_wait_for_confirmation now0 rnd0
                [small_csv; large_csv] initial) as (Hpending & _).
  apply (Hpending large_csv).
  - apply list_elem_of_In. simpl. tauto.
  - exact large_csv_declared.
  - vm_compute. reflexivity.
Defined.

End StagerClaims.

(** ** The transport engine *)

Module TransportFacts.
Import Js Page Vocabulary.

Section Facts.

Variable mockRecommendations : jsval.
Variable numeric_positive : string -> bool.

Local Abbreviation step := (Page.step mockRecommendations numeric_positive).
Local Abbreviation run := (Page.run mockRecommendations numeric_positive).
Local Abbreviation reachable := (Vocabulary.reachable mockRecommendations numeric_positive).
Local Abbreviation history := (Vocabulary.history mockRecommendations).
Local Abbreviation Inv := (Vocabulary.Inv mockRecommendations).
Local Abbreviation delivered := (Vocabulary.delivered mockRecommendations numeric_positive).
Local Abbreviation canned_success := (Vocabulary.canned_success mockRecommendations).

(** *** Reading the record *)

Lemma emitted_by_app (h : nat) (l1 l2 : list (nat * emitted)) :
  emitted_by h (l1 ++ l2) = emitted_by h l1 ++ emitted_by h l2.
Proof. unfold emitted_by. by rewrite filter_app, fmap_app. Qed.

Lemma emitted_by_own (h : nat) (new : list emitted) :
  emitted_by h ((fun e => (h, e)) <$> new) = new.
Proof.
  unfold emitted_by. induction new as [|e new IH]; [done |].
  rewrite fmap_cons, filter_cons. simpl. rewrite decide_True by done.
  rewrite fmap_cons. simpl. by f_equal.
Qed.

Lemma emitted_by_cons_own (h : nat) (e : emitted) (l : list (nat * emitted)) :
  emitted_by h ((h, e) :: l) = e :: emitted_by h l.
Proof.
  unfold emitted_by. rewrite filter_cons. simpl.
  by rewrite decide_True by done.
Qed.

Lemma emitted_by_other (h h' : nat) (new : list emitted) :
  h ≠ h' -> emitted_by h ((fun e => (h', e)) <$> new) = [].
Proof.
  intros Hne. unfold emitted_by. induction new as [|e new IH]; [done |].
  rewrite fmap_cons, filter_cons. simpl. by rewrite decide_False by done.
Qed.

Lemma overalls_app (l1 l2 : list emitted) :
  overalls (l1 ++ l2) = overalls l1 ++ overalls l2.
Proof.
  induction l1 as [|e l1 IH]; [done |].
  destruct e; simpl; by rewrite ?IH.
Qed.

Lemma overalls_published snapshot (vs : list Z) :
  overalls (published snapshot <$> vs) = vs.
Proof.
  induction vs as [|v vs IH]; [done |].
  rewrite fmap_cons. simpl. by f_equal.
Qed.

Lemma published_snoc snapshot (vs : list Z) (v : Z) :
  (published snapshot <$> vs) ++ [published snapshot v]
  = published snapshot <$> (vs ++ [v]).
Proof. by rewrite fmap_app. Qed.

Lemma ticks_S (n : nat) : ticks (S n) = ticks n ++ [10 * Z.of_nat n].
Proof. unfold ticks. by rewrite seq_S, fmap_app. Qed.

Lemma elem_of_ticks (n : nat) (v : Z) :
  v ∈ ticks n <-> exists k, (k < n)%nat /\ v = 10 * Z.of_nat k.
Proof.
  unfold ticks. rewrite list_elem_of_fmap. split.
  - intros (k & -> & Hk). apply elem_of_seq in Hk. exists k. split; [lia | done].
  - intros (k & Hk & ->). exists k. split; [done |]. apply elem_of_seq. lia.
Qed.

(** *** The per-file percentages *)

Lemma per_file_lookup (snapshot : list FileWithMeta) (v : Z) (k : string) :
  per_file snapshot v !! k =
  if decide (k ∈ id <$> snapshot) then Some v else None.
Proof.
  unfold per_file.
  assert (G : forall (m : gmap string Z),
    foldl (fun m f => <[id f := v]> m) m snapshot !! k =
    if decide (k ∈ id <$> snapshot) then Some v else m !! k).
  { induction snapshot as [|f rest IH]; intros m; cbn [foldl].
    - rewrite decide_False; [done | by intros ?%elem_of_nil].
    - rewrite fmap_cons, IH. destruct (decide (k ∈ id <$> rest)) as [Hin | Hout].
      + rewrite decide_True; [done | by apply elem_of_cons; right].
      + destruct (decide (k = id f)) as [-> | Hne].
        * rewrite lookup_insert_eq. rewrite decide_True; [done |].
          apply elem_of_cons. by left.
        * rewrite lookup_insert_ne by done. rewrite decide_False; [done |].
          intros [? | ?]%elem_of_cons; done. }
  rewrite G. by destruct (decide _).
Qed.

(** Whatever the percentage, the progress the engine publishes gives every
    staged file of the session that percentage, and nothing else. *)
Lemma progress_at_uniform (snapshot : list FileWithMeta) (v : Z) :
  uniform snapshot (progress_at snapshot v).
Proof.
  split; simpl.
  - intros k w. rewrite per_file_lookup. destruct (decide _); congruence.
  - intros f Hf. rewrite per_file_lookup. rewrite decide_True; [done |].
    apply list_elem_of_fmap. by exists f.
Qed.

(** *** Rounding *)

Lemma total_units_pos (total : Z) :
  0 < total -> 0 < Double.round (total * Double.UNIT) 1.
Proof.
  intros Ht. pose proof DoubleFacts.UNIT_pos. apply DoubleFacts.round_pos; nia.
Qed.

Lemma round_percent_mono (loaded loaded' total : Z) :
  0 < total -> loaded <= loaded' ->
  round_percent loaded total <= round_percent loaded' total.
Proof.
  intros Ht Hl. unfold round_percent. pose proof DoubleFacts.UNIT_pos as HU.
  pose proof (total_units_pos total Ht) as Tpos.
  apply DoubleFacts.Math_round_mono. apply DoubleFacts.round_mono; [lia | lia |].
  apply Z.mul_le_mono_nonneg_r; [lia |]. apply Z.mul_le_mono_nonneg_r; [lia |].
  apply DoubleFacts.round_mono; [done | done |].
  apply Z.mul_le_mono_nonneg_r; [lia |].
  apply Z.mul_le_mono_nonneg_r; [lia |].
  apply DoubleFacts.round_mono; nia.
Qed.

Lemma round_percent_all (total : Z) : 0 < total -> round_percent total total = 100.
Proof.
  intros Ht. unfold round_percent. pose proof DoubleFacts.UNIT_pos as HU.
  pose proof (total_units_pos total Ht) as Tpos.
  rewrite (DoubleFacts.round_ext
             (Double.round (total * Double.UNIT) 1 * Double.UNIT)
             (Double.round (total * Double.UNIT) 1) Double.UNIT 1) by lia.
  vm_compute. reflexivity.
Qed.

Lemma round_percent_none (total : Z) : 0 < total -> round_percent 0 total = 0.
Proof.
  intros Ht. unfold round_percent.
  replace (Double.round (0 * Double.UNIT) 1) with 0 by (vm_compute; reflexivity).
  pose proof DoubleFacts.UNIT_pos as HU.
  pose proof (total_units_pos total Ht) as Tpos.
  rewrite (DoubleFacts.round_ext (0 * Double.UNIT)
             (Double.round (total * Double.UNIT) 1) 0 1) by lia.
  vm_compute. reflexivity.
Qed.

Lemma round_percent_range (loaded total : Z) :
  0 < total -> 0 <= loaded <= total ->
  0 <= round_percent loaded total <= 100.
Proof.
  intros Ht Hl. rewrite <- (round_percent_none total), <- (round_percent_all total)
    by done.
  split; apply round_percent_mono; lia.
Qed.

(** *** The invariant *)

Lemma shape_lookup (s : State) (h : nat) (t : task) :
  shape s -> tasks s !! h = Some t ->
  tasks s = {[ h := t ]} /\ isUploading s = true
  /\ abortController s =
       match t with MockLoop _ _ => None | XhrInFlight _ => Some h end.
Proof.
  intros [Hidle _ _ | h0 snap i Ht Hc Hu | h0 snap Ht Hc Hu] Hl.
  - rewrite Hidle in Hl. by rewrite lookup_empty in Hl.
  - rewrite Ht in Hl. apply lookup_singleton_Some in Hl as [-> <-]. done.
  - rewrite Ht in Hl. apply lookup_singleton_Some in Hl as [-> <-]. done.
Qed.

Lemma shape_not_uploading (s : State) :
  shape s -> isUploading s = false ->
  tasks s = ∅ /\ abortController s = None.
Proof. intros [? ? _ | ? ? ? _ _ Hu | ? ? _ _ Hu] Hf; [done | congruence ..]. Qed.

Lemma shape_no_controller (s : State) :
  shape s -> abortController s = None ->
  forall h snapshot, tasks s !! h ≠ Some (XhrInFlight snapshot).
Proof.
  intros Hs Hc h snapshot Hl.
  destruct (shape_lookup s h _ Hs Hl) as (_ & _ & Hc'). congruence.
Qed.

Lemma shape_controller (s : State) (c : nat) :
  shape s -> abortController s = Some c ->
  exists snapshot, tasks s = {[ c := XhrInFlight snapshot ]}.
Proof.
  intros [_ Hc _ | ? ? ? _ Hc _ | h0 snap Ht Hc Hu] Hc'; [congruence .. |].
  exists snap. congruence.
Qed.

(** Events that touch neither the sessions nor the cells tied to them. *)
Lemma Inv_frame (s s' : State) :
  tasks s' = tasks s -> next_handle s' = next_handle s -> log s' = log s ->
  abortController s' = abortController s -> isUploading s' = isUploading s ->
  Inv s -> Inv s'.
Proof.
  intros Ht Hn Hl Hc Hu [Hshape Hborn Hunborn]. split.
  - destruct Hshape as [? ? ? | h snap i ? ? ? | h snap ? ? ?].
    + apply shape_idle; congruence.
    + apply (shape_mock _ h snap i); congruence.
    + apply (shape_real _ h snap); congruence.
  - intros h. rewrite Ht, Hn, Hl. apply Hborn.
  - intros h. rewrite Ht, Hn, Hl. apply Hunborn.
Qed.

(** A session moves on: it emits [new] and is then suspended on [t'], or
    finished when [t'] is [None]. *)
Lemma Inv_session (s s' : State) (h : nat) (t' : option task)
    (new : list emitted) :
  Inv s -> (h < next_handle s)%nat -> next_handle s' = next_handle s ->
  tasks s' = partial_alter (fun _ => t') h (tasks s) ->
  log s' = log s ++ ((fun e => (h, e)) <$> new) ->
  history t' (emitted_by h (log s) ++ new) ->
  shape s' -> Inv s'.
Proof.
  intros [_ Hborn Hunborn] Hh Hn Ht Hl Hhist Hshape. split; [done | |].
  - intros h' Hh'. rewrite Ht, Hl, emitted_by_app, lookup_partial_alter.
    destruct (decide (h = h')) as [<- | Hne].
    + by rewrite emitted_by_own.
    + rewrite emitted_by_other, app_nil_r by done. apply Hborn. lia.
  - intros h' Hh'. rewrite Ht, Hl, emitted_by_app, lookup_partial_alter.
    rewrite decide_False by lia.
    rewrite emitted_by_other, app_nil_r by lia. apply Hunborn. lia.
Qed.

(** A session starts on an idle page. *)
Lemma Inv_start (s s' : State) (m : mode) (snapshot : list FileWithMeta)
    (t : task) :
  Inv s -> tasks s = ∅ ->
  tasks s' = {[ next_handle s := t ]} ->
  next_handle s' = S (next_handle s) ->
  log s' = log s ++ [(next_handle s, EvStart m snapshot)] ->
  history (Some t) [EvStart m snapshot] ->
  shape s' -> Inv s'.
Proof.
  intros [_ Hborn Hunborn] Hidle Ht Hn Hl Hhist Hshape. split; [done | |].
  - intros h Hh. rewrite Ht, Hl, emitted_by_app.
    destruct (decide (h = next_handle s)) as [-> | Hne].
    + rewrite lookup_singleton_eq.
      destruct (Hunborn (next_handle s)) as [_ ->]; [lia |].
      change [(next_handle s, EvStart m snapshot)]
        with ((fun e => (next_handle s, e)) <$> [EvStart m snapshot]).
      by rewrite emitted_by_own.
    + rewrite lookup_singleton_ne by done.
      change [(next_handle s, EvStart m snapshot)]
        with ((fun e => (next_handle s, e)) <$> [EvStart m snapshot]).
      rewrite emitted_by_other, app_nil_r by done.
      specialize (Hborn h). rewrite Hidle, lookup_empty in Hborn.
      apply Hborn. rewrite Hn in Hh. lia.
  - intros h Hh. rewrite Ht, Hl, emitted_by_app.
    rewrite lookup_singleton_ne by lia.
    change [(next_handle s, EvStart m snapshot)]
      with ((fun e => (next_handle s, e)) <$> [EvStart m snapshot]).
    rewrite emitted_by_other, app_nil_r by lia.
    split; [done |]. apply Hunborn. lia.
Qed.

Lemma history_mock_inv (snapshot : list FileWithMeta) (i : Z)
    (l : list emitted) :
  history (Some (MockLoop snapshot i)) l ->
  exists n, (n <= 10)%nat /\ i = 10 * Z.of_nat n
            /\ l = EvStart Mock snapshot :: (published snapshot <$> ticks n).
Proof. intros H. inversion H; subst. by exists n. Qed.

Lemma history_real_inv (snapshot : list FileWithMeta) (l : list emitted) :
  history (Some (XhrInFlight snapshot)) l ->
  exists vs, l = EvStart Real snapshot :: (published snapshot <$> vs).
Proof. intros H. inversion H; subst. by exists vs. Qed.

Lemma Inv_alive (s : State) (h : nat) (t : task) :
  Inv s -> tasks s !! h = Some t ->
  (h < next_handle s)%nat /\ history (Some t) (emitted_by h (log s)).
Proof.
  intros [_ Hborn Hunborn] Hl.
  destruct (decide (h < next_handle s)%nat) as [Hlt | Hge].
  - split; [done |]. rewrite <- Hl. by apply Hborn.
  - destruct (Hunborn h) as [Hnone _]; [lia | congruence].
Qed.

(** What a load does to the cells the invariant reads, whatever the branch. *)
Lemma onload_effect (h : nat) (status : Z) (responseText : string)
    (parsed : option jsval) (s : State) :
  let s' := onload numeric_positive h status responseText parsed s in
  exists o,
    log s' = log s ++ [(h, EvOutcome o)]
    /\ tasks s' = delete h (tasks s)
    /\ next_handle s' = next_handle s
    /\ abortController s' = None
    /\ isUploading s' = false
    /\ uploadProgress s' = uploadProgress s
    /\ (forall recs expl, o = Success recs expl ->
          status = 200 /\ recommendations s' = recs /\ explanation s' = expl)
    /\ o ≠ Aborted.
Proof.
  unfold onload, load_failed. cbv zeta.
  repeat case_match; simpl; eexists; do 6 (split; [reflexivity |]);
    (split; [| discriminate]);
    intros recs expl Heq; try discriminate;
    injection Heq as <- <-; repeat split; lia.
Qed.

Lemma Inv_finish_real (s s' : State) (h : nat) (snapshot : list FileWithMeta)
    (o : outcome) :
  Inv s -> tasks s !! h = Some (XhrInFlight snapshot) ->
  log s' = log s ++ [(h, EvOutcome o)] ->
  tasks s' = delete h (tasks s) ->
  next_handle s' = next_handle s ->
  abortController s' = None -> isUploading s' = false ->
  Inv s'.
Proof.
  intros HI Hl Hlog Ht Hn Hc Hu.
  destruct (Inv_alive s h _ HI Hl) as [Hh Hhist].
  destruct (shape_lookup s h _ (inv_shape _ _ HI) Hl) as (Hsingle & _ & _).
  apply history_real_inv in Hhist as [vs Hvs].
  apply (Inv_session s s' h None [EvOutcome o]); try done.
  - rewrite Hvs. simpl. apply history_real_done.
  - apply shape_idle; [| done | done].
    by rewrite Ht, Hsingle, delete_singleton_eq.
Qed.

Lemma Inv_onload h status responseText parsed snapshot (s : State) :
  Inv s -> tasks s !! h = Some (XhrInFlight snapshot) ->
  Inv (onload numeric_positive h status responseText parsed s).
Proof.
  intros HI Hl.
  destruct (onload_effect h status responseText parsed s)
    as (o & Hlog & Ht & Hn & Hc & Hu & _).
  by apply (Inv_finish_real s _ h snapshot o).
Qed.

Lemma Inv_onerror h snapshot (s : State) :
  Inv s -> tasks s !! h = Some (XhrInFlight snapshot) -> Inv (onerror h s).
Proof.
  intros HI Hl. by apply (Inv_finish_real s _ h snapshot NetworkError).
Qed.

Lemma Inv_onabort h snapshot (s : State) :
  Inv s -> tasks s !! h = Some (XhrInFlight snapshot) -> Inv (onabort h s).
Proof.
  intros HI Hl. by apply (Inv_finish_real s _ h snapshot Aborted).
Qed.

Lemma Inv_onprogress h snapshot lc loaded total (s : State) :
  Inv s -> tasks s !! h = Some (XhrInFlight snapshot) ->
  Inv (onprogress h snapshot lc loaded total s).
Proof.
  intros HI Hl. unfold onprogress. destruct lc; [| done].
  destruct (Inv_alive s h _ HI Hl) as [Hh Hhist].
  destruct (shape_lookup s h _ (inv_shape _ _ HI) Hl) as (Hsingle & Hu & Hc).
  apply history_real_inv in Hhist as [vs Hvs].
  eapply (Inv_session s _ h (Some (XhrInFlight snapshot))
            [published snapshot (round_percent loaded total)]); try done.
  - assert (E : tasks s = <[h := XhrInFlight snapshot]> (tasks s)).
    { by rewrite Hsingle, insert_singleton_eq. }
    exact E.
  - rewrite Hvs. simpl. rewrite published_snoc.
    apply history_real_running.
  - by apply (shape_real _ h snapshot).
Qed.

Lemma Inv_mock_tick h snapshot i (s : State) :
  Inv s -> tasks s !! h = Some (MockLoop snapshot i) ->
  Inv (mock_tick mockRecommendations h snapshot i s).
Proof.
  intros HI Hl.
  destruct (Inv_alive s h _ HI Hl) as [Hh Hhist].
  destruct (shape_lookup s h _ (inv_shape _ _ HI) Hl) as (Hsingle & Hu & Hc).
  apply history_mock_inv in Hhist as (n & Hn & -> & Hlog).
  unfold mock_tick. destruct (10 * Z.of_nat n + 10 <=? 100) eqn:Hmore.
  - apply (Inv_session s _ h (Some (MockLoop snapshot (10 * Z.of_nat n + 10)))
             [published snapshot (10 * Z.of_nat n)]); try done.
    + rewrite Hlog. simpl.
      replace (10 * Z.of_nat n + 10) with (10 * Z.of_nat (S n)) by lia.
      rewrite published_snoc, <- ticks_S. apply history_mock_running. lia.
    + apply (shape_mock _ h snapshot (10 * Z.of_nat n + 10)); try done.
      simpl. rewrite Hsingle. by rewrite insert_singleton_eq.
  - assert (n = 10%nat) as -> by lia.
    apply (Inv_session s _ h None
             [published snapshot 100; EvOutcome canned_success]);
      try done.
    + simpl. by rewrite <- app_assoc.
    + rewrite Hlog. simpl.
      pose proof (history_mock_done mockRecommendations snapshot) as Hdone.
      rewrite (ticks_S 10), <- published_snoc, <- app_assoc in Hdone.
      exact Hdone.
    + apply shape_idle; try done. simpl.
      by rewrite Hsingle, delete_singleton_eq.
Qed.

Lemma canUpload_true (s : State) :
  canUpload s = true -> files s ≠ [] /\ isUploading s = false.
Proof.
  unfold canUpload. intros [Hf Hu]%andb_true_iff. split.
  - intros E. rewrite E in Hf. done.
  - by destruct (isUploading s).
Qed.

Lemma Inv_handleUpload (s : State) :
  Inv s -> canUpload s = true -> Inv (handleUpload s).
Proof.
  intros HI [Hfiles Hu]%canUpload_true.
  destruct (shape_not_uploading s (inv_shape _ _ HI) Hu) as [Hidle Hc].
  unfold handleUpload.
  destruct (files s) as [|f0 rest] eqn:Hf; [done |]. simpl.
  destruct (mockMode s).
  - apply (Inv_start s _ Mock (f0 :: rest) (MockLoop (f0 :: rest) 0)); try done.
    + simpl. by rewrite Hidle, insert_empty.
    + apply (history_mock_running _ (f0 :: rest) 0). lia.
    + apply (shape_mock _ (next_handle s) (f0 :: rest) 0); try done.
      simpl. by rewrite Hidle, insert_empty.
  - apply (Inv_start s _ Real (f0 :: rest) (XhrInFlight (f0 :: rest))); try done.
    + simpl. by rewrite Hidle, insert_empty.
    + apply (history_real_running _ (f0 :: rest) []).
    + apply (shape_real _ (next_handle s) (f0 :: rest)); try done.
      simpl. by rewrite Hidle, insert_empty.
Qed.

Lemma Inv_handleCancelUpload (s : State) : Inv s -> Inv (handleCancelUpload s).
Proof.
  intros HI. unfold handleCancelUpload, controller_abort.
  destruct (abortController s) as [c|]; [| done].
  destruct (tasks s !! c) as [[|snapshot]|] eqn:Hl; try done.
  by apply (Inv_onabort c snapshot).
Qed.

(** Every event keeps the invariant. *)
Lemma Inv_step (s : State) (e : Event) : Inv s -> Inv (step s e).
Proof.
  intros HI. destruct e; simpl.
  - apply (Inv_frame s); try done.
    all: unfold handleFilesSelected; repeat case_match; done.
  - by apply (Inv_frame s).
  - by apply (Inv_frame s).
  - by apply (Inv_frame s).
  - by apply (Inv_frame s).
  - by apply (Inv_frame s).
  - destruct (canUpload s) eqn:Hcan; [| done]. by apply Inv_handleUpload.
  - by apply Inv_handleCancelUpload.
  - destruct (tasks s !! h) as [[snapshot i|]|] eqn:Hl; try done.
    by apply Inv_mock_tick.
  - destruct (tasks s !! h) as [[|snapshot]|] eqn:Hl; try done.
    by apply Inv_onprogress.
  - destruct (tasks s !! h) as [[|snapshot]|] eqn:Hl; try done.
    by apply (Inv_onload _ _ _ _ snapshot).
  - destruct (tasks s !! h) as [[|snapshot]|] eqn:Hl; try done.
    by apply (Inv_onerror _ snapshot).
Qed.

Lemma Inv_initial : Inv initial.
Proof.
  split.
  - by apply shape_idle.
  - intros h Hh. simpl in Hh. lia.
  - intros h _. split; [apply lookup_empty | done].
Qed.

Lemma Inv_run (tr : list Event) (s : State) : Inv s -> Inv (run s tr).
Proof.
  revert s. induction tr as [|e tr IH]; intros s HI; [done |].
  apply IH. by apply Inv_step.
Qed.

Lemma reachable_Inv (s : State) : reachable s -> Inv s.
Proof. intros [tr ->]. apply Inv_run, Inv_initial. Qed.

Lemma reachable_step (s : State) (e : Event) :
  reachable s -> reachable (step s e).
Proof.
  intros [tr ->]. exists (tr ++ [e]). unfold Page.run. by rewrite foldl_app.
Qed.

Lemma reachable_run (s : State) (tr : list Event) :
  reachable s -> reachable (run s tr).
Proof.
  intros [tr0 ->]. exists (tr0 ++ tr). unfold Page.run. by rewrite foldl_app.
Qed.

(** *** What one event delivers *)

Ltac unfold_step :=
  unfold handleCancelUpload, controller_abort, handleUpload, mock_tick,
    onprogress, onerror, onabort, onload, load_failed, handleFilesSelected,
    handleConfirmLargeFiles, handleCancelLargeFiles, handleRemoveFile;
  cbv zeta.

Ltac elem_cases H :=
  repeat (apply elem_of_cons in H as [H | H]);
  try discriminate H; try (by apply elem_of_nil in H).

Lemma log_step (s : State) (e : Event) :
  log (step s e) = log s ++ delivered s e.
Proof.
  unfold Vocabulary.delivered.
  assert (G : exists new, log (step s e) = log s ++ new).
  { destruct e; simpl; unfold_step; repeat case_match; simpl;
      first [ by (exists []; rewrite app_nil_r)
            | by eexists
            | by (eexists; rewrite <- app_assoc) ]. }
  destruct G as [new ->]. by rewrite drop_app_length.
Qed.

Lemma delivered_quiet (s : State) (e : Event) :
  log (step s e) = log s -> delivered s e = [].
Proof.
  intros E. unfold Vocabulary.delivered. rewrite E. apply drop_all.
Qed.

Lemma delivered_app (s : State) (e : Event) (new : list (nat * emitted)) :
  log (step s e) = log s ++ new -> delivered s e = new.
Proof.
  intros E. unfold Vocabulary.delivered. rewrite E. apply drop_app_length.
Qed.

(** The event that delivers an outcome leaves no session behind. *)
Lemma delivered_outcome_idle (s : State) (e : Event) (h : nat) (o : outcome) :
  (h, EvOutcome o) ∈ delivered s e -> isUploading (step s e) = false.
Proof.
  unfold Vocabulary.delivered.
  destruct e; simpl; unfold_step; repeat case_match; simpl;
    rewrite ?drop_all, <- ?app_assoc, ?drop_app_length;
    intros Hin; try done; elem_cases Hin.
Qed.

(** Only [xhr.onabort] delivers [Aborted], and it resets the progress. *)
Lemma delivered_aborted_resets (s : State) (e : Event) (h : nat) :
  (h, EvOutcome Aborted) ∈ delivered s e ->
  uploadProgress (step s e) = progress_zero.
Proof.
  unfold Vocabulary.delivered.
  destruct e; simpl; unfold_step; repeat case_match; simpl;
    rewrite ?drop_all, <- ?app_assoc, ?drop_app_length;
    intros Hin; try done; elem_cases Hin.
Qed.

(** *** Reading a history *)

Lemma no_outcome_published snapshot (vs : list Z) :
  Forall (fun e => is_outcome e = false) (published snapshot <$> vs).
Proof. apply Forall_fmap, Forall_forall. done. Qed.

Lemma filter_no_outcome (l : list emitted) :
  Forall (fun e => is_outcome e = false) l ->
  filter (fun e => is_outcome e = true) l = [].
Proof.
  induction 1 as [|e l He _ IH]; [done |].
  rewrite filter_cons, decide_False by congruence. done.
Qed.

Lemma outcome_is_last (l0 before after : list emitted) (o o' : outcome) :
  Forall (fun e => is_outcome e = false) l0 ->
  l0 ++ [EvOutcome o'] = before ++ EvOutcome o :: after ->
  after = [] /\ before = l0 /\ o = o'.
Proof.
  intros Hno. revert before.
  induction Hno as [|x l0 Hx _ IH]; intros before E.
  - destruct before as [|y before]; simpl in E.
    + by injection E as -> ->.
    + injection E as _ E. by destruct before.
  - destruct before as [|y before]; simpl in E.
    + injection E as -> _. done.
    + injection E as -> E. destruct (IH _ E) as (-> & -> & ->). done.
Qed.

Lemma no_outcome_inside (l0 before after : list emitted) (o : outcome) :
  Forall (fun e => is_outcome e = false) l0 ->
  l0 ≠ before ++ EvOutcome o :: after.
Proof.
  intros Hno ->. apply Forall_app in Hno as [_ Hno].
  apply Forall_cons in Hno as [Hno _]. done.
Qed.

(** A history holds at most one outcome, and holds it last. *)
Lemma history_outcomes (t : option task) (l : list emitted) :
  history t l ->
  (length (filter (fun e => is_outcome e = true) l) <= 1)%nat
  /\ (forall before o after, l = before ++ EvOutcome o :: after -> after = []).
Proof.
  assert (Hrun : forall m snapshot vs,
    Forall (fun e => is_outcome e = false)
           (EvStart m snapshot :: (published snapshot <$> vs))).
  { intros. apply Forall_cons. split; [done | apply no_outcome_published]. }
  assert (Hdone : forall m snapshot vs o,
    (length (filter (fun e => is_outcome e = true)
       (EvStart m snapshot :: (published snapshot <$> vs) ++ [EvOutcome o]))
     <= 1)%nat
    /\ (forall before o' after,
          EvStart m snapshot :: (published snapshot <$> vs) ++ [EvOutcome o]
          = before ++ EvOutcome o' :: after -> after = [])).
  { intros m snapshot vs o. split.
    - rewrite app_comm_cons, filter_app, filter_no_outcome by apply Hrun.
      simpl. done.
    - intros before o' after E. rewrite app_comm_cons in E.
      by destruct (outcome_is_last _ _ _ _ _ (Hrun m snapshot vs) E). }
  intros [snapshot n _ | snapshot vs | snapshot | snapshot vs o].
  - split.
    + rewrite filter_no_outcome by apply Hrun. simpl. lia.
    + intros before o after E. by destruct (no_outcome_inside _ _ _ _ (Hrun _ _ _) E).
  - split.
    + rewrite filter_no_outcome by apply Hrun. simpl. lia.
    + intros before o after E. by destruct (no_outcome_inside _ _ _ _ (Hrun _ _ _) E).
  - apply Hdone.
  - apply Hdone.
Qed.

Lemma Inv_history (s : State) (h : nat) :
  Inv s -> emitted_by h (log s) = [] \/ history (tasks s !! h) (emitted_by h (log s)).
Proof.
  intros [_ Hborn Hunborn].
  destruct (decide (h < next_handle s)%nat) as [Hlt | Hge].
  - right. by apply Hborn.
  - left. apply Hunborn. lia.
Qed.

(** *** Cancelling *)

Lemma cancel_noop_idle (s : State) :
  Inv s -> isUploading s = false -> handleCancelUpload s = s.
Proof.
  intros HI Hu.
  destruct (shape_not_uploading s (inv_shape _ _ HI) Hu) as [_ Hc].
  unfold handleCancelUpload. by rewrite Hc.
Qed.

Lemma cancel_noop_mock (s : State) (h : nat) snapshot (i : Z) :
  Inv s -> tasks s !! h = Some (MockLoop snapshot i) ->
  handleCancelUpload s = s.
Proof.
  intros HI Hl.
  destruct (shape_lookup s h _ (inv_shape _ _ HI) Hl) as (_ & _ & Hc).
  unfold handleCancelUpload. by rewrite Hc.
Qed.

(** *** The mock loop *)

Lemma count_ticks_cons (h : nat) (e : Event) (tr : list Event) :
  count_ticks h (e :: tr) =
  ((if is_tick h e then 1 else 0) + count_ticks h tr)%nat.
Proof.
  unfold count_ticks. rewrite filter_cons.
  destruct (is_tick h e); [by rewrite decide_True | by rewrite decide_False].
Qed.

Lemma count_ticks_replicate (h k : nat) :
  count_ticks h (replicate k (TimerFire h)) = k.
Proof.
  induction k as [|k IH]; [done |].
  simpl replicate. rewrite count_ticks_cons, IH. simpl. by rewrite Nat.eqb_refl.
Qed.

Lemma only_ticks_replicate (h k : nat) :
  forallb (fun e => is_cancel e || is_tick h e) (replicate k (TimerFire h)) = true.
Proof. induction k as [|k IH]; [done |]. simpl. by rewrite Nat.eqb_refl. Qed.

Lemma cancel_or_tick (h : nat) (e : Event) :
  is_cancel e || is_tick h e = true -> e = ClickCancel \/ e = TimerFire h.
Proof.
  destruct e; simpl; try done; [by left |].
  intros ->%Nat.eqb_eq. by right.
Qed.

(** Once the page is idle, cancelling changes nothing. *)
Lemma idle_ignores_cancels (h : nat) (tr : list Event) : forall s,
  Inv s -> isUploading s = false ->
  forallb (fun e => is_cancel e || is_tick h e) tr = true ->
  count_ticks h tr = 0%nat ->
  run s tr = s.
Proof.
  induction tr as [|e tr IH]; intros s HI Hu Hall Hcount; [done |].
  simpl in Hall. apply andb_true_iff in Hall as [He Hall].
  rewrite count_ticks_cons in Hcount.
  destruct (cancel_or_tick h e He) as [-> | ->].
  - simpl. rewrite (cancel_noop_idle s HI Hu). by apply IH.
  - simpl in Hcount. rewrite Nat.eqb_refl in Hcount. lia.
Qed.

(** A mock session suspended before its tick [n] runs its remaining ticks
    to the canned outcome, however many times cancel is clicked in
    between. *)
Lemma mock_runs_to_success (h : nat) snapshot (tr : list Event) :
  forall (s : State) (n : nat),
  Inv s -> tasks s !! h = Some (MockLoop snapshot (10 * Z.of_nat n)) ->
  (n <= 10)%nat ->
  forallb (fun e => is_cancel e || is_tick h e) tr = true ->
  count_ticks h tr = (11 - n)%nat ->
  let s' := run s tr in
  tasks s' !! h = None
  /\ emitted_by h (log s') =
       EvStart Mock snapshot :: (published snapshot <$> ticks 11)
         ++ [EvOutcome canned_success]
  /\ recommendations s' = get_opt mockRecommendations "recommendations"
  /\ explanation s' =
       js_or (get_opt mockRecommendations "explanation") (VStr "")
  /\ isUploading s' = false
  /\ uploadProgress s' = progress_at snapshot 100.
Proof.
  induction tr as [|e tr IH]; intros s n HI Hl Hn Hall Hcount.
  - unfold count_ticks in Hcount. simpl in Hcount. lia.
  - simpl in Hall. apply andb_true_iff in Hall as [He Hall].
    rewrite count_ticks_cons in Hcount.
    destruct (cancel_or_tick h e He) as [-> | ->].
    + simpl in Hcount. cbn [Page.run foldl]. simpl Page.step.
      rewrite (cancel_noop_mock s h _ _ HI Hl).
      by apply (IH s n).
    + simpl in Hcount. rewrite Nat.eqb_refl in Hcount.
      cbn [Page.run foldl]. simpl Page.step. rewrite Hl.
      pose proof (Inv_mock_tick h _ _ s HI Hl) as HI'.
      destruct (Inv_alive s h _ HI Hl) as [Hh Hhist].
      apply history_mock_inv in Hhist as (n' & _ & Hn' & Hlog).
      assert (n' = n) as -> by lia. clear Hn'.
      destruct (shape_lookup s h _ (inv_shape _ _ HI) Hl) as (Hsingle & _ & _).
      revert HI'. unfold mock_tick.
      destruct (10 * Z.of_nat n + 10 <=? 100) eqn:Hmore; intros HI'.
      * apply Z.leb_le in Hmore.
        replace (10 * Z.of_nat n + 10) with (10 * Z.of_nat (S n)) in * by lia.
        apply (IH _ (S n)); try done; try lia.
        simpl. apply lookup_insert_eq.
      * apply Z.leb_gt in Hmore. assert (n = 10%nat) as -> by lia.
        match goal with |- context [foldl _ ?s1 tr] => set (s1' := s1) in * end.
        assert (Hidle : run s1' tr = s1').
        { apply (idle_ignores_cancels h); try done. lia. }
        unfold Page.run in Hidle. rewrite Hidle. subst s1'. simpl.
        rewrite lookup_delete_eq. repeat split; try done.
        rewrite <- app_assoc, emitted_by_app, Hlog.
        simpl app. rewrite !emitted_by_cons_own. reflexivity.
Qed.

(** What a click on the upload button starts in mock mode. *)
Lemma mock_click (s : State) :
  Inv s -> mockMode s = true -> canUpload s = true ->
  let s1 := step s ClickUpload in
  tasks s1 !! next_handle s = Some (MockLoop (files s) (10 * Z.of_nat 0))
  /\ abortController s1 = None
  /\ uploadProgress s1 = progress_zero
  /\ files s ≠ [].
Proof.
  intros HI Hmock Hcan. simpl. rewrite Hcan.
  destruct (canUpload_true s Hcan) as [Hfiles Hu].
  destruct (shape_not_uploading s (inv_shape _ _ HI) Hu) as [_ Hc].
  unfold handleUpload. destruct (files s) as [|f0 rest] eqn:Hf; [done |].
  simpl. rewrite Hmock. simpl. rewrite lookup_insert_eq. done.
Qed.

(** The cells of the page right after that click. *)
Lemma mock_click_cells (s : State) :
  mockMode s = true -> canUpload s = true ->
  let s1 := step s ClickUpload in
  isUploading s1 = true /\ recommendations s1 = VArr []
  /\ explanation s1 = VStr "" /\ error s1 = VStr "".
Proof.
  intros Hmock Hcan. simpl. rewrite Hcan.
  destruct (canUpload_true s Hcan) as [Hfiles Hu].
  unfold handleUpload. destruct (files s) as [|f0 rest] eqn:Hf; [done |].
  simpl. rewrite Hmock. done.
Qed.

(** Each timer of a mock loop writes its tick into the progress cell: after
    [k + 1] timers of a loop suspended before iteration [n] the cell holds
    the tick [10 * (n + k)], and the upload is still running, with the same
    results, until the last one. *)
Lemma mock_timers_shown (h : nat) snapshot (k : nat) :
  forall (s : State) (n : nat),
  tasks s !! h = Some (MockLoop snapshot (10 * Z.of_nat n)) ->
  (n + k <= 10)%nat ->
  let s' := run s (replicate (S k) (TimerFire h)) in
  uploadProgress s' = progress_at snapshot (10 * Z.of_nat (n + k))
  /\ ((n + k < 10)%nat ->
      tasks s' !! h = Some (MockLoop snapshot (10 * Z.of_nat (S (n + k))))
      /\ isUploading s' = isUploading s
      /\ recommendations s' = recommendations s
      /\ explanation s' = explanation s
      /\ error s' = error s).
Proof.
  induction k as [|k IH]; intros s n Hl Hn.
  - cbn [replicate Page.run foldl]. simpl Page.step. rewrite Hl.
    unfold mock_tick. rewrite Nat.add_0_r.
    destruct (10 * Z.of_nat n + 10 <=? 100) eqn:Hmore.
    + split; [done |]. intros _. simpl. rewrite lookup_insert_eq.
      replace (10 * Z.of_nat n + 10) with (10 * Z.of_nat (S n)) by lia. done.
    + apply Z.leb_gt in Hmore. split; [done |]. lia.
  - change (replicate (S (S k)) (TimerFire h))
      with (TimerFire h :: replicate (S k) (TimerFire h)).
    cbn [Page.run foldl]. simpl Page.step. rewrite Hl.
    unfold mock_tick.
    destruct (10 * Z.of_nat n + 10 <=? 100) eqn:Hmore;
      [| apply Z.leb_gt in Hmore; lia].
    match goal with |- context [foldl _ ?s1 _] => set (s1' := s1) in * end.
    destruct (IH s1' (S n)) as [Hp Hrest].
    + subst s1'. simpl. rewrite lookup_insert_eq.
      replace (10 * Z.of_nat n + 10) with (10 * Z.of_nat (S n)) by lia. done.
    + lia.
    + replace (n + S k)%nat with (S n + k)%nat by lia.
      split; [exact Hp |]. intros Hlt. destruct (Hrest Hlt) as (? & ? & ? & ? & ?).
      done.
Qed.

(** While a mock loop is suspended, the progress cell holds the last tick
    it emitted. *)
Lemma shows_last_tick_step (s : State) (e : Event) :
  Inv s -> shows_last_tick s -> shows_last_tick (step s e).
Proof.
  intros HI Hs.
  assert (Hreal : forall h snapshot s',
            tasks s !! h = Some (XhrInFlight snapshot) ->
            tasks s' = tasks s \/ tasks s' = delete h (tasks s) ->
            shows_last_tick s').
  { intros h snapshot s' Hl Ht h' snapshot' i' Hl'.
    destruct (shape_lookup s h _ (inv_shape _ _ HI) Hl) as (Hsingle & _ & _).
    destruct Ht as [Ht | Ht]; rewrite Ht, Hsingle in Hl'.
    - apply lookup_singleton_Some in Hl' as [_ ?]. done.
    - by rewrite delete_singleton_eq, lookup_empty in Hl'. }
  assert (Hframe : forall s', tasks s' = tasks s ->
            uploadProgress s' = uploadProgress s -> shows_last_tick s').
  { intros s' Ht Hp h' snapshot' i' Hl'. rewrite Hp. apply (Hs h').
    by rewrite <- Ht. }
  destruct e; simpl.
  - apply Hframe; unfold handleFilesSelected; by repeat case_match.
  - by apply Hframe.
  - by apply Hframe.
  - by apply Hframe.
  - by apply Hframe.
  - by apply Hframe.
  - destruct (canUpload s) eqn:Hcan; [| done].
    destruct (canUpload_true s Hcan) as [Hfiles Hu].
    destruct (shape_not_uploading s (inv_shape _ _ HI) Hu) as [Hidle _].
    unfold handleUpload. destruct (files s) as [|f0 rest] eqn:Hf; [done |].
    simpl. intros h' snapshot' i'.
    destruct (mockMode s); simpl; rewrite Hidle, insert_empty;
      intros [_ E]%lookup_singleton_Some; [| done].
    by inversion E.
  - unfold handleCancelUpload, controller_abort.
    destruct (abortController s) as [c|]; [| done].
    destruct (tasks s !! c) as [[|snapshot]|] eqn:Hl; try done.
    apply (Hreal c snapshot); [done |]. by right.
  - destruct (tasks s !! h) as [[snapshot i|]|] eqn:Hl; try done.
    destruct (shape_lookup s h _ (inv_shape _ _ HI) Hl) as (Hsingle & _ & _).
    unfold mock_tick. intros h' snapshot' i'.
    destruct (i + 10 <=? 100) eqn:Hmore; simpl; rewrite Hsingle.
    + rewrite insert_singleton_eq. intros [_ E]%lookup_singleton_Some.
      inversion E; subst. unfold last_shown.
      destruct (Inv_alive s h _ HI Hl) as [_ Hhist].
      apply history_mock_inv in Hhist as (n & _ & -> & _).
      replace (10 * Z.of_nat n + 10 =? 0) with false by (symmetry; apply Z.eqb_neq; lia).
      unfold progress_at. do 2 f_equal; lia.
    + by rewrite delete_singleton_eq, lookup_empty.
  - destruct (tasks s !! h) as [[|snapshot]|] eqn:Hl; try done.
    apply (Hreal h snapshot); [done |]. left.
    unfold onprogress. by destruct lengthComputable.
  - destruct (tasks s !! h) as [[|snapshot]|] eqn:Hl; try done.
    apply (Hreal h snapshot); [done |]. right.
    unfold onload, load_failed. by repeat case_match.
  - destruct (tasks s !! h) as [[|snapshot]|] eqn:Hl; try done.
    apply (Hreal h snapshot); [done |]. by right.
Qed.

Lemma reachable_shows_last_tick (s : State) : reachable s -> shows_last_tick s.
Proof.
  intros [tr ->]. induction tr as [|e tr IH] using rev_ind.
  - intros h snapshot i Hl. simpl in Hl. by rewrite lookup_empty in Hl.
  - unfold Page.run. rewrite foldl_app. cbn [foldl].
    apply shows_last_tick_step; [| exact IH].
    apply reachable_Inv. by exists tr.
Qed.

(** *** The order of the percentages *)

Lemma sorted_snoc (l : list Z) (v : Z) :
  StronglySorted Z.le l -> Forall (fun x => x <= v) l ->
  StronglySorted Z.le (l ++ [v]).
Proof.
  intros Hs Hall. apply StronglySorted_app_2; [| done | repeat constructor].
  intros x1 x2 H1 ->%list_elem_of_singleton.
  by apply (proj1 (Forall_forall _ _) Hall).
Qed.

Lemma shown_snoc snapshot (vs : list Z) (v : Z) :
  shown snapshot (vs ++ [v]) = progress_at snapshot v.
Proof. unfold shown. by rewrite last_snoc. Qed.

Lemma Ordered_initial : Ordered ∅ initial.
Proof.
  split.
  - intros h. repeat split; simpl; try constructor.
  - intros h t Hl. simpl in Hl. by rewrite lookup_empty in Hl.
Qed.

Lemma Ordered_frame last (s s' : State) :
  tasks s' = tasks s -> log s' = log s -> uploadProgress s' = uploadProgress s ->
  Ordered last s -> Ordered last s'.
Proof.
  intros Ht Hl Hp [Hord Htr]. split.
  - intros h. unfold ordered. rewrite Ht, Hl. apply Hord.
  - intros h t. rewrite Ht, Hl, Hp. apply Htr.
Qed.

(** Counters of a request that is not in flight bound nothing. *)
Lemma Ordered_retrack last last' (s : State) :
  (forall h snapshot, tasks s !! h = Some (XhrInFlight snapshot) ->
     last' !! h = last !! h) ->
  Ordered last s -> Ordered last' s.
Proof.
  intros Hsame [Hord Htr]. split; [| done].
  intros h. destruct (Hord h) as (Hs & Hx & Hm). repeat split; try done.
  intros snapshot Hl. specialize (Hx snapshot Hl).
  eapply Forall_impl; [exact Hx |].
  intros v (l0 & t0 & Hlast & Hpos & Hle). exists l0, t0.
  by rewrite (Hsame h snapshot Hl).
Qed.

(** The suspended session emits [new] and is then suspended on [t'], or
    finished. *)
Lemma Ordered_session last last' (s s' : State) (h : nat) (t : task)
    (t' : option task) (new : list emitted) :
  Inv s -> tasks s !! h = Some t -> Ordered last s ->
  log s' = log s ++ ((fun e => (h, e)) <$> new) ->
  tasks s' = partial_alter (fun _ => t') h (tasks s) ->
  StronglySorted Z.le (overalls (emitted_by h (log s)) ++ overalls new) ->
  (forall snapshot, t' = Some (XhrInFlight snapshot) ->
     Forall (below_counters last' h)
            (overalls (emitted_by h (log s)) ++ overalls new)) ->
  (forall snapshot i, t' = Some (MockLoop snapshot i) ->
     Forall (fun v => v < i) (overalls (emitted_by h (log s)) ++ overalls new)) ->
  (forall t'', t' = Some t'' ->
     uploadProgress s' =
     shown (snapshot_of t'') (overalls (emitted_by h (log s)) ++ overalls new)) ->
  Ordered last' s'.
Proof.
  intros HI Hl [Hord Htr] Hlog Ht Hsorted Hx Hm Hshown.
  destruct (shape_lookup s h _ (inv_shape _ _ HI) Hl) as (Hsingle & _ & _).
  assert (Hother : forall h', h' ≠ h ->
    tasks s' !! h' = None
    /\ emitted_by h' (log s') = emitted_by h' (log s)).
  { intros h' Hne. split.
    - rewrite Ht, lookup_partial_alter, decide_False by done.
      rewrite Hsingle. by apply lookup_singleton_ne.
    - by rewrite Hlog, emitted_by_app, emitted_by_other, app_nil_r. }
  assert (Hown : tasks s' !! h = t'
    /\ overalls (emitted_by h (log s'))
       = overalls (emitted_by h (log s)) ++ overalls new).
  { split.
    - by rewrite Ht, lookup_partial_alter, decide_True.
    - by rewrite Hlog, emitted_by_app, emitted_by_own, overalls_app. }
  split.
  - intros h'. destruct (decide (h' = h)) as [-> | Hne].
    + destruct Hown as [Hown1 Hown2]. unfold ordered.
      rewrite Hown1, Hown2. repeat split; [done | apply Hx | apply Hm].
    + destruct (Hother h' Hne) as [Hnone Hsame]. unfold ordered.
      rewrite Hnone, Hsame. repeat split; [apply Hord | done | done].
  - intros h' t''. destruct (decide (h' = h)) as [-> | Hne].
    + destruct Hown as [Hown1 Hown2]. rewrite Hown1, Hown2. apply Hshown.
    + destruct (Hother h' Hne) as [Hnone _]. by rewrite Hnone.
Qed.

Lemma Ordered_handleUpload last (s : State) :
  Inv s -> canUpload s = true -> Ordered last s ->
  Ordered last (handleUpload s).
Proof.
  intros HI Hcan [Hord Htr].
  destruct (canUpload_true s Hcan) as [Hfiles Hu].
  destruct (shape_not_uploading s (inv_shape _ _ HI) Hu) as [Hidle Hc].
  destruct (inv_unborn _ _ HI (next_handle s)) as [_ Hfresh]; [lia |].
  unfold handleUpload. destruct (files s) as [|f0 rest] eqn:Hf; [done |].
  simpl.
  assert (G : forall s' t m,
    tasks s' = <[next_handle s := t]> (tasks s) ->
    log s' = log s ++ [(next_handle s, EvStart m (f0 :: rest))] ->
    uploadProgress s' = progress_zero ->
    Ordered last s').
  { intros s' t m Ht Hl Hp.
    assert (Hlog : forall h,
      overalls (emitted_by h (log s')) = overalls (emitted_by h (log s))).
    { intros h. rewrite Hl, emitted_by_app, overalls_app.
      destruct (decide (h = next_handle s)) as [-> | Hne].
      - rewrite emitted_by_cons_own. simpl. by rewrite app_nil_r.
      - change [(next_handle s, EvStart m (f0 :: rest))]
          with ((fun e => (next_handle s, e)) <$> [EvStart m (f0 :: rest)]).
        rewrite emitted_by_other by done. simpl. by rewrite app_nil_r. }
    split.
    - intros h. unfold ordered. rewrite Hlog.
      destruct (decide (h = next_handle s)) as [-> | Hne].
      + rewrite Hfresh. simpl. repeat split; constructor.
      + rewrite Ht, lookup_insert_ne, Hidle, lookup_empty by done.
        repeat split; [apply Hord | done | done].
    - intros h t'. rewrite Ht, Hlog, Hidle, insert_empty.
      intros [<- <-]%lookup_singleton_Some.
      rewrite Hfresh, Hp. done. }
  destruct (mockMode s).
  - by apply (G _ (MockLoop (f0 :: rest) 0) Mock).
  - by apply (G _ (XhrInFlight (f0 :: rest)) Real).
Qed.

Lemma Ordered_finish last last' (s s' : State) (h : nat) (t : task)
    (o : outcome) :
  Inv s -> tasks s !! h = Some t -> Ordered last s ->
  log s' = log s ++ [(h, EvOutcome o)] ->
  tasks s' = delete h (tasks s) ->
  Ordered last' s'.
Proof.
  intros HI Hl HO Hlog Ht.
  apply (Ordered_session last last' s s' h t None [EvOutcome o]);
    try done.
  simpl. rewrite app_nil_r. apply HO.
Qed.

Lemma Ordered_mock_tick last (s : State) (h : nat) snapshot (i : Z) :
  Inv s -> tasks s !! h = Some (MockLoop snapshot i) -> Ordered last s ->
  Ordered last (mock_tick mockRecommendations h snapshot i s).
Proof.
  intros HI Hl HO.
  destruct (HO) as [Hord Htr]. destruct (Hord h) as (Hs & _ & Hm).
  specialize (Hm _ _ Hl).
  assert (Hsorted : StronglySorted Z.le (overalls (emitted_by h (log s)) ++ [i])).
  { apply sorted_snoc; [done |]. eapply Forall_impl; [exact Hm |].
    simpl. intros. lia. }
  unfold mock_tick. destruct (i + 10 <=? 100).
  - apply (Ordered_session last last s _ h (MockLoop snapshot i)
             (Some (MockLoop snapshot (i + 10))) [published snapshot i]);
      try done; simpl.
    + intros snapshot' i' [= <- <-]. apply Forall_app. split.
      * eapply Forall_impl; [exact Hm |]. simpl. intros. lia.
      * repeat constructor. lia.
    + intros t'' [= <-]. simpl. by rewrite shown_snoc.
  - apply (Ordered_session last last s _ h (MockLoop snapshot i) None
             [published snapshot i; EvOutcome canned_success]);
      try done; simpl.
    by rewrite <- app_assoc.
Qed.

Lemma Ordered_onprogress last (s : State) (h : nat) snapshot
    (lc : bool) (loaded total : Z) :
  Inv s -> tasks s !! h = Some (XhrInFlight snapshot) -> Ordered last s ->
  counter_ok last (XhrProgress h lc loaded total) = true ->
  Ordered (track last (XhrProgress h lc loaded total))
          (onprogress h snapshot lc loaded total s).
Proof.
  intros HI Hl HO Hok. unfold onprogress. destruct lc; [| done].
  cbn [counter_ok] in Hok. apply andb_true_iff in Hok as [Hpos Hprev].
  apply andb_true_iff in Hpos as [_ Hpos]. apply Z.ltb_lt in Hpos.
  destruct (HO) as [Hord Htr]. destruct (Hord h) as (Hs & Hx & _).
  specialize (Hx _ Hl).
  assert (Hle : Forall (fun v => v <= round_percent loaded total)
                       (overalls (emitted_by h (log s)))).
  { eapply Forall_impl; [exact Hx |].
    intros v (l0 & t0 & Hlast & Hpos0 & Hv). rewrite Hlast in Hprev.
    apply andb_true_iff in Hprev as [Ht Hl0].
    apply Z.eqb_eq in Ht as ->. apply Z.leb_le in Hl0.
    etrans; [exact Hv |]. by apply round_percent_mono. }
  apply (Ordered_session last _ s _ h (XhrInFlight snapshot)
           (Some (XhrInFlight snapshot))
           [published snapshot (round_percent loaded total)]);
    try done; simpl.
  - assert (E : tasks s = <[h := XhrInFlight snapshot]> (tasks s)).
    { destruct (shape_lookup s h _ (inv_shape _ _ HI) Hl) as (-> & _).
      by rewrite insert_singleton_eq. }
    exact E.
  - by apply sorted_snoc.
  - intros snapshot' _. apply Forall_app. split.
    + eapply Forall_impl; [exact Hle |]. intros v Hv.
      exists loaded, total. by rewrite lookup_insert_eq.
    + repeat constructor. exists loaded, total.
      by rewrite lookup_insert_eq.
  - intros t'' [= <-]. simpl. by rewrite shown_snoc.
Qed.

(** Every event keeps the percentages in order, as long as the byte
    counters it carries are in order. *)
Lemma Ordered_step last (s : State) (e : Event) :
  Inv s -> Ordered last s -> counter_ok last e = true ->
  Ordered (track last e) (step s e).
Proof.
  intros HI HO Hok. destruct e.
  - apply (Ordered_frame last s); try done.
    all: simpl; unfold handleFilesSelected; repeat case_match; done.
  - by apply (Ordered_frame last s).
  - by apply (Ordered_frame last s).
  - by apply (Ordered_frame last s).
  - by apply (Ordered_frame last s).
  - by apply (Ordered_frame last s).
  - simpl. destruct (canUpload s) eqn:Hcan; [| done].
    by apply Ordered_handleUpload.
  - simpl. unfold handleCancelUpload, controller_abort.
    destruct (abortController s) as [c|]; [| done].
    destruct (tasks s !! c) as [[|snapshot]|] eqn:Hl; try done.
    by apply (Ordered_finish last last s _ c (XhrInFlight snapshot) Aborted).
  - simpl. destruct (tasks s !! h) as [[snapshot i|]|] eqn:Hl; try done.
    by apply Ordered_mock_tick.
  - destruct (tasks s !! h) as [[|snapshot]|] eqn:Hl.
    + simpl Page.step. rewrite Hl. apply (Ordered_retrack last); [| done].
      intros h' snapshot' Hl'. destruct lengthComputable; [| done].
      simpl. rewrite lookup_insert_ne; [done |]. congruence.
    + simpl Page.step. rewrite Hl. by apply Ordered_onprogress.
    + simpl Page.step. rewrite Hl. apply (Ordered_retrack last); [| done].
      intros h' snapshot' Hl'. destruct lengthComputable; [| done].
      simpl. rewrite lookup_insert_ne; [done |]. congruence.
  - simpl. destruct (tasks s !! h) as [[|snapshot]|] eqn:Hl; try done.
    destruct (onload_effect h status responseText parsed s)
      as (o & Hlog & Ht & _).
    by apply (Ordered_finish last last s _ h (XhrInFlight snapshot) o).
  - simpl. destruct (tasks s !! h) as [[|snapshot]|] eqn:Hl; try done.
    by apply (Ordered_finish last last s _ h (XhrInFlight snapshot) NetworkError).
Qed.

Lemma Ordered_run (tr : list Event) : forall last (s : State),
  Inv s -> Ordered last s -> counters_ok last tr = true ->
  exists last', Ordered last' (run s tr).
Proof.
  induction tr as [|e tr IH]; intros last s HI HO Hok.
  - by exists last.
  - simpl in Hok. apply andb_true_iff in Hok as [He Hok].
    apply (IH (track last e)); [by apply Inv_step | by apply Ordered_step | done].
Qed.

(** *** What a history says about progress and success *)

Lemma history_progress (t : option task) (l : list emitted) (p : UploadProgress) :
  history t l -> EvProgress p ∈ l ->
  exists m snapshot v,
    head l = Some (EvStart m snapshot) /\ p = progress_at snapshot v.
Proof.
  assert (G : forall snapshot (vs : list Z),
    EvProgress p ∈ published snapshot <$> vs ->
    exists v, p = progress_at snapshot v).
  { intros snapshot vs (v & [= ->] & _)%list_elem_of_fmap. by exists v. }
  intros [snapshot n _ | snapshot vs | snapshot | snapshot vs o] Hin.
  - apply elem_of_cons in Hin as [[=] | Hin].
    destruct (G _ _ Hin) as [v ->]. by exists Mock, snapshot, v.
  - apply elem_of_cons in Hin as [[=] | Hin].
    destruct (G _ _ Hin) as [v ->]. by exists Real, snapshot, v.
  - apply elem_of_cons in Hin as [[=] | Hin].
    apply elem_of_app in Hin as [Hin | [=]%list_elem_of_singleton].
    destruct (G _ _ Hin) as [v ->]. by exists Mock, snapshot, v.
  - apply elem_of_cons in Hin as [[=] | Hin].
    apply elem_of_app in Hin as [Hin | [=]%list_elem_of_singleton].
    destruct (G _ _ Hin) as [v ->]. by exists Real, snapshot, v.
Qed.

(** Where the progress cell stands when an event delivers [Success]. *)
Lemma delivered_success (s : State) (e : Event) (h : nat) (recs expl : jsval) :
  Inv s -> tracks s ->
  (h, EvOutcome (Success recs expl)) ∈ delivered s e ->
  (exists snapshot,
     head (emitted_by h (log s)) = Some (EvStart Mock snapshot)
     /\ uploadProgress (step s e) = progress_at snapshot 100)
  \/ (exists snapshot,
        head (emitted_by h (log s)) = Some (EvStart Real snapshot)
        /\ uploadProgress (step s e)
           = shown snapshot (overalls (emitted_by h (log s)))).
Proof.
  intros HI Htr. unfold Vocabulary.delivered. destruct e.
  1-8: simpl; unfold_step; repeat case_match; simpl;
       rewrite ?drop_all, <- ?app_assoc, ?drop_app_length;
       intros Hin; try done; elem_cases Hin.
  - simpl. destruct (tasks s !! h0) as [[snapshot i|]|] eqn:Hl;
      rewrite ?drop_all; try (by intros ?%elem_of_nil).
    destruct (Inv_alive s h0 _ HI Hl) as [_ Hhist].
    apply history_mock_inv in Hhist as (n & Hn & -> & Hlog).
    unfold mock_tick. destruct (10 * Z.of_nat n + 10 <=? 100) eqn:Hmore; simpl;
      rewrite <- ?app_assoc, drop_app_length; intros Hin; elem_cases Hin.
    injection Hin as -> _ _. left. exists snapshot. rewrite Hlog. split; [done |].
    apply Z.leb_gt in Hmore. by replace (10 * Z.of_nat n) with 100 by lia.
  - simpl. destruct (tasks s !! h0) as [[|snapshot]|] eqn:Hl;
      rewrite ?drop_all; try (by intros ?%elem_of_nil).
    unfold onprogress. destruct lengthComputable; simpl;
      rewrite ?drop_all, ?drop_app_length; intros Hin; elem_cases Hin.
  - simpl. destruct (tasks s !! h0) as [[|snapshot]|] eqn:Hl;
      rewrite ?drop_all; try (by intros ?%elem_of_nil).
    destruct (onload_effect h0 status responseText parsed s)
      as (o & -> & _ & _ & _ & _ & Hp & _).
    rewrite drop_app_length. intros Hin; elem_cases Hin.
    injection Hin as -> _. right. exists snapshot.
    destruct (Inv_alive s h0 _ HI Hl) as [_ Hhist].
    apply history_real_inv in Hhist as (vs & Hlog).
    split; [by rewrite Hlog |]. rewrite Hp. apply (Htr h0 _ Hl).
  - simpl. destruct (tasks s !! h0) as [[|snapshot]|] eqn:Hl;
      rewrite ?drop_all; try (by intros ?%elem_of_nil).
    unfold onerror. simpl. rewrite drop_app_length.
    intros Hin; elem_cases Hin.
Qed.

(** *** The properties of the transport engine *)

(** C3.  Whatever the user and the browser do, a session delivers at most
    one outcome, nothing of the session follows its outcome, and a call of
    [handleCancelUpload] right after an event that delivered an outcome (or
    at any time no upload is running) returns the state it was given: no
    cell changes, nothing is emitted, nothing is raised. *)
Theorem one_terminal_outcome (tr : list Event) :
  let s := run initial tr in
  (forall h, (length (outcomes_of h (log s)) <= 1)%nat)
  /\ (forall h before o after,
        emitted_by h (log s) = before ++ EvOutcome o :: after -> after = [])
  /\ (forall e h o, (h, EvOutcome o) ∈ delivered s e ->
        handleCancelUpload (step s e) = step s e)
  /\ (isUploading s = false -> handleCancelUpload s = s).
Proof.
  intros s. assert (HI : Inv s) by apply Inv_run, Inv_initial.
  repeat split.
  - intros h. unfold outcomes_of.
    destruct (Inv_history s h HI) as [-> | Hhist]; [simpl; lia |].
    by apply (history_outcomes _ _ Hhist).
  - intros h before o after E.
    destruct (Inv_history s h HI) as [Hnil | Hhist].
    + rewrite Hnil in E. by destruct before.
    + by apply (proj2 (history_outcomes _ _ Hhist) before o).
  - intros e h o Hin. apply cancel_noop_idle; [by apply Inv_step |].
    by apply (delivered_outcome_idle s e h o).
  - by apply cancel_noop_idle.
Qed.

(** C5.  A mock upload started from a reachable page with a file staged:
    the click resets the progress to [{ overall: 0, perFile: {} }] and
    creates no abort handle; the eleven timers that follow make the session
    emit the ticks 0, 10, ..., 100 in this order, each with every staged
    file at the overall percentage, and then the canned envelope as its
    [Success], which the page adopts.  Each tick is written into the
    progress cell of the page when it is emitted: after the timer number
    [k + 1] the cell holds the tick [10 * k], and until the last one the
    upload is still shown as running, with no results and no abort handle.
    In every reachable state a mock session has emitted a prefix of exactly
    that sequence, and while its loop is suspended the cell holds the last
    tick of that prefix. *)
Theorem mock_upload_ticks (s : State) :
  reachable s -> mockMode s = true -> canUpload s = true ->
  let h := next_handle s in
  let s' := run (step s ClickUpload) (replicate 11 (TimerFire h)) in
  emitted_by h (log s') =
    EvStart Mock (files s)
    :: (published (files s) <$> [0; 10; 20; 30; 40; 50; 60; 70; 80; 90; 100])
    ++ [EvOutcome canned_success]
  /\ (forall v, uniform (files s) (progress_at (files s) v))
  /\ files s ≠ []
  /\ uploadProgress (step s ClickUpload) = progress_zero
  /\ recommendations s' = get_opt mockRecommendations "recommendations"
  /\ explanation s' = js_or (get_opt mockRecommendations "explanation") (VStr "")
  /\ isUploading s' = false
  /\ uploadProgress s' = progress_at (files s) 100
  /\ (forall h' snapshot rest,
        emitted_by h' (log s) = EvStart Mock snapshot :: rest ->
        (exists n, (n <= 10)%nat /\ rest = published snapshot <$> ticks n)
        \/ rest = (published snapshot <$> ticks 11) ++ [EvOutcome canned_success])
  /\ abortController (step s ClickUpload) = None
  /\ (forall k, (k <= 10)%nat ->
        let sk := run (step s ClickUpload) (replicate (S k) (TimerFire h)) in
        uploadProgress sk = progress_at (files s) (10 * Z.of_nat k)
        /\ ((k < 10)%nat ->
            isUploading sk = true
            /\ recommendations sk = VArr []
            /\ abortController sk = None
            /\ tasks sk = {[ h := MockLoop (files s) (10 * Z.of_nat (S k)) ]}
            /\ emitted_by h (log sk) =
                 EvStart Mock (files s)
                 :: (published (files s) <$> ticks (S k))))
  /\ (forall h' snapshot i,
        tasks s !! h' = Some (MockLoop snapshot i) ->
        uploadProgress s = last_shown snapshot i
        /\ exists n, (n <= 10)%nat /\ i = 10 * Z.of_nat n
             /\ emitted_by h' (log s) =
                  EvStart Mock snapshot :: (published snapshot <$> ticks n)).
Proof.
  intros Hreach Hmock Hcan h s'.
  pose proof (reachable_Inv s Hreach) as HI.
  destruct (mock_click s HI Hmock Hcan) as (Hl & Hc & Hp & Hfiles).
  destruct (mock_click_cells s Hmock Hcan) as (Hu1 & Hr1 & _ & _).
  destruct (mock_runs_to_success h (files s) (replicate 11 (TimerFire h))
              (step s ClickUpload) 0)
    as (_ & Hlog & Hrecs & Hexpl & Hu & Hprog); try done.
  - by apply Inv_step.
  - lia.
  - apply only_ticks_replicate.
  - apply count_ticks_replicate.
  - repeat split; try done.
    + apply progress_at_uniform.
    + apply progress_at_uniform.
    + intros h' snapshot rest E.
      destruct (Inv_history s h' HI) as [Hnil | Hhist]; [congruence |].
      rewrite E in Hhist. inversion Hhist; subst.
      * left. by exists n.
      * by right.
    + destruct (mock_timers_shown h (files s) k (step s ClickUpload) 0%nat)
        as [Hshown _]; [done | lia |]. exact Hshown.
    + destruct (mock_timers_shown h (files s) k (step s ClickUpload) 0%nat)
        as [_ Hrest]; [done | lia |].
      destruct Hrest as (Ht & Hu' & Hr' & _ & _); [lia |]. congruence.
    + destruct (mock_timers_shown h (files s) k (step s ClickUpload) 0%nat)
        as [_ Hrest]; [done | lia |].
      destruct Hrest as (Ht & Hu' & Hr' & _ & _); [lia |]. congruence.
    + destruct (mock_timers_shown h (files s) k (step s ClickUpload) 0%nat)
        as [_ Hrest]; [done | lia |].
      destruct Hrest as (Ht & _); [lia |]. cbv zeta in Ht.
      assert (HIk : Inv (run (step s ClickUpload) (replicate (S k) (TimerFire h)))).
      { apply Inv_run. by apply Inv_step. }
      by destruct (shape_lookup _ h _ (inv_shape _ _ HIk) Ht) as (_ & _ & ?).
    + destruct (mock_timers_shown h (files s) k (step s ClickUpload) 0%nat)
        as [_ Hrest]; [done | lia |].
      destruct Hrest as (Ht & _); [lia |]. cbv zeta in Ht.
      assert (HIk : Inv (run (step s ClickUpload) (replicate (S k) (TimerFire h)))).
      { apply Inv_run. by apply Inv_step. }
      by destruct (shape_lookup _ h _ (inv_shape _ _ HIk) Ht) as (? & _ & _).
    + destruct (mock_timers_shown h (files s) k (step s ClickUpload) 0%nat)
        as [_ Hrest]; [done | lia |].
      destruct Hrest as (Ht & _); [lia |]. cbv zeta in Ht.
      assert (HIk : Inv (run (step s ClickUpload) (replicate (S k) (TimerFire h)))).
      { apply Inv_run. by apply Inv_step. }
      destruct (Inv_alive _ h _ HIk Ht) as [_ Hhist].
      apply history_mock_inv in Hhist as (n & _ & Hn & Hlogk).
      assert (n = S k) as -> by lia. exact Hlogk.
    + by apply (reachable_shows_last_tick s Hreach h').
    + destruct (Inv_alive s h' _ HI H) as [_ Hhist].
      by apply history_mock_inv in Hhist.
Qed.

(** C10.  In every reachable state: a click that starts a mock upload
    leaves [abortController] empty; while a mock loop is suspended,
    [handleCancelUpload] returns the state it was given (so the progress is
    not reset and nothing is emitted); a mock session never has [Aborted]
    in its record; and whatever mix of cancel clicks and timers follows,
    once the remaining timers have fired the session has emitted all its
    ticks and the canned [Success]. *)
Theorem mock_upload_cannot_be_cancelled (s : State) :
  reachable s ->
  (mockMode s = true -> canUpload s = true ->
     abortController (step s ClickUpload) = None
     /\ tasks (step s ClickUpload) !! next_handle s = Some (MockLoop (files s) 0))
  /\ (forall h snapshot i, tasks s !! h = Some (MockLoop snapshot i) ->
        handleCancelUpload s = s)
  /\ (forall h snapshot rest,
        emitted_by h (log s) = EvStart Mock snapshot :: rest ->
        EvOutcome Aborted ∉ emitted_by h (log s))
  /\ (forall h snapshot n tr,
        tasks s !! h = Some (MockLoop snapshot (10 * Z.of_nat n)) ->
        forallb (fun e => is_cancel e || is_tick h e) tr = true ->
        count_ticks h tr = (11 - n)%nat ->
        tasks (run s tr) !! h = None
        /\ emitted_by h (log (run s tr)) =
             EvStart Mock snapshot :: (published snapshot <$> ticks 11)
               ++ [EvOutcome canned_success]).
Proof.
  intros Hreach. pose proof (reachable_Inv s Hreach) as HI.
  repeat split.
  - by apply mock_click.
  - by apply mock_click.
  - intros h snapshot i. by apply cancel_noop_mock.
  - intros h snapshot rest E Hin.
    destruct (Inv_history s h HI) as [Hnil | Hhist]; [congruence |].
    rewrite E in Hhist, Hin. inversion Hhist; subst.
    + apply elem_of_cons in Hin as [[=] | Hin].
      by apply list_elem_of_fmap in Hin as (v & [=] & _).
    + apply elem_of_cons in Hin as [[=] | Hin].
      unfold Vocabulary.canned_success in Hin. elem_cases Hin.
  - destruct (Inv_alive s h _ HI H) as [_ Hhist].
    apply history_mock_inv in Hhist as (n' & Hn' & E & _).
    by apply (mock_runs_to_success h snapshot tr s n); try done; lia.
  - destruct (Inv_alive s h _ HI H) as [_ Hhist].
    apply history_mock_inv in Hhist as (n' & Hn' & E & _).
    by apply (mock_runs_to_success h snapshot tr s n); try done; lia.
Qed.

(** C4, as the code has it.  When the byte counters the transport reports
    for a request only grow against a fixed positive total, the overall
    percentages of every session are in non-decreasing order; every
    progress event gives each staged file of its session the overall
    percentage and no other; the event that delivers [Aborted] leaves the
    progress at [{ overall: 0, perFile: {} }]; the event that delivers
    [Success] leaves it at 100 for every staged file in mock mode, and in
    real mode at the last percentage the transport reported (the zero of
    the start if it reported none), the load handler writing no progress of
    its own; a report of all the bytes rounds to 100, as some reports of
    fewer bytes do, and any report of at most all the bytes to a percentage
    from 0 to 100.  The percentage is computed as the platform computes it,
    in double precision, from byte counters that are unsigned 64-bit
    integers. *)
Theorem progress_ordered_and_reset (tr : list Event) :
  counters_ok ∅ tr = true ->
  let s := run initial tr in
  (forall h, StronglySorted Z.le (overalls (emitted_by h (log s))))
  /\ (forall h p, EvProgress p ∈ emitted_by h (log s) ->
        exists m snapshot,
          head (emitted_by h (log s)) = Some (EvStart m snapshot)
          /\ uniform snapshot p)
  /\ (forall e h, (h, EvOutcome Aborted) ∈ delivered s e ->
        uploadProgress (step s e) = progress_zero)
  /\ (forall e h recs expl,
        (h, EvOutcome (Success recs expl)) ∈ delivered s e ->
        (exists snapshot,
           head (emitted_by h (log s)) = Some (EvStart Mock snapshot)
           /\ uploadProgress (step s e) = progress_at snapshot 100)
        \/ (exists snapshot,
              head (emitted_by h (log s)) = Some (EvStart Real snapshot)
              /\ uploadProgress (step s e)
                 = shown snapshot (overalls (emitted_by h (log s)))))
  /\ (forall loaded total,
        byte_count loaded = true -> byte_count total = true ->
        0 < total -> loaded <= total ->
        0 <= round_percent loaded total <= 100
        /\ round_percent total total = 100)
  /\ (exists loaded total,
        byte_count loaded = true /\ byte_count total = true
        /\ loaded < total /\ round_percent loaded total = 100).
Proof.
  intros Hok s.
  assert (HI : Inv s) by apply Inv_run, Inv_initial.
  destruct (Ordered_run tr ∅ initial Inv_initial Ordered_initial Hok)
    as (last' & Hord & Htr).
  fold s in Hord, Htr. repeat split.
  - intros h. apply (Hord h).
  - intros h p Hin.
    destruct (Inv_history s h HI) as [Hnil | Hhist].
    + rewrite Hnil in Hin. by apply elem_of_nil in Hin.
    + destruct (history_progress _ _ p Hhist Hin) as (m & snapshot & v & Hhead & ->).
      exists m, snapshot. split; [done | apply progress_at_uniform].
  - intros e h. apply delivered_aborted_resets.
  - intros e h recs expl. by apply delivered_success.
  - apply round_percent_range; [done |].
    apply andb_true_iff in H as [H _]. apply Z.leb_le in H. lia.
  - apply round_percent_range; [done |].
    apply andb_true_iff in H as [H _]. apply Z.leb_le in H. lia.
  - by apply round_percent_all.
  - exists 199, 200. repeat split; vm_compute; done.
Qed.

End Facts.

Import Samples.

(** A request fails on the network; cancel is then clicked. *)
Lemma one_terminal_outcome_witness :
  handleCancelUpload
    (step canned no_number (run canned no_number initial page_real_running)
       (XhrError 0))
  = step canned no_number (run canned no_number initial page_real_running)
      (XhrError 0).
Proof.
  apply (proj1 (proj2 (proj2
           (one_terminal_outcome canned no_number page_real_running)))
           (XhrError 0) 0%nat NetworkError).
  vm_compute. constructor.
Defined.

(** One staged file, mock mode on: the eleven ticks and the canned outcome;
    after the fourth timer the page shows the tick 30, and is still
    uploading. *)
Lemma mock_upload_ticks_witness :
  emitted_by 0
    (log (run canned no_number
            (step canned no_number
               (run canned no_number initial page_mock_ready) ClickUpload)
            (replicate 11 (TimerFire 0))))
  = EvStart Mock [staged_small]
    :: (published [staged_small] <$> [0; 10; 20; 30; 40; 50; 60; 70; 80; 90; 100])
    ++ [EvOutcome (canned_success canned)]
  /\ uploadProgress
       (run canned no_number
          (step canned no_number
             (run canned no_number initial page_mock_ready) ClickUpload)
          (replicate 4 (TimerFire 0)))
     = {| overall := 30; perFile := {[ id staged_small := 30 ]} |}
  /\ isUploading
       (run canned no_number
          (step canned no_number
             (run canned no_number initial page_mock_ready) ClickUpload)
          (replicate 4 (TimerFire 0)))
     = true.
Proof.
  assert (Hreach : reachable canned no_number
                     (run canned no_number initial page_mock_ready)).
  { by exists page_mock_ready. }
  pose proof (mock_upload_ticks canned no_number _ Hreach eq_refl eq_refl) as H.
  cbv zeta in H.
  destruct H as (Hlog & _ & _ & _ & _ & _ & _ & _ & _ & _ & Hticks & _).
  destruct (Hticks 3%nat) as [Hshown Hrunning]; [lia |].
  destruct Hrunning as (Hu & _); [lia |].
  split; [exact Hlog |]. split; [| exact Hu].
  etrans; [exact Hshown |]. vm_compute. reflexivity.
Defined.

(** Cancel clicked while the mock loop waits for its first timer. *)
Lemma mock_upload_cannot_be_cancelled_witness :
  handleCancelUpload (run canned no_number initial page_mock_running)
  = run canned no_number initial page_mock_running.
Proof.
  assert (Hreach : reachable canned no_number
                     (run canned no_number initial page_mock_running)).
  { by exists page_mock_running. }
  apply (proj1 (proj2
           (mock_upload_cannot_be_cancelled canned no_number _ Hreach))
           0%nat [staged_small] 0).
  vm_compute. reflexivity.
Defined.

(** 25 then 60 bytes of 100, then a cancel: the percentages are in order. *)
Lemma progress_ordered_and_reset_witness :
  StronglySorted Z.le
    (overalls (emitted_by 0
       (log (run canned no_number initial page_real_cancelled)))).
Proof.
  apply (proj1 (progress_ordered_and_reset canned no_number
                  page_real_cancelled eq_refl) 0%nat).
Defined.

(** C4 as the specification states it fails: a real upload whose transport
    has reported 60 of 100 bytes and whose response then arrives with
    status 200 and a recommendation list ends in [Success] with the
    progress at 60, not 100. *)
Lemma real_success_below_100 :
  ~ (forall tr e h recs expl,
       counters_ok ∅ tr = true ->
       (h, EvOutcome (Success recs expl))
         ∈ delivered canned no_number (run canned no_number initial tr) e ->
       overall (uploadProgress
                  (step canned no_number (run canned no_number initial tr) e))
       = 100).
Proof.
  intros H.
  specialize (H page_real_at_60 load_ok 0%nat
                (get_opt canned "recommendations")
                (js_or (get_opt canned "explanation") (VStr ""))
                eq_refl).
  assert (Hin : (0%nat, EvOutcome (Success (get_opt canned "recommendations")
                   (js_or (get_opt canned "explanation") (VStr ""))))
                ∈ delivered canned no_number
                    (run canned no_number initial page_real_at_60) load_ok).
  { vm_compute. constructor. }
  specialize (H Hin). vm_compute in H. discriminate H.
Qed.

End TransportFacts.

(** ** The fetch wrapper and the error text *)

Module ApiFacts.
Import Js Page Api Samples.

Lemma js_or_truthy (a b : jsval) : truthy a = true -> js_or a b = a.
Proof. unfold js_or. by intros ->. Qed.

Lemma js_or_falsy (a b : jsval) : truthy a = false -> js_or a b = b.
Proof. unfold js_or. by intros ->. Qed.

Lemma get_prop_object (m : gmap string jsval) (key : string) :
  get_prop (VObj m) key = Some (get_opt (VObj m) key).
Proof. done. Qed.

(** The argument of [new Error(...)] for a body that parsed to an object (or
    did not parse, which gives the empty object). *)
Lemma error_argument_object label status statusText (m : gmap string jsval) :
  error_argument label status statusText (VObj m) =
  Some (js_or (get_opt (index_opt (get_opt (VObj m) "detail") 0) "msg")
       (js_or (get_opt (VObj m) "detail")
       (js_or (get_opt (VObj m) "message")
              (VStr (label +:+ ": " +:+ pretty status +:+ " " +:+ statusText))))).
Proof. done. Qed.

(** The outcome a load records, by status. *)
Lemma onload_not_200 np (h : nat) (status : Z) (responseText : string)
    (parsed : option jsval) (s : State) :
  status ≠ 200 ->
  let msg :=
    match parsed with
    | Some (VObj m) =>
        js_or (get_opt (VObj m) "message")
          (js_or (get_opt (VObj m) "error") (VStr "Server error occurred."))
    | Some VNull | Some VUndef | None =>
        js_or (VStr responseText) (VStr "Server error occurred.")
    | Some _ => VStr "Server error occurred."
    end in
  log (onload np h status responseText parsed s)
    = log s ++ [(h, EvOutcome (ServerError status msg))]
  /\ error (onload np h status responseText parsed s) = msg
  /\ recommendations (onload np h status responseText parsed s)
     = recommendations s.
Proof.
  intros Hs. unfold onload, load_failed.
  assert ((status =? 200) = false) as -> by lia.
  destruct parsed as [[| |b|n|t|l|m]|]; simpl; done.
Qed.

Lemma onload_200 np (h : nat) (responseText : string) (data : jsval)
    (s : State) :
  truthy (get_opt data "recommendations")
    && length_positive np (get_opt data "recommendations") = true ->
  log (onload np h 200 responseText (Some data) s)
    = log s ++ [(h, EvOutcome
                      (Success (get_opt data "recommendations")
                               (js_or (get_opt data "explanation") (VStr ""))))]
  /\ recommendations (onload np h 200 responseText (Some data) s)
     = get_opt data "recommendations".
Proof.
  intros Hrecs. unfold onload. simpl.
  destruct data; simpl in *; try done. by rewrite Hrecs.
Qed.

Lemma onload_200_rejected np (h : nat) (responseText : string)
    (parsed : option jsval) (s : State) :
  (forall data, parsed = Some data ->
     truthy (get_opt data "recommendations")
       && length_positive np (get_opt data "recommendations") = false) ->
  exists msg,
    log (onload np h 200 responseText parsed s)
      = log s ++ [(h, EvOutcome (ServerError 200 (VStr msg)))]
    /\ error (onload np h 200 responseText parsed s) = VStr msg
    /\ (msg = "No recommendations found for uploaded data."
        \/ msg = "Unexpected server response.").
Proof.
  intros Hnone. unfold onload, load_failed. simpl.
  destruct parsed as [data|]; [| eexists; repeat split; by right].
  specialize (Hnone data eq_refl).
  destruct data; simpl in *; try rewrite Hnone;
    eexists; repeat split; by (left + right).
Qed.

(** C9, as the code has it.  [apiFetch] (and [uploadFile], with its own
    label) settle a completed exchange by [response.ok].  A status from 200
    to 299 resolves with the parsed body when the body parses, and rejects
    with the error of the parser when it does not (an empty body, as of a
    bare 204): the call resolves exactly for a 2xx status with a body that
    parses.  Any other status rejects with an [Error] whose text is, for a
    body that parsed to an object, the first truthy value among
    [detail[0].msg], [detail] and [message], in this order, and
    ["API Error: <status> <statusText>"] (["Upload Error: ..."]) when none
    is truthy, when the body parsed to something that has no fields, or
    when it did not parse; a body that parsed to [null] makes the read of
    [detail] throw, and the rejection carries that [TypeError].  The
    request of the upload page is
    settled by its own handler: only status 200 with a non-empty
    [recommendations] gives [Success] (status 200 without one stores an
    error message); any other status gives an error whose text is the
    first truthy value among [message] and [error] of the parsed object,
    else ["Server error occurred."], and the raw response text (or that
    same sentence when it is empty) when the body did not parse. *)
Theorem error_classification_and_text (te : string) (status : Z)
    (statusText : string) :
  (* apiFetch, success *)
  (forall v, ok status = true ->
     apiFetch te (Response status statusText (Json v)) = Resolved v
     /\ uploadFile te (Response status statusText (Json v)) = Resolved v)
  (* apiFetch, failure, body parsed to an object *)
  /\ (forall (m : gmap string jsval), ok status = false ->
      let msg := get_opt (index_opt (get_opt (VObj m) "detail") 0) "msg" in
      let detail := get_opt (VObj m) "detail" in
      let message := get_opt (VObj m) "message" in
      let text label :=
        if truthy msg then to_string msg
        else if truthy detail then to_string detail
        else if truthy message then to_string message
        else label +:+ ": " +:+ pretty status +:+ " " +:+ statusText in
      apiFetch te (Response status statusText (Json (VObj m)))
        = Rejected (Error_ (text "API Error"))
      /\ uploadFile te (Response status statusText (Json (VObj m)))
        = Rejected (Error_ (text "Upload Error")))
  (* apiFetch, failure, body without fields or not parseable *)
  /\ (forall b, ok status = false ->
      match b with
      | Json (VObj _) | Json VNull | Json VUndef => False
      | _ => True
      end ->
      apiFetch te (Response status statusText b)
        = Rejected (Error_ ("API Error: " +:+ pretty status +:+ " " +:+ statusText))
      /\ uploadFile te (Response status statusText b)
        = Rejected (Error_ ("Upload Error: " +:+ pretty status +:+ " " +:+ statusText)))
  (* the upload page, any status but 200 *)
  /\ (forall np h responseText parsed s, status ≠ 200 ->
      exists msg,
        log (onload np h status responseText parsed s)
          = log s ++ [(h, EvOutcome (ServerError status msg))]
        /\ error (onload np h status responseText parsed s) = msg
        /\ (forall (m : gmap string jsval), parsed = Some (VObj m) ->
              msg = if truthy (get_opt (VObj m) "message")
                    then get_opt (VObj m) "message"
                    else if truthy (get_opt (VObj m) "error")
                    then get_opt (VObj m) "error"
                    else VStr "Server error occurred.")
        /\ (parsed = None ->
              msg = if String.eqb responseText "" then VStr "Server error occurred."
                    else VStr responseText))
  (* the upload page, status 200 *)
  /\ (forall np h responseText data s, status = 200 ->
      truthy (get_opt data "recommendations")
        && length_positive np (get_opt data "recommendations") = true ->
      log (onload np h status responseText (Some data) s)
        = log s ++ [(h, EvOutcome
                          (Success (get_opt data "recommendations")
                             (js_or (get_opt data "explanation") (VStr ""))))])
  /\ (forall np h responseText parsed s, status = 200 ->
      (forall data, parsed = Some data ->
         truthy (get_opt data "recommendations")
           && length_positive np (get_opt data "recommendations") = false) ->
      exists msg,
        log (onload np h status responseText parsed s)
          = log s ++ [(h, EvOutcome (ServerError 200 (VStr msg)))]
        /\ (msg = "No recommendations found for uploaded data."
            \/ msg = "Unexpected server response."))
  (* apiFetch, success status, body not parseable *)
  /\ (forall syntax_error, ok status = true ->
      apiFetch te (Response status statusText (NotJson syntax_error))
        = Rejected (Error_ syntax_error)
      /\ uploadFile te (Response status statusText (NotJson syntax_error))
        = Rejected (Error_ syntax_error))
  (* apiFetch, failure, body parsed to null *)
  /\ (forall b, ok status = false -> b = Json VNull \/ b = Json VUndef ->
      apiFetch te (Response status statusText b) = Rejected (Error_ te)
      /\ uploadFile te (Response status statusText b) = Rejected (Error_ te))
  (* apiFetch resolves for a 2xx status with a body that parses, only *)
  /\ (forall b v,
      (apiFetch te (Response status statusText b) = Resolved v
         <-> ok status = true /\ b = Json v)
      /\ (uploadFile te (Response status statusText b) = Resolved v
         <-> ok status = true /\ b = Json v)).
Proof.
  split; [| split; [| split; [| split; [| split; [| split; [| split; [| split]]]]]]].
  8: { intros b [-> | ->] Hok || intros b Hok [-> | ->].
       all: unfold apiFetch, uploadFile, settle_response; rewrite Hok; done. }
  8: { intros b v. unfold apiFetch, uploadFile, settle_response.
       destruct (ok status); simpl.
       - destruct b; split; split;
           solve [ intros [= ->]; done | intros [_ [= ->]]; done
                 | intros [_ [=]] | intros [=] ].
       - destruct (error_argument _ _ _ _); destruct (error_argument _ _ _ _);
           split; split; solve [ intros [=] | intros [[=] _] ]. }
  7: { intros m Hok. unfold apiFetch, uploadFile, settle_response.
       by rewrite Hok. }
  - intros v Hok. unfold apiFetch, uploadFile, settle_response. by rewrite Hok.
  - intros m Hok. unfold apiFetch, uploadFile, settle_response. rewrite Hok.
    simpl. unfold js_or. split; repeat case_match; done.
  - intros b Hok Hb. unfold apiFetch, uploadFile, settle_response. rewrite Hok.
    destruct b as [[| |c|n|t|l|m]|]; simpl; done.
  - intros np h responseText parsed s Hs.
    destruct (onload_not_200 np h status responseText parsed s Hs)
      as (Hlog & Herr & _).
    eexists. split; [exact Hlog |]. split; [exact Herr |]. split.
    + intros m ->. unfold js_or. repeat case_match; done.
    + intros ->. unfold js_or. simpl. by destruct (String.eqb responseText "").
  - intros np h responseText data s -> Hrecs.
    apply (onload_200 np h responseText data s Hrecs).
  - intros np h responseText parsed s -> Hnone.
    destruct (onload_200_rejected np h responseText parsed s Hnone)
      as (msg & Hlog & _ & Hmsg).
    by exists msg.
Qed.

(** Status 422 with a validation error list: the text is [detail[0].msg]. *)
Lemma error_classification_and_text_witness :
  apiFetch "TypeError"
    (Response 422 "Unprocessable Entity"
       (Json (VObj (<["detail" :=
                        VArr [VObj (<["msg" := VStr "field required"]> ∅)]]> ∅))))
  = Rejected (Error_ "field required").
Proof.
  exact (proj1 (proj1 (proj2
           (error_classification_and_text "TypeError" 422 "Unprocessable Entity"))
           (<["detail" := VArr [VObj (<["msg" := VStr "field required"]> ∅)]]> ∅)
           eq_refl)).
Defined.

(** C9 as the specification states it fails three times.  A status 500
    whose body is not JSON rejects with
    ["API Error: 500 Internal Server Error"], not with the bare status
    line; the upload page records a response with status 201 and a full
    recommendation list as an error, not as [Success]; and [apiFetch]
    rejects a status 204 whose empty body does not parse. *)
Lemma error_text_not_as_specified :
  apiFetch "TypeError" (Response 500 "Internal Server Error" (NotJson "Unexpected token"))
    = Rejected (Error_ "API Error: 500 Internal Server Error")
  /\ spec_error_text 500 "Internal Server Error" (NotJson "Unexpected token")
    = "500 Internal Server Error"
  /\ apiFetch "TypeError" (Response 500 "Internal Server Error" (NotJson "Unexpected token"))
    ≠ Rejected (Error_ (spec_error_text 500 "Internal Server Error"
                          (NotJson "Unexpected token")))
  /\ ok 201 = true
  /\ outcomes_of 0
       (log (run canned no_number initial
               (page_real_running ++ [XhrLoad 0 201 "{...}" (Some canned)])))
     = [EvOutcome (ServerError 201 (VStr "Server error occurred."))]
  /\ ok 204 = true
  /\ apiFetch "TypeError"
       (Response 204 "No Content" (NotJson "Unexpected end of JSON input"))
     = Rejected (Error_ "Unexpected end of JSON input").
Proof. repeat split; vm_compute; done. Qed.

End ApiFacts.

(** ** Response normalisation *)

Module NormalizerFacts.
Import Js Normalizer.

Lemma array_field_array (m : gmap string jsval) (key : string) (xs : list jsval) :
  m !! key = Some (VArr xs) -> array_field (VObj m) key = Some xs.
Proof. intros H. unfold array_field. simpl. by rewrite H. Qed.

Lemma array_field_absent (m : gmap string jsval) (key : string) :
  m !! key = None -> array_field (VObj m) key = None.
Proof. intros H. unfold array_field. simpl. by rewrite H. Qed.

(** C6, as the code has it.  For the behaviour list and the catalog, an
    envelope holding the list under the domain key ([behaviors],
    [products]), the bare list, and an envelope holding it under [data]
    all give that list, whatever else the envelope holds.  For the
    recommendation list the envelope key [recommendations] and the bare list
    give the list, and an explanation is replaced only by a truthy one; an
    envelope holding the list under [data] is not recognised.  A value that
    matches no rule empties the behaviour list, and leaves the catalog and
    the recommendation state as they were. *)
Theorem normalisation_by_shape (xs prev : list jsval) (st : Recs) :
  (* the behaviour list *)
  (forall m, m !! "behaviors" = Some (VArr xs) ->
     fetchBehaviors (VObj m) prev = xs)
  /\ fetchBehaviors (VArr xs) prev = xs
  /\ (forall m, array_field (VObj m) "behaviors" = None ->
        m !! "data" = Some (VArr xs) -> fetchBehaviors (VObj m) prev = xs)
  (* the catalog *)
  /\ (forall m, m !! "products" = Some (VArr xs) ->
        fetchProducts (VObj m) prev = xs)
  /\ fetchProducts (VArr xs) prev = xs
  /\ (forall m, array_field (VObj m) "products" = None ->
        m !! "data" = Some (VArr xs) -> fetchProducts (VObj m) prev = xs)
  (* the recommendations *)
  /\ (forall m, m !! "recommendations" = Some (VArr xs) ->
        recommendations (fetchStoredRecommendations (VObj m) st) = xs
        /\ explanation (fetchStoredRecommendations (VObj m) st)
           = if truthy (get_opt (VObj m) "explanation")
             then get_opt (VObj m) "explanation" else explanation st)
  /\ fetchStoredRecommendations (VArr xs) st
     = {| recommendations := xs; explanation := explanation st |}
  /\ (forall m, array_field (VObj m) "recommendations" = None ->
        fetchStoredRecommendations (VObj m) st = st)
  (* no rule applies *)
  /\ (forall data, unrecognised "behaviors" data -> fetchBehaviors data prev = [])
  /\ (forall data, unrecognised "products" data -> fetchProducts data prev = prev)
  /\ (forall data, as_array data = None ->
        array_field data "recommendations" = None ->
        fetchStoredRecommendations data st = st)
  /\ (forall data,
        handleGenerateRecommendations data st = fetchStoredRecommendations data st).
Proof.
  repeat split.
  - intros m Hm. unfold fetchBehaviors. simpl.
    by rewrite (array_field_array m "behaviors" xs Hm).
  - intros m Hnone Hm. unfold fetchBehaviors. simpl.
    by rewrite Hnone, (array_field_array m "data" xs Hm).
  - intros m Hm. unfold fetchProducts. simpl.
    by rewrite (array_field_array m "products" xs Hm).
  - intros m Hnone Hm. unfold fetchProducts. simpl.
    by rewrite Hnone, (array_field_array m "data" xs Hm).
  - unfold fetchStoredRecommendations.
    by rewrite (array_field_array m "recommendations" xs H).
  - unfold fetchStoredRecommendations.
    by rewrite (array_field_array m "recommendations" xs H).
  - intros m Hnone. unfold fetchStoredRecommendations. by rewrite Hnone.
  - intros data (H1 & H2 & H3). unfold fetchBehaviors. by rewrite H1, H2, H3.
  - intros data (H1 & H2 & H3). unfold fetchProducts. by rewrite H1, H2, H3.
  - intros data H1 H2. unfold fetchStoredRecommendations. by rewrite H2, H1.
Qed.

(** The envelope [{ behaviors: [1, 2], total: 2 }]. *)
Lemma normalisation_by_shape_witness :
  fetchBehaviors
    (VObj (<["behaviors" := VArr [VNum 1; VNum 2]]> (<["total" := VNum 2]> ∅)))
    [VNum 7]
  = [VNum 1; VNum 2].
Proof.
  apply (proj1 (normalisation_by_shape [VNum 1; VNum 2] [VNum 7]
                  {| recommendations := []; explanation := VStr "" |})).
  vm_compute. reflexivity.
Defined.

(** C6 as the specification states it fails: the empty object matches no
    rule of the catalog fetch, and the catalog keeps its rows instead of
    becoming empty; and the recommendation fetch leaves its list alone when
    the list comes under [data]. *)
Lemma unmatched_response_keeps_rows :
  unrecognised "products" (VObj ∅)
  /\ fetchProducts (VObj ∅) [VNum 7] = [VNum 7]
  /\ fetchProducts (VObj ∅) [VNum 7] ≠ []
  /\ recommendations
       (fetchStoredRecommendations (VObj (<["data" := VArr [VNum 1]]> ∅))
          {| recommendations := [VNum 7]; explanation := VStr "" |})
     ≠ [VNum 1].
Proof. repeat split; vm_compute; done. Qed.

End NormalizerFacts.

(** ** The mutation coordinator *)

Module CoordinatorFacts.
Import Js Coordinator.

(** *** Arrays *)

Lemma read_spread_array (arr : list slot) (j : nat) :
  read (spread_array arr) j = read arr j.
Proof.
  unfold read, spread_array. rewrite list_lookup_fmap.
  destruct (arr !! j) as [[| |r]|]; done.
Qed.

Lemma length_spread_array (arr : list slot) :
  length (spread_array arr) = length arr.
Proof. unfold spread_array. apply length_fmap. Qed.

Lemma read_array_set_eq (arr : list slot) (i : nat) (r : row) :
  read (array_set arr i (Item r)) i = Some r.
Proof.
  unfold read, array_set. destruct (i <? length arr)%nat eqn:Hi.
  - apply Nat.ltb_lt in Hi. by rewrite list_lookup_insert_eq.
  - apply Nat.ltb_ge in Hi.
    rewrite lookup_app_r by lia. rewrite lookup_app_r; rewrite length_replicate; [| lia].
    by replace (i - length arr - (i - length arr))%nat with 0%nat by lia.
Qed.

Lemma read_array_set_ne (arr : list slot) (i j : nat) (x : slot) :
  j ≠ i -> read (array_set arr i x) j = read arr j.
Proof.
  intros Hne. unfold read, array_set. destruct (i <? length arr)%nat eqn:Hi.
  - by rewrite list_lookup_insert_ne.
  - apply Nat.ltb_ge in Hi.
    destruct (decide (j < length arr)%nat) as [Hj | Hj].
    + by rewrite lookup_app_l.
    + rewrite (lookup_ge_None_2 arr j) by lia.
      rewrite lookup_app_r by lia.
      destruct (decide (j - length arr < i - length arr)%nat) as [Hin | Hout].
      * rewrite lookup_app_l by (rewrite length_replicate; lia).
        by rewrite lookup_replicate_2.
      * rewrite lookup_app_r; rewrite length_replicate; [| lia].
        rewrite lookup_ge_None_2; [done |]. simpl. lia.
Qed.

(** The cell a failed update writes, and the cells it leaves. *)
Lemma update_merged_row (i : nat) (data : row) (prev : list slot) :
  read (update_merged i data prev) i = Some (merge (read prev i) data).
Proof. unfold update_merged. apply read_array_set_eq. Qed.

Lemma update_merged_others (i j : nat) (data : row) (prev : list slot) :
  j ≠ i -> read (update_merged i data prev) j = read prev j.
Proof.
  intros Hne. unfold update_merged.
  by rewrite read_array_set_ne, read_spread_array.
Qed.



Lemma filter_out_from (i : nat) (arr : list slot) : forall k,
  Forall (fun c => is_hole c = false) arr ->
  snd <$> filter (fun c => c.1 ≠ i /\ is_hole c.2 = false)
                 (imap (fun idx c => (k + idx, c)%nat) arr)
  = if decide (k <= i)%nat then delete (i - k)%nat arr else arr.
Proof.
  induction arr as [|x arr IH]; intros k Hfull.
  - by destruct (decide _).
  - apply Forall_cons in Hfull as [Hx Hfull].
    rewrite imap_cons, filter_cons. simpl.
    rewrite (imap_ext _ (fun idx c => (S k + idx, c)%nat))
      by (intros; simpl; f_equal; lia).
    rewrite Nat.add_0_r.
    destruct (decide (k ≠ i /\ is_hole x = false)) as [[Hk _] | Hdrop].
    + rewrite fmap_cons, (IH (S k) Hfull). simpl.
      destruct (decide (k <= i)%nat) as [Hle | Hgt].
      * rewrite decide_True by lia.
        replace (i - k)%nat with (S (i - S k)) by lia. done.
      * by rewrite decide_False by lia.
    + assert (k = i) as -> by (destruct (decide (k = i)); [done | by destruct Hdrop]).
      rewrite (IH (S i) Hfull), decide_False by lia.
      rewrite decide_True, Nat.sub_diag by lia. done.
Qed.

(** On an array without holes, deletion removes the cell at the index and
    nothing else. *)
Lemma filter_out_delete (i : nat) (arr : list slot) :
  Forall (fun c => is_hole c = false) arr -> filter_out i arr = delete i arr.
Proof.
  intros Hfull. unfold filter_out.
  pose proof (filter_out_from i arr 0 Hfull) as E.
  destruct (decide (0 <= i)%nat) as [_ | Hneg]; [| lia].
  rewrite Nat.sub_0_r in E. exact E.
Qed.

(** *** Running the handlers *)

Section Runs.

Variable type_error_text : string.
Variable js_Number : jsval -> jsval.
Variable meanwhile : list slot -> list slot.
Variables (l : list slot) (rowIndex : nat) (item data : row).
Hypothesis Hitem : read l rowIndex = Some item.

Local Abbreviation js_or_truthy := ApiFacts.js_or_truthy.

Lemma behaviour_update_blocked remote :
  truthy (field item "_id") = false ->
  run_handler remote meanwhile
    (Behaviour.handleUpdate type_error_text rowIndex data) l
  = ({| rows := l;
        toasts := [toast_error "Cannot update: Missing _id field"
                     "Please refresh the page to load the latest data with IDs"];
        calls := [] |}, None).
Proof.
  intros Hid. unfold run_handler, Behaviour.handleUpdate.
  by rewrite Hitem, Hid.
Qed.

Lemma behaviour_delete_blocked remote :
  truthy (field item "_id") = false ->
  run_handler remote meanwhile
    (Behaviour.handleDelete type_error_text rowIndex) l
  = ({| rows := l;
        toasts := [toast_error "Cannot delete: Missing _id field"
                     "Please refresh the page to load the latest data with IDs"];
        calls := [] |}, None).
Proof.
  intros Hid. unfold run_handler, Behaviour.handleDelete.
  by rewrite Hitem, Hid.
Qed.

Lemma behaviour_update_sent remote :
  truthy (field item "_id") = true ->
  exists behavior,
    calls (run_handler remote meanwhile
             (Behaviour.handleUpdate type_error_text rowIndex data) l).1
    = [updateBehavior (field item "_id") behavior]
    /\ behavior !! "product_id" = Some (js_String (field data "product_id"))
    /\ behavior !! "action" = Some (js_String (field data "action"))
    /\ behavior !! "timestamp" = Some (js_String (field data "timestamp")).
Proof.
  intros Hid. unfold run_handler, Behaviour.handleUpdate.
  rewrite Hitem, Hid, (js_or_truthy _ _ Hid). simpl.
  eexists. split.
  - destruct (remote _); simpl; reflexivity.
  - by simplify_map_eq.
Qed.

Lemma behaviour_delete_sent remote :
  truthy (field item "_id") = true ->
  calls (run_handler remote meanwhile
           (Behaviour.handleDelete type_error_text rowIndex) l).1
  = [deleteBehavior (field item "_id")].
Proof.
  intros Hid. unfold run_handler, Behaviour.handleDelete.
  rewrite Hitem, Hid, (js_or_truthy _ _ Hid). simpl.
  destruct (remote _); simpl; reflexivity.
Qed.








Lemma catalog_add_failed (error : exn) :
  let ran := run_handler (fun _ => inr error) meanwhile
               (Catalog.handleAddFromDialog data) l in
  rows ran.1 = meanwhile l
  /\ ran.2 = Some error
  /\ toasts ran.1 = [toast_error "Failed to add product" (describe error)].
Proof. done. Qed.

End Runs.

End CoordinatorFacts.

Module CoordinatorClaims.
Import Js Coordinator CoordinatorFacts Samples.




(** C2.  A row [item] is at [rowIndex] of the behaviour list.  When its
    [_id] is missing (or falsy), whatever its [behavior_id] and [user_id],
    update and delete make no remote call whatever the server would answer, leave the list as it is and show the
    error notification ["Cannot update: Missing _id field"] (["Cannot
    delete: ..."]); the handler then returns.  When the row has an [_id],
    exactly one call is made, addressed to that [_id]. *)
Theorem missing_identity_blocks_call (type_error_text : string)
    (remote : api_call -> jsval + exn) (meanwhile : list slot -> list slot)
    (l : list slot) (rowIndex : nat) (item data : row) :
  read l rowIndex = Some item ->
  (item !! "_id" = None -> truthy (field item "_id") = false)
  /\ (truthy (field item "_id") = false ->
        run_handler remote meanwhile
          (Behaviour.handleUpdate type_error_text rowIndex data) l
        = ({| rows := l;
              toasts := [toast_error "Cannot update: Missing _id field"
                "Please refresh the page to load the latest data with IDs"];
              calls := [] |}, None)
        /\ run_handler remote meanwhile
             (Behaviour.handleDelete type_error_text rowIndex) l
           = ({| rows := l;
                 toasts := [toast_error "Cannot delete: Missing _id field"
                   "Please refresh the page to load the latest data with IDs"];
                 calls := [] |}, None))
  /\ (truthy (field item "_id") = true ->
        (exists behavior,
           calls (run_handler remote meanwhile
                    (Behaviour.handleUpdate type_error_text rowIndex data) l).1
           = [updateBehavior (field item "_id") behavior])
        /\ calls (run_handler remote meanwhile
                    (Behaviour.handleDelete type_error_text rowIndex) l).1
           = [deleteBehavior (field item "_id")]).
Proof.
  intros Hitem. split; [| split].
  - intros Hnone. unfold field. by rewrite Hnone.
  - intros Hid. split.
    + by apply (behaviour_update_blocked type_error_text meanwhile l rowIndex item).
    + by apply (behaviour_delete_blocked type_error_text meanwhile l rowIndex item).
  - intros Hid. split.
    + destruct (behaviour_update_sent type_error_text meanwhile l rowIndex
                  item data Hitem remote Hid) as (behavior & Hcalls & _).
      by exists behavior.
    + by apply (behaviour_delete_sent type_error_text meanwhile l rowIndex item).
Qed.

(** A row from the mock data, without [_id]: the edit is not sent. *)
Lemma missing_identity_blocks_call_witness :
  run_handler (fun _ => inl VNull) id
    (Behaviour.handleUpdate "TypeError" 0 edit) [Item row_without_id]
  = ({| rows := [Item row_without_id];
        toasts := [toast_error "Cannot update: Missing _id field"
          "Please refresh the page to load the latest data with IDs"];
        calls := [] |}, None).
Proof.
  destruct (missing_identity_blocks_call "TypeError" (fun _ => inl VNull) id
              [Item row_without_id] 0 row_without_id edit eq_refl)
    as (_ & Hblocked & _).
  exact (proj1 (Hblocked eq_refl)).
Defined.

End CoordinatorClaims.

(* ===================================================================== *)
(** * The page bar and the pages of the recommendation table *)
(* ===================================================================== *)

Module PagerFacts.
Import Pager.

Lemma window_bounds (currentPage totalPages : Z) :
  1 <= currentPage <= totalPages ->
  1 <= (window currentPage totalPages).1 <= currentPage
  /\ currentPage <= (window currentPage totalPages).2 <= totalPages
  /\ (window currentPage totalPages).2 - (window currentPage totalPages).1 + 1
     = Z.min totalPages 5.
Proof.
  intros H. unfold window.
  destruct (currentPage <=? 3) eqn:E1; destruct (currentPage >=? totalPages - 2) eqn:E2;
    simpl; lia.
Qed.

Lemma sorted_seqZ (n : nat) : forall m, StronglySorted Z.lt (seqZ m (Z.of_nat n)).
Proof.
  induction n as [|n IH]; intros m.
  - rewrite seqZ_nil by lia. constructor.
  - rewrite seqZ_cons by lia.
    replace (Z.pred (Z.of_nat (S n))) with (Z.of_nat n) by lia.
    constructor; [apply IH |].
    apply Forall_forall. intros x Hx. apply elem_of_seqZ in Hx. lia.
Qed.

Lemma numbered_app (l1 l2 : list control) :
  numbered (l1 ++ l2) = numbered l1 ++ numbered l2.
Proof.
  induction l1 as [|c l1 IH]; [done |].
  destruct c; simpl; by rewrite IH.
Qed.

Lemma clickable_app (l1 l2 : list control) :
  clickable (l1 ++ l2) = clickable l1 ++ clickable l2.
Proof.
  induction l1 as [|c l1 IH]; [done |].
  destruct c as [[] ?| | |[] ?]; simpl; by rewrite IH.
Qed.

Lemma numbered_pages (currentPage : Z) (ps : list Z) :
  numbered ((fun page => Numbered page (page =? currentPage)) <$> ps) = ps.
Proof.
  induction ps as [|p ps IH]; [done |].
  rewrite fmap_cons. cbn [numbered clickable]. by f_equal.
Qed.

Lemma clickable_pages (currentPage : Z) (ps : list Z) :
  clickable ((fun page => Numbered page (page =? currentPage)) <$> ps) = ps.
Proof.
  induction ps as [|p ps IH]; [done |].
  rewrite fmap_cons. cbn [numbered clickable]. by f_equal.
Qed.

(** The numbered buttons: the first page when the window starts later, the
    window, the last page when the window ends earlier. *)
Lemma numbered_Pagination (currentPage totalPages : Z) :
  numbered (Pagination currentPage totalPages)
  = (if (window currentPage totalPages).1 >? 1 then [1] else [])
    ++ pages currentPage totalPages
    ++ (if (window currentPage totalPages).2 <? totalPages
        then [totalPages] else []).
Proof.
  unfold Pagination, pages.
  destruct (window currentPage totalPages) as [startPage endPage] eqn:W.
  rewrite !numbered_app, numbered_pages. simpl.
  destruct (startPage >? 1); destruct (startPage >? 2);
    destruct (endPage <? totalPages); destruct (endPage <? totalPages - 1);
    simpl; by rewrite ?app_nil_r.
Qed.

Lemma clickable_Pagination (currentPage totalPages : Z) :
  clickable (Pagination currentPage totalPages)
  = (if currentPage =? 1 then [] else [currentPage - 1])
    ++ numbered (Pagination currentPage totalPages)
    ++ (if currentPage =? totalPages then [] else [currentPage + 1]).
Proof.
  rewrite numbered_Pagination. unfold Pagination, pages.
  destruct (window currentPage totalPages) as [startPage endPage] eqn:W.
  rewrite !clickable_app, clickable_pages. simpl.
  destruct (currentPage =? 1); destruct (currentPage =? totalPages);
    destruct (startPage >? 1); destruct (startPage >? 2);
    destruct (endPage <? totalPages); destruct (endPage <? totalPages - 1);
    simpl; by rewrite <- ?app_assoc.
Qed.

(** X1.  The window of page numbers: [min(totalPages, 5)] consecutive pages that
    lie between 1 and [totalPages] and contain the current page. *)
Theorem pages_around_current (currentPage totalPages : Z) :
  1 <= currentPage <= totalPages ->
  exists startPage,
    pages currentPage totalPages = seqZ startPage (Z.min totalPages 5)
    /\ 1 <= startPage <= currentPage
    /\ currentPage < startPage + Z.min totalPages 5 <= totalPages + 1
    /\ currentPage ∈ pages currentPage totalPages
    /\ (forall page, page ∈ pages currentPage totalPages ->
          1 <= page <= totalPages).
Proof.
  intros H. pose proof (window_bounds _ _ H) as (H1 & H2 & H3).
  unfold pages.
  destruct (window currentPage totalPages) as [startPage endPage]; simpl in *.
  exists startPage. rewrite H3. repeat split; try lia.
  - apply elem_of_seqZ. lia.
  - apply elem_of_seqZ in H0. lia.
  - apply elem_of_seqZ in H0. lia.
Qed.

Lemma pages_around_current_witness :
  1 <= 7 <= 20 /\ 7 ∈ pages 7 20.
Proof.
  split; [lia |].
  destruct (pages_around_current 7 20) as (? & _ & _ & _ & H & _); [lia | exact H].
Defined.

(** X2.  The numbered buttons of the bar carry strictly increasing page numbers
    (so no page has two buttons), all between 1 and [totalPages]; the first
    page, the last page and the current page each have one, and the current
    page is the only one marked as current. *)
Theorem numbered_buttons_increase (currentPage totalPages : Z) :
  1 <= currentPage <= totalPages ->
  let buttons := numbered (Pagination currentPage totalPages) in
  StronglySorted Z.lt buttons
  /\ (forall page, page ∈ buttons -> 1 <= page <= totalPages)
  /\ 1 ∈ buttons /\ totalPages ∈ buttons /\ currentPage ∈ buttons
  /\ (forall page current,
        Numbered page current ∈ Pagination currentPage totalPages ->
        current = true <-> page = currentPage).
Proof.
  intros H buttons. subst buttons. rewrite numbered_Pagination.
  pose proof (window_bounds _ _ H) as (H1 & H2 & H3).
  assert (Hpages : pages currentPage totalPages
            = seqZ (window currentPage totalPages).1 (Z.min totalPages 5)).
  { unfold pages. destruct (window currentPage totalPages). simpl in *. by rewrite H3. }
  assert (Hin : forall page, page ∈ pages currentPage totalPages <->
            (window currentPage totalPages).1 <= page
            <= (window currentPage totalPages).2).
  { intros page. rewrite Hpages, elem_of_seqZ. lia. }
  split; [| split; [| split; [| split; [| split]]]].
  - apply StronglySorted_app_2.
    + intros x1 x2 Hx1 Hx2.
      destruct (_ >? 1) eqn:E; [| by apply elem_of_nil in Hx1].
      apply list_elem_of_singleton in Hx1. subst x1.
      apply elem_of_app in Hx2 as [Hx2 | Hx2].
      * apply Hin in Hx2. lia.
      * destruct (_ <? totalPages) eqn:E'; [| by apply elem_of_nil in Hx2].
        apply list_elem_of_singleton in Hx2. lia.
    + destruct (_ >? 1); repeat constructor.
    + apply StronglySorted_app_2.
      * intros x1 x2 Hx1 Hx2. apply Hin in Hx1.
        destruct (_ <? totalPages) eqn:E; [| by apply elem_of_nil in Hx2].
        apply list_elem_of_singleton in Hx2. lia.
      * rewrite Hpages.
        replace (Z.min totalPages 5) with (Z.of_nat (Z.to_nat (Z.min totalPages 5)))
          by lia.
        apply sorted_seqZ.
      * destruct (_ <? totalPages); repeat constructor.
  - intros page Hp.
    apply elem_of_app in Hp as [Hp | Hp];
      [| apply elem_of_app in Hp as [Hp | Hp]].
    + destruct (_ >? 1); [| by apply elem_of_nil in Hp].
      apply list_elem_of_singleton in Hp. lia.
    + apply Hin in Hp. lia.
    + destruct (_ <? totalPages); [| by apply elem_of_nil in Hp].
      apply list_elem_of_singleton in Hp. lia.
  - destruct (_ >? 1) eqn:E.
    + apply elem_of_app. left. by apply list_elem_of_singleton.
    + apply elem_of_app. right. apply elem_of_app. left. apply Hin. lia.
  - destruct (_ <? totalPages) eqn:E.
    + apply elem_of_app. right. apply elem_of_app. right.
      by apply list_elem_of_singleton.
    + apply elem_of_app. right. apply elem_of_app. left. apply Hin. lia.
  - apply elem_of_app. right. apply elem_of_app. left. apply Hin. lia.
  - intros page current Hp. unfold Pagination in Hp.
    destruct (window currentPage totalPages) as [startPage endPage] eqn:W.
    simpl in H1, H2, H3.
    apply elem_of_app in Hp as [Hp | Hp].
    { apply list_elem_of_singleton in Hp. discriminate. }
    apply elem_of_app in Hp as [Hp | Hp].
    { destruct (startPage >? 1) eqn:E; [| by apply elem_of_nil in Hp].
      apply elem_of_cons in Hp as [[= -> ->] | Hp]; [split; [done | lia] |].
      destruct (startPage >? 2); [| by apply elem_of_nil in Hp].
      apply list_elem_of_singleton in Hp. discriminate. }
    apply elem_of_app in Hp as [Hp | Hp].
    { apply list_elem_of_fmap in Hp as (p & [= -> ->] & _). lia. }
    apply elem_of_app in Hp as [Hp | Hp].
    { destruct (endPage <? totalPages) eqn:E; [| by apply elem_of_nil in Hp].
      apply elem_of_app in Hp as [Hp | Hp].
      - destruct (endPage <? totalPages - 1); [| by apply elem_of_nil in Hp].
        apply list_elem_of_singleton in Hp. discriminate.
      - apply list_elem_of_singleton in Hp. injection Hp as -> ->.
        split; [done | lia]. }
    apply list_elem_of_singleton in Hp. discriminate.
Qed.

Lemma numbered_buttons_increase_witness :
  1 <= 7 <= 20 /\ StronglySorted Z.lt (numbered (Pagination 7 20)).
Proof.
  split; [lia |].
  destruct (numbered_buttons_increase 7 20) as (H & _); [lia | exact H].
Defined.

Lemma clickable_range (currentPage totalPages page : Z) :
  1 <= currentPage <= totalPages ->
  page ∈ clickable (Pagination currentPage totalPages) ->
  1 <= page <= totalPages.
Proof.
  intros H Hp. rewrite clickable_Pagination, numbered_Pagination in Hp.
  pose proof (window_bounds _ _ H) as (H1 & H2 & H3).
  assert (Hin : forall q, q ∈ pages currentPage totalPages -> 1 <= q <= totalPages).
  { intros q Hq. unfold pages in Hq.
    destruct (window currentPage totalPages) as [a b]. simpl in *.
    apply elem_of_seqZ in Hq. lia. }
  repeat (apply elem_of_app in Hp as [Hp | Hp]).
  - destruct (currentPage =? 1) eqn:E; [by apply elem_of_nil in Hp |].
    apply list_elem_of_singleton in Hp. lia.
  - destruct (_ >? 1); [| by apply elem_of_nil in Hp].
    apply list_elem_of_singleton in Hp. lia.
  - by apply Hin.
  - destruct (_ <? totalPages); [| by apply elem_of_nil in Hp].
    apply list_elem_of_singleton in Hp. lia.
  - destruct (currentPage =? totalPages) eqn:E; [by apply elem_of_nil in Hp |].
    apply list_elem_of_singleton in Hp. lia.
Qed.

(** X3.  Whatever enabled button of the bar is clicked, the page asked for lies
    between 1 and [totalPages]; the previous page can be asked for unless
    the current page is the first, the next one unless it is the last. *)
Theorem clicks_stay_in_range (currentPage totalPages : Z) :
  1 <= currentPage <= totalPages ->
  let targets := clickable (Pagination currentPage totalPages) in
  (forall page, page ∈ targets -> 1 <= page <= totalPages)
  /\ (1 < currentPage <-> Prev false (currentPage - 1)
                            ∈ Pagination currentPage totalPages)
  /\ (currentPage < totalPages <-> Next false (currentPage + 1)
                                     ∈ Pagination currentPage totalPages).
Proof.
  intros H targets. subst targets.
  split; [| split].
  - intros page. by apply clickable_range.
  - unfold Pagination. destruct (window currentPage totalPages) as [a b].
    split.
    + intros Hlt. apply elem_of_app. left.
      assert (E : (currentPage =? 1) = false) by lia. rewrite E.
      by apply list_elem_of_singleton.
    + intros Hp. apply elem_of_app in Hp as [Hp | Hp].
      * apply list_elem_of_singleton in Hp. injection Hp as E. lia.
      * exfalso. repeat (apply elem_of_app in Hp as [Hp | Hp]).
        -- destruct (a >? 1); [| by apply elem_of_nil in Hp].
           apply elem_of_cons in Hp as [[=] | Hp].
           destruct (a >? 2); [| by apply elem_of_nil in Hp].
           by apply list_elem_of_singleton in Hp.
        -- by apply list_elem_of_fmap in Hp as (p & [=] & _).
        -- destruct (b <? totalPages); [| by apply elem_of_nil in Hp].
           apply elem_of_app in Hp as [Hp | Hp].
           ++ destruct (b <? totalPages - 1); [| by apply elem_of_nil in Hp].
              by apply list_elem_of_singleton in Hp.
           ++ by apply list_elem_of_singleton in Hp.
        -- by apply list_elem_of_singleton in Hp.
  - unfold Pagination. destruct (window currentPage totalPages) as [a b].
    split.
    + intros Hlt. do 4 (apply elem_of_app; right).
      assert (E : (currentPage =? totalPages) = false) by lia. rewrite E.
      by apply list_elem_of_singleton.
    + intros Hp. repeat (apply elem_of_app in Hp as [Hp | Hp]).
      * by apply list_elem_of_singleton in Hp.
      * exfalso. destruct (a >? 1); [| by apply elem_of_nil in Hp].
        apply elem_of_cons in Hp as [[=] | Hp].
        destruct (a >? 2); [| by apply elem_of_nil in Hp].
        by apply list_elem_of_singleton in Hp.
      * by apply list_elem_of_fmap in Hp as (p & [=] & _).
      * exfalso. destruct (b <? totalPages); [| by apply elem_of_nil in Hp].
        apply elem_of_app in Hp as [Hp | Hp].
        -- destruct (b <? totalPages - 1); [| by apply elem_of_nil in Hp].
           by apply list_elem_of_singleton in Hp.
        -- by apply list_elem_of_singleton in Hp.
      * apply list_elem_of_singleton in Hp. injection Hp as E. lia.
Qed.

Lemma clicks_stay_in_range_witness :
  1 <= 7 <= 20
  /\ (forall page, page ∈ clickable (Pagination 7 20) -> 1 <= page <= 20).
Proof.
  split; [lia |].
  destruct (clicks_stay_in_range 7 20) as (H & _); [lia | exact H].
Defined.

End PagerFacts.

Module TableFacts.
Import RecommendationsTable.

(** From the first page on, a page is the ten rows that follow the rows of
    the pages before it. *)
Lemma paginatedData_take_drop {A : Type} (l : list A) (p : Z) :
  1 <= p ->
  paginatedData l p = take 10 (drop (10 * Z.to_nat (p - 1)) l).
Proof.
  intros Hp. unfold paginatedData, slice, ROWS_PER_PAGE.
  assert (E1 : ((p - 1) * 10 <? 0) = false) by lia.
  assert (E2 : ((p - 1) * 10 + 10 <? 0) = false) by lia.
  rewrite E1, E2.
  destruct (decide (Z.of_nat (length l) <= (p - 1) * 10)) as [Hge | Hlt].
  - rewrite (drop_ge l (10 * _)) by lia.
    rewrite (drop_ge l (Z.to_nat _)) by lia.
    by rewrite !take_nil.
  - replace (Z.to_nat (Z.min ((p - 1) * 10) (Z.of_nat (length l))))
      with (10 * Z.to_nat (p - 1))%nat by lia.
    destruct (decide ((p - 1) * 10 + 10 <= Z.of_nat (length l))) as [Hfull | Hpart].
    + f_equal. lia.
    + rewrite !take_ge; [done | |]; rewrite length_drop; lia.
Qed.

Lemma concat_pages {A : Type} (l : list A) (n : nat) :
  concat ((fun k => take 10 (drop (10 * k) l)) <$> seq 0 n) = take (10 * n) l.
Proof.
  induction n as [|n IH]; [by rewrite Nat.mul_0_r, take_0 |].
  rewrite seq_S, fmap_app, concat_app, IH. simpl.
  rewrite app_nil_r, take_take_drop. f_equal. lia.
Qed.

Lemma totalPages_bounds {A : Type} (l : list A) :
  10 * (totalPages l - 1) < Z.of_nat (length l) <= 10 * totalPages l.
Proof.
  unfold totalPages, ROWS_PER_PAGE.
  pose proof (Z.div_mod (Z.of_nat (length l) + 10 - 1) 10).
  pose proof (Z.mod_pos_bound (Z.of_nat (length l) + 10 - 1) 10). lia.
Qed.

Lemma page_not_empty {A : Type} (l : list A) (p : Z) :
  1 <= p <= totalPages l -> paginatedData l p <> [].
Proof.
  intros Hp. rewrite paginatedData_take_drop by lia.
  pose proof (totalPages_bounds l) as Hb.
  intros E. apply (f_equal length) in E.
  rewrite length_take, length_drop in E. cbn [length] in E. lia.
Qed.

(** X4.  The pages 1 to [totalPages], one after the other, are the rows of the
    table: every row is on exactly one page, in the order of the rows. *)
Theorem pages_partition_rows {A : Type} (sortedData : list A) :
  concat (paginatedData sortedData <$> seqZ 1 (totalPages sortedData))
  = sortedData.
Proof.
  pose proof (totalPages_bounds sortedData) as Hb.
  unfold seqZ. rewrite <- list_fmap_compose.
  rewrite (list_fmap_ext _ (fun k => take 10 (drop (10 * k) sortedData))).
  - rewrite concat_pages. apply take_ge. lia.
  - intros i k _. simpl. rewrite paginatedData_take_drop by lia.
    do 3 f_equal. lia.
Qed.

(** X5.  A page from 1 to [totalPages] shows at least one row and at most ten,
    exactly ten unless it is the last; a page after the last shows none;
    and there are no pages exactly when there are no rows. *)
Theorem page_sizes {A : Type} (sortedData : list A) (page : Z) :
  1 <= page ->
  (page <= totalPages sortedData ->
     (0 < length (paginatedData sortedData page) <= 10)%nat)
  /\ (page < totalPages sortedData ->
        length (paginatedData sortedData page) = 10%nat)
  /\ (totalPages sortedData < page -> paginatedData sortedData page = [])
  /\ (totalPages sortedData = 0 <-> sortedData = []).
Proof.
  intros Hp. pose proof (totalPages_bounds sortedData) as Hb.
  rewrite paginatedData_take_drop by lia.
  rewrite length_take, length_drop.
  repeat split; try lia.
  - intros Hlt. rewrite drop_ge; [apply take_nil | lia].
  - intros E. apply length_zero_iff_nil. lia.
  - intros ->. reflexivity.
Qed.

Lemma page_sizes_witness :
  1 <= 2 /\ length (paginatedData (seq 0 25) 2) = 10%nat.
Proof.
  split; [lia |].
  destruct (page_sizes (seq 0 25) 2) as (_ & H & _); [lia |].
  apply H. vm_compute. reflexivity.
Defined.

Section Rows.

Context {A : Type}.
Variable filteredData : string -> string -> list A.
Variable sort : SortField -> SortDirection -> list A -> list A.

(** Sorting a copy of an array rearranges it. *)
Hypothesis sort_length : forall f d l, length (sort f d l) = length l.

Local Abbreviation sortedData := (sortedData filteredData sort).
Local Abbreviation step := (step filteredData sort).
Local Abbreviation run := (run filteredData sort).

Lemma length_sortedData (v : View) :
  length (sortedData v) = length (filteredData (searchQuery v) (topNFilter v)).
Proof.
  unfold RecommendationsTable.sortedData.
  destruct (field (sortConfig v)); [apply sort_length | done].
Qed.

Lemma totalPages_length {B : Type} (l l' : list B) :
  length l = length l' -> totalPages l = totalPages l'.
Proof. unfold totalPages. by intros ->. Qed.

(** The current page is the first one, or one of the pages of the rows. *)
Local Abbreviation on_a_page v :=
  (currentPage v = 1 \/ 1 <= currentPage v <= totalPages (sortedData v)).

Lemma on_a_page_step (v : View) (a : Action) :
  on_a_page v -> on_a_page (step v a).
Proof.
  intros Hv. destruct a as [query | value | f | page]; simpl.
  - by left.
  - by left.
  - destruct Hv as [Hv | Hv]; [by left | right].
    simpl.
    rewrite (totalPages_length (sortedData _) (sortedData v)); [done |].
    by rewrite !length_sortedData.
  - destruct (bool_decide _) eqn:E; [| done].
    apply bool_decide_eq_true in E. unfold bar in E.
    destruct (totalPages (sortedData v) >? 1) eqn:Hbar;
      [| by apply elem_of_nil in E].
    right. change (1 <= page <= totalPages (sortedData v)).
    apply (PagerFacts.clickable_range (currentPage v)); [| done].
    destruct Hv; lia.
Qed.

Lemma on_a_page_run (tr : list Action) : forall v,
  on_a_page v -> on_a_page (run v tr).
Proof.
  induction tr as [|a tr IH]; intros v Hv; [done |].
  apply IH. by apply on_a_page_step.
Qed.

(** X6.  Whatever the user searches, filters, sorts and clicks, the table stays
    on the first page or on a page that exists, and while there are rows
    the page it shows is not empty. *)
Theorem shown_page_has_rows (tr : list Action) :
  let v := run initial tr in
  (currentPage v = 1 \/ 1 <= currentPage v <= totalPages (sortedData v))
  /\ (sortedData v <> [] -> paginatedData (sortedData v) (currentPage v) <> []).
Proof.
  intros v. assert (Hv : on_a_page v) by (apply on_a_page_run; by left).
  split; [exact Hv |]. intros Hrows. apply page_not_empty.
  pose proof (totalPages_bounds (sortedData v)) as Hb.
  assert (0 < length (sortedData v))%nat by (destruct (sortedData v); simpl; [done | lia]).
  destruct Hv as [-> | Hv]; lia.
Qed.

End Rows.

(** Thirty-five rows, sorted by rating, then the third page and the next. *)
Lemma shown_page_has_rows_witness :
  let rows_of : string -> string -> list nat := fun _ _ => seq 0 35 in
  let v := run rows_of (fun _ _ l => l) initial [SortBy rating; Click 3; Click 4] in
  currentPage v = 4
  /\ paginatedData (sortedData rows_of (fun _ _ l => l) v) (currentPage v) <> [].
Proof.
  split; [vm_compute; reflexivity |].
  apply (shown_page_has_rows (fun _ _ => seq 0 35) (fun _ _ l => l)); [done |].
  vm_compute. discriminate.
Defined.

End TableFacts.

(* ===================================================================== *)
(** * More on the upload page *)
(* ===================================================================== *)

Module UploadPageFacts.
Import Js Page Vocabulary Samples.

Section Facts.

Variable mockRecommendations : jsval.
Variable numeric_positive : string -> bool.

Local Abbreviation step := (Page.step mockRecommendations numeric_positive).
Local Abbreviation run := (Page.run mockRecommendations numeric_positive).
Local Abbreviation reachable := (Vocabulary.reachable mockRecommendations numeric_positive).
Local Abbreviation delivered := (Vocabulary.delivered mockRecommendations numeric_positive).
Local Abbreviation reachable_Inv :=
  (TransportFacts.reachable_Inv mockRecommendations numeric_positive).

(** X7.  In every state the page can be in, at most one upload session is
    suspended; [isUploading] is true exactly while one is; the abort handle
    is set exactly while a real request is in flight, and is that request;
    and while a session is suspended the upload button does nothing. *)
Theorem one_session_at_a_time (s : State) :
  reachable s ->
  (forall h h' t t', tasks s !! h = Some t -> tasks s !! h' = Some t' ->
     h = h' /\ t = t')
  /\ (isUploading s = true <-> exists h t, tasks s !! h = Some t)
  /\ (forall c, abortController s = Some c <->
        exists snapshot, tasks s !! c = Some (XhrInFlight snapshot))
  /\ (forall h t, tasks s !! h = Some t ->
        canUpload s = false /\ step s ClickUpload = s).
Proof.
  intros Hreach. destruct (reachable_Inv s Hreach) as [Hshape _ _].
  split; [| split; [| split]].
  - intros h h' t t' Hh Hh'.
    destruct (TransportFacts.shape_lookup s h t Hshape Hh) as (Ht & _).
    rewrite Ht in Hh'. apply lookup_singleton_Some in Hh' as [-> ->]. done.
  - split.
    + intros Hu. destruct Hshape as [? ? Hf | h snap i Ht _ _ | h snap Ht _ _];
        [congruence | |].
      * exists h, (MockLoop snap i). rewrite Ht. apply lookup_singleton_eq.
      * exists h, (XhrInFlight snap). rewrite Ht. apply lookup_singleton_eq.
    + intros (h & t & Hh).
      by destruct (TransportFacts.shape_lookup s h t Hshape Hh) as (_ & Hu & _).
  - intros c. split.
    + intros Hc.
      destruct (TransportFacts.shape_controller s c Hshape Hc) as (snap & Ht).
      exists snap. rewrite Ht. apply lookup_singleton_eq.
    + intros (snap & Hh).
      by destruct (TransportFacts.shape_lookup s c _ Hshape Hh) as (_ & _ & Hc).
  - intros h t Hh.
    destruct (TransportFacts.shape_lookup s h t Hshape Hh) as (_ & Hu & _).
    assert (E : canUpload s = false).
    { unfold canUpload. rewrite Hu. apply andb_false_r. }
    split; [done |]. simpl. by rewrite E.
Qed.

(** X8.  While a real request is in flight, one click on cancel delivers
    [Aborted] and nothing else, ends the upload, clears the abort handle and
    resets the progress; the staged files, the recommendations and the error
    stay as they were; and nothing the cancelled request or a second click
    does afterwards changes the page. *)
Theorem cancel_ends_real_upload (s : State) (h : nat)
    (snapshot : list FileWithMeta) :
  reachable s -> tasks s !! h = Some (XhrInFlight snapshot) ->
  let s' := step s ClickCancel in
  delivered s ClickCancel = [(h, EvOutcome Aborted)]
  /\ isUploading s' = false /\ abortController s' = None
  /\ uploadProgress s' = progress_zero /\ tasks s' = ∅
  /\ files s' = files s /\ recommendations s' = recommendations s
  /\ error s' = error s /\ explanation s' = explanation s
  /\ (forall lc loaded total, step s' (XhrProgress h lc loaded total) = s')
  /\ (forall status text parsed, step s' (XhrLoad h status text parsed) = s')
  /\ step s' (XhrError h) = s'
  /\ step s' ClickCancel = s'.
Proof.
  intros Hreach Hh s'. destruct (reachable_Inv s Hreach) as [Hshape _ _].
  destruct (TransportFacts.shape_lookup s h _ Hshape Hh) as (Ht & Hu & Hc).
  assert (Es : s' = onabort h s).
  { subst s'. simpl. unfold handleCancelUpload, controller_abort.
    by rewrite Hc, Hh. }
  assert (Et : tasks s' = ∅).
  { rewrite Es. simpl. rewrite Ht. apply delete_singleton_eq. }
  split.
  { apply TransportFacts.delivered_app. fold s'. by rewrite Es. }
  rewrite Es in *. simpl in Et.
  repeat split; try done.
  - intros. simpl. by rewrite Et.
  - intros. simpl. by rewrite Et.
  - simpl. by rewrite Et.
Qed.

(** X9.  Every load adopts or reports, never both: either the status is 200, a
    truthy recommendations value is adopted with the explanation and the
    error is left as it was; or a message that is truthy (so that the page
    shows it) becomes the error, and the recommendations and the
    explanation are left as they were. *)
Theorem load_adopts_or_reports (h : nat) (status : Z) (responseText : string)
    (parsed : option jsval) (s : State) :
  let s' := onload numeric_positive h status responseText parsed s in
  (exists recs expl,
     log s' = log s ++ [(h, EvOutcome (Success recs expl))]
     /\ status = 200 /\ truthy recs = true
     /\ recommendations s' = recs /\ explanation s' = expl
     /\ error s' = error s)
  \/ (exists msg,
        log s' = log s ++ [(h, EvOutcome (ServerError status msg))]
        /\ truthy msg = true /\ error s' = msg
        /\ recommendations s' = recommendations s
        /\ explanation s' = explanation s).
Proof.
  intros s'. subst s'. unfold onload, load_failed. cbv zeta.
  destruct (status =? 200) eqn:E200.
  - destruct parsed as [data|]; [| right; by eexists].
    destruct (get_prop data "recommendations") as [recs|]; [| right; by eexists].
    destruct (truthy recs && _) eqn:Hok; [| right; by eexists].
    left. exists recs. eexists. apply andb_true_iff in Hok as [Hrecs _].
    repeat split; try done. lia.
  - right.
    assert (Hraw : truthy (js_or (VStr responseText) (VStr "Server error occurred."))
                   = true).
    { unfold js_or. destruct (truthy (VStr responseText)) eqn:E; done. }
    destruct parsed as [errorData|]; [| by eexists].
    destruct (get_prop errorData "message") as [m|]; [| by eexists].
    eexists. repeat split; try done.
    unfold js_or. destruct (truthy m) eqn:Em; [done |].
    by destruct (truthy (get_opt errorData "error")) eqn:Ee.
Qed.

Lemma results_hidden_step (s : State) (e : Event) :
  (isUploading s = true ->
     recommendations s = VArr [] /\ explanation s = VStr "") ->
  isUploading (step s e) = true ->
  recommendations (step s e) = VArr [] /\ explanation (step s e) = VStr "".
Proof.
  intros HP. destruct e; simpl; try exact HP.
  - unfold handleFilesSelected. cbv zeta.
    destruct (hasInvalidType _); destruct (0 <? _)%nat; exact HP.
  - destruct (canUpload s); [| exact HP].
    unfold handleUpload. destruct (length (files s) =? 0)%nat; [exact HP |].
    cbv zeta. simpl. by destruct (mockMode s).
  - unfold handleCancelUpload. destruct (abortController s); [| exact HP].
    unfold controller_abort. destruct (tasks s !! n) as [[]|]; try exact HP.
    simpl. discriminate.
  - destruct (tasks s !! h) as [[snap i|]|]; try exact HP.
    unfold mock_tick. cbv zeta. destruct (i + 10 <=? 100); [exact HP |].
    simpl. discriminate.
  - destruct (tasks s !! h) as [[|snap]|]; try exact HP.
    unfold onprogress. destruct lengthComputable; exact HP.
  - destruct (tasks s !! h) as [[|snap]|]; try exact HP.
    intros Hu. exfalso.
    destruct (TransportFacts.onload_effect numeric_positive h status
                responseText parsed s) as (o & _ & _ & _ & _ & Hf & _).
    congruence.
  - destruct (tasks s !! h) as [[|snap]|]; try exact HP.
    simpl. discriminate.
Qed.

(** X10.  While an upload is running the page holds no recommendations and no
    explanation: results of an earlier upload are never shown beside the
    progress of the next. *)
Theorem results_hidden_while_uploading (s : State) :
  reachable s -> isUploading s = true ->
  recommendations s = VArr [] /\ explanation s = VStr "".
Proof.
  intros [tr ->]. unfold Page.run.
  induction tr as [|e tr IH] using rev_ind; [discriminate |].
  rewrite foldl_app. simpl. by apply results_hidden_step.
Qed.

End Facts.

(** A real upload in flight, then the cancel click. *)
Lemma one_session_at_a_time_witness :
  isUploading (run canned no_number initial page_real_running) = true.
Proof.
  assert (Hreach : Vocabulary.reachable canned no_number
                     (run canned no_number initial page_real_running)).
  { by exists page_real_running. }
  apply (proj1 (proj2 (one_session_at_a_time canned no_number _ Hreach))).
  exists 0%nat, (XhrInFlight [staged_small]). vm_compute. reflexivity.
Defined.

Lemma cancel_ends_real_upload_witness :
  Vocabulary.delivered canned no_number
    (run canned no_number initial page_real_running) ClickCancel
  = [(0%nat, EvOutcome Aborted)].
Proof.
  assert (Hreach : Vocabulary.reachable canned no_number
                     (run canned no_number initial page_real_running)).
  { by exists page_real_running. }
  apply (cancel_ends_real_upload canned no_number _ 0%nat [staged_small] Hreach).
  vm_compute. reflexivity.
Defined.

Lemma results_hidden_while_uploading_witness :
  recommendations (run canned no_number initial page_real_running) = VArr [].
Proof.
  assert (Hreach : Vocabulary.reachable canned no_number
                     (run canned no_number initial page_real_running)).
  { by exists page_real_running. }
  apply (results_hidden_while_uploading canned no_number _ Hreach).
  vm_compute. reflexivity.
Defined.

End UploadPageFacts.

(* ===================================================================== *)
(** * More on the file stager *)
(* ===================================================================== *)

Module StagerExtras.
Import Js Page Vocabulary Samples.

Lemma filter_other_ids (rid : string) (l : list FileWithMeta) :
  (forall m, m ∈ l -> id m <> rid) -> filter (fun f => id f ≠ rid) l = l.
Proof.
  induction l as [|m l IH]; intros Hl; [done |].
  rewrite filter_cons_True by (apply Hl; left).
  f_equal. apply IH. intros m' Hm'. apply Hl. by right.
Qed.

(** X11.  Staging one small CSV file and removing the entry it was given brings
    the staged list back, provided no entry staged before has the same id
    (ids are made of the name, the clock and a random number). *)
Theorem stage_then_remove (now : nat -> Z) (rnd : nat -> string) (f : File)
    (s : State) :
  isCSV f = true -> file_size f <= MAX_FILE_SIZE ->
  (forall m, m ∈ files s -> id m <> make_id now rnd 0 f) ->
  let staged := handleFilesSelected now rnd [f] s in
  files staged = files s ++ [with_meta now rnd 0 f]
  /\ files (handleRemoveFile (make_id now rnd 0 f) staged) = files s.
Proof.
  intros Hcsv Hsize Hfresh staged.
  destruct (StagerFacts.handleFilesSelected_cells now rnd [f] s) as (Hfiles & _).
  fold staged in Hfiles.
  assert (E : staged_from now rnd 0 [f] = [with_meta now rnd 0 f]).
  { simpl. rewrite Hcsv.
    assert (E : (file_size f <=? MAX_FILE_SIZE) = true) by lia. by rewrite E. }
  rewrite E in Hfiles. split; [done |].
  unfold handleRemoveFile, setFiles. cbn [files]. rewrite Hfiles, filter_app.
  rewrite filter_cons_False by (simpl; tauto).
  rewrite filter_nil, app_nil_r. by apply filter_other_ids.
Qed.

Lemma stage_then_remove_witness :
  files (handleRemoveFile (make_id now0 rnd0 0 small_csv)
           (handleFilesSelected now0 rnd0 [small_csv] initial)) = [].
Proof.
  apply (stage_then_remove now0 rnd0 small_csv initial).
  - reflexivity.
  - vm_compute. discriminate.
  - intros m Hm. by apply elem_of_nil in Hm.
Defined.

(** X12.  The files waiting for confirmation are one batch, not a queue: a
    selection that has oversized CSV files replaces the batch of the
    selection before it.  After two selections and a confirmation the
    staged list has gained the small files of both and the large files of
    the second only, and a large file of the first selection that is not
    in the second is staged only if it was staged before. *)
Theorem later_selection_replaces_pending (now1 now2 now3 : nat -> Z)
    (rnd1 rnd2 rnd3 : nat -> string) (first second : list File) (s : State) :
  oversized second <> [] ->
  let s' := handleConfirmLargeFiles now3 rnd3
              (handleFilesSelected now2 rnd2 second
                 (handleFilesSelected now1 rnd1 first s)) in
  files s' = files s ++ staged_from now1 rnd1 0 first
               ++ staged_from now2 rnd2 0 second
               ++ imap (with_meta now3 rnd3) (oversized second)
  /\ (forall g m, g ∈ oversized first -> g ∉ second ->
        m ∈ files s' -> file m = g -> m ∈ files s).
Proof.
  intros Hbig s'.
  destruct (StagerFacts.handleFilesSelected_cells now1 rnd1 first s)
    as (Hf1 & _).
  destruct (StagerFacts.handleFilesSelected_cells now2 rnd2 second
              (handleFilesSelected now1 rnd1 first s)) as (Hf2 & Hp2 & _).
  rewrite decide_False in Hp2 by done.
  assert (Hfiles : files s' = files s ++ staged_from now1 rnd1 0 first
               ++ staged_from now2 rnd2 0 second
               ++ imap (with_meta now3 rnd3) (oversized second)).
  { subst s'. unfold handleConfirmLargeFiles, setShowLargeFileWarning,
      setPendingLargeFiles, setFiles. cbn [files pendingLargeFiles].
    rewrite Hf2, Hp2, Hf1. by rewrite <- !app_assoc. }
  split; [done |].
  intros g m Hg Hnot Hm Hfile. rewrite Hfiles in Hm.
  apply StagerFacts.elem_of_oversized in Hg as (Hgin & Hgcsv & Hgbig).
  apply elem_of_app in Hm as [Hm | Hm]; [done | exfalso].
  apply elem_of_app in Hm as [Hm | Hm];
    [| apply elem_of_app in Hm as [Hm | Hm]].
  - apply StagerFacts.elem_of_staged_from in Hm as (k & f & _ & -> & _ & Hsmall).
    simpl in Hfile. subst f. lia.
  - apply StagerFacts.elem_of_staged_from in Hm as (k & f & Hk & -> & _).
    simpl in Hfile. subst f. apply Hnot. by eapply list_elem_of_lookup_2.
  - apply elem_of_lookup_imap in Hm as (k & f & -> & Hk).
    simpl in Hfile. subst f. apply Hnot.
    apply list_elem_of_lookup_2 in Hk.
    by apply StagerFacts.elem_of_oversized in Hk as (? & _).
Qed.

Lemma later_selection_replaces_pending_witness :
  file <$> files (handleConfirmLargeFiles now0 rnd0
                    (handleFilesSelected now0 rnd0 [large_csv]
                       (handleFilesSelected now0 rnd0 [small_csv] initial)))
  = [small_csv; large_csv].
Proof.
  rewrite (proj1 (later_selection_replaces_pending now0 now0 now0 rnd0 rnd0 rnd0
                    [small_csv] [large_csv] initial ltac:(vm_compute; discriminate))).
  vm_compute. reflexivity.
Defined.

Section Reachable.

Variable mockRecommendations : jsval.
Variable numeric_positive : string -> bool.

Local Abbreviation step := (Page.step mockRecommendations numeric_positive).
Local Abbreviation reachable := (Vocabulary.reachable mockRecommendations numeric_positive).

Local Abbreviation csv_entry m :=
  (isCSV (file m) = true /\ name m = file_name (file m)
   /\ size m = file_size (file m)).

Local Abbreviation well_staged s :=
  ((forall m, m ∈ files s -> csv_entry m)
   /\ (forall g, g ∈ pendingLargeFiles s ->
         isCSV g = true /\ MAX_FILE_SIZE < file_size g)
   /\ (forall h mode snapshot, (h, EvStart mode snapshot) ∈ log s ->
         snapshot <> [] /\ forall m, m ∈ snapshot -> csv_entry m)).

Lemma well_staged_step (s : State) (e : Event) :
  well_staged s -> well_staged (step s e).
Proof.
  intros (Hfiles & Hpend & Hlog).
  assert (Hemit : forall h x (s0 : State),
            files s0 = files s -> pendingLargeFiles s0 = pendingLargeFiles s ->
            log s0 = log s ++ [(h, x)] ->
            (forall mode snapshot, x <> EvStart mode snapshot) ->
            well_staged s0).
  { intros h x s0 E1 E2 E3 Hx. rewrite E1, E2, E3.
    split; [done | split; [done |]].
    intros h' mode snapshot Hin. apply elem_of_app in Hin as [Hin | Hin].
    - by apply (Hlog h' mode).
    - apply list_elem_of_singleton in Hin. injection Hin as _ Hin.
      by destruct (Hx mode snapshot). }
  destruct e; cbn [Page.step]; try (by simpl).
  - (* files selected *)
    destruct (StagerFacts.handleFilesSelected_cells now rnd selected s)
      as (Hf & Hp & _).
    assert (El : log (handleFilesSelected now rnd selected s) = log s).
    { unfold handleFilesSelected. cbv zeta.
      by destruct (hasInvalidType _); destruct (0 <? _)%nat. }
    rewrite Hf, Hp, El. split; [| split; [| done]].
    + intros m Hm. apply elem_of_app in Hm as [Hm | Hm]; [by apply Hfiles |].
      apply StagerFacts.elem_of_staged_from in Hm as (k & f & _ & -> & Hcsv & _).
      done.
    + intros g Hg. destruct (decide (oversized selected = [])); [by apply Hpend |].
      by apply StagerFacts.elem_of_oversized in Hg as (_ & ? & ?).
  - (* confirm *)
    unfold handleConfirmLargeFiles. simpl. split; [| split; [| done]].
    + intros m Hm. apply elem_of_app in Hm as [Hm | Hm]; [by apply Hfiles |].
      apply elem_of_lookup_imap in Hm as (k & f & -> & Hk).
      apply list_elem_of_lookup_2 in Hk. by destruct (Hpend f Hk).
    + intros g Hg. by apply elem_of_nil in Hg.
  - (* cancel the warning *)
    simpl. split; [done | split; [| done]].
    intros g Hg. by apply elem_of_nil in Hg.
  - (* remove *)
    simpl. split; [| split; [done | done]].
    intros m Hm. apply list_elem_of_filter in Hm as [_ Hm]. by apply Hfiles.
  - (* upload *)
    destruct (canUpload s) eqn:Hcan; [| done].
    apply TransportFacts.canUpload_true in Hcan as [Hne _].
    unfold handleUpload.
    destruct (length (files s) =? 0)%nat eqn:E0; [done |].
    cbv zeta.
    assert (Hstart : forall s0 h mode,
              files s0 = files s -> pendingLargeFiles s0 = pendingLargeFiles s ->
              log s0 = log s ++ [(h, EvStart mode (files s))] ->
              well_staged s0).
    { intros s0 h mode E1 E2 E3. rewrite E1, E2, E3.
      split; [done | split; [done |]].
      intros h' mode' snapshot Hin. apply elem_of_app in Hin as [Hin | Hin].
      - by apply (Hlog h' mode').
      - apply list_elem_of_singleton in Hin. injection Hin as _ _ ->. done. }
    simpl. destruct (mockMode s); by eapply Hstart.
  - (* cancel *)
    unfold handleCancelUpload. destruct (abortController s); [| done].
    unfold controller_abort. destruct (tasks s !! n) as [[]|]; try done.
    by eapply Hemit.
  - (* timer *)
    destruct (tasks s !! h) as [[snap i|]|]; try done.
    unfold mock_tick. cbv zeta. destruct (i + 10 <=? 100).
    + by eapply Hemit.
    + simpl. split; [done | split; [done |]].
      intros h' mode snapshot Hin.
      repeat (apply elem_of_app in Hin as [Hin | Hin]);
        [by apply (Hlog h' mode) | |];
        by apply list_elem_of_singleton in Hin.
  - (* progress *)
    destruct (tasks s !! h) as [[|snap]|]; try done.
    unfold onprogress. destruct lengthComputable; [| done]. by eapply Hemit.
  - (* load *)
    destruct (tasks s !! h) as [[|snap]|]; try done.
    unfold onload, load_failed. cbv zeta.
    repeat case_match; by eapply Hemit.
  - (* network error *)
    destruct (tasks s !! h) as [[|snap]|]; try done.
    by eapply Hemit.
Qed.

(** X13.  In every state the page can be in, every staged entry holds a CSV file
    and shows its name and size; every file waiting for confirmation is a
    CSV file above the limit; and every upload that was started took at
    least one file along, all of them CSV files. *)
Theorem only_csv_files_are_uploaded (s : State) :
  reachable s ->
  (forall m, m ∈ files s ->
     declared_csv (file m) /\ name m = file_name (file m)
     /\ size m = file_size (file m))
  /\ (forall g, g ∈ pendingLargeFiles s ->
        declared_csv g /\ MAX_FILE_SIZE < file_size g)
  /\ (forall h mode snapshot, (h, EvStart mode snapshot) ∈ log s ->
        snapshot <> [] /\ forall m, m ∈ snapshot -> declared_csv (file m)).
Proof.
  intros [tr ->]. unfold Page.run.
  assert (H : well_staged (foldl step initial tr)).
  { induction tr as [|e tr IH] using rev_ind.
    - simpl. repeat split; intros; by apply elem_of_nil in H.
    - rewrite foldl_app. by apply well_staged_step. }
  destruct H as (Hfiles & Hpend & Hlog).
  split; [| split].
  - intros m Hm. destruct (Hfiles m Hm) as (? & ? & ?).
    by rewrite <- StagerFacts.isCSV_spec.
  - intros g Hg. destruct (Hpend g Hg). by rewrite <- StagerFacts.isCSV_spec.
  - intros h mode snapshot Hin. destruct (Hlog h mode snapshot Hin) as [Hne Hall].
    split; [done |]. intros m Hm. destruct (Hall m Hm) as (? & _).
    by rewrite <- StagerFacts.isCSV_spec.
Qed.

End Reachable.

Lemma only_csv_files_are_uploaded_witness :
  declared_csv (file staged_small).
Proof.
  assert (Hreach : Vocabulary.reachable canned no_number
                     (run canned no_number initial page_real_running)).
  { by exists page_real_running. }
  apply (proj1 (only_csv_files_are_uploaded canned no_number _ Hreach)).
  vm_compute. left.
Defined.

End StagerExtras.

(* ===================================================================== *)
(** * More on the fetch wrapper and the mutation coordinator *)
(* ===================================================================== *)

Module CoordinatorExtras.
Import Js Api Coordinator Client Samples.

(** X14.  What [apiFetch] rejects with is always an [Error]: a value of another
    kind thrown by [fetch] is replaced by ["An unexpected error occurred"],
    while [uploadFile], which has no [catch], lets it through.  Both reject
    a response with a success status whose body does not parse, with the
    error of the parser. *)
Theorem apiFetch_rejects_with_an_Error (type_error_text : string)
    (r : fetch_result) :
  (forall e, apiFetch type_error_text r = Rejected e ->
     exists message, e = Error_ message)
  /\ (forall v,
        apiFetch type_error_text (FetchRejects (NotAnError v))
          = Rejected (Error_ "An unexpected error occurred")
        /\ uploadFile type_error_text (FetchRejects (NotAnError v))
          = Rejected (NotAnError v))
  /\ (forall status statusText syntax_error, ok status = true ->
        apiFetch type_error_text (Response status statusText (NotJson syntax_error))
          = Rejected (Error_ syntax_error)
        /\ uploadFile type_error_text
             (Response status statusText (NotJson syntax_error))
          = Rejected (Error_ syntax_error)).
Proof.
  split; [| split].
  - intros e. unfold apiFetch.
    destruct r as [status statusText b | [m | v]]; simpl.
    + unfold settle_response.
      destruct (negb (ok status)).
      * destruct (error_argument _ _ _ _); intros [= <-]; by eexists.
      * destruct b; [discriminate |]. intros [= <-]. by eexists.
    + intros [= <-]. by eexists.
    + intros [= <-]. by eexists.
  - done.
  - intros status statusText m Hok. unfold apiFetch, uploadFile, settle_response.
    by rewrite Hok.
Qed.

Section Runs.

Variable type_error_text : string.
Variable js_Number : jsval -> jsval.
Variable meanwhile : list slot -> list slot.

(** X15.  A delete that the server carried out and answered with a success status
    and no JSON body (a bare 204, say) is reported as a failure: one call is
    made, the row is removed from the list, and the notification is the
    error one, describing the error of the parser. *)
Theorem bodyless_answer_reported_as_failure (l : list slot) (rowIndex : nat)
    (item : row) (status : Z) (statusText syntax_error : string) :
  read l rowIndex = Some item -> ok status = true ->
  let remote := through_apiFetch type_error_text
                  (fun _ => Response status statusText (NotJson syntax_error)) in
  (truthy (field item "_id") = true ->
     run_handler remote meanwhile (Behaviour.handleDelete type_error_text rowIndex) l
     = ({| rows := filter_out rowIndex (meanwhile l);
           toasts := [toast_error "Failed to delete behavior" syntax_error];
           calls := [deleteBehavior (field item "_id")] |}, None))
  /\ run_handler remote meanwhile (Catalog.handleDelete type_error_text rowIndex) l
     = ({| rows := filter_out rowIndex (meanwhile l);
           toasts := [toast_error "Failed to delete product" syntax_error];
           calls := [deleteProduct (field item "product_id")] |}, None).
Proof.
  intros Hitem Hok remote.
  assert (Hremote : forall c, remote c = inr (Error_ syntax_error)).
  { intros c. subst remote. unfold through_apiFetch, apiFetch, settle_response.
    by rewrite Hok. }
  split.
  - intros Hid. unfold run_handler, Behaviour.handleDelete.
    rewrite Hitem, Hid. simpl. rewrite Hremote. simpl.
    by rewrite (ApiFacts.js_or_truthy _ _ Hid).
  - unfold run_handler, Catalog.handleDelete. rewrite Hitem. simpl.
    by rewrite Hremote.
Qed.

(** X16.  When the list has no row at the index (the index is beyond the end, or
    the cell is a hole or [undefined]), update and delete of both pages
    throw the TypeError of the property read, before any call or
    notification and without touching the list. *)
Theorem no_row_at_index (remote : api_call -> jsval + exn) (l : list slot)
    (rowIndex : nat) (data : row) :
  read l rowIndex = None ->
  let untouched :=
    ({| rows := l; toasts := []; calls := [] |}, Some (Error_ type_error_text)) in
  run_handler remote meanwhile
    (Behaviour.handleUpdate type_error_text rowIndex data) l = untouched
  /\ run_handler remote meanwhile
       (Behaviour.handleDelete type_error_text rowIndex) l = untouched
  /\ run_handler remote meanwhile
       (Catalog.handleUpdate type_error_text js_Number rowIndex data) l = untouched
  /\ run_handler remote meanwhile
       (Catalog.handleDelete type_error_text rowIndex) l = untouched.
Proof.
  intros Hnone untouched.
  unfold run_handler, Behaviour.handleUpdate, Behaviour.handleDelete,
    Catalog.handleUpdate, Catalog.handleDelete.
  by rewrite Hnone.
Qed.

(** X17.  A behaviour added through the dialog is appended with the [_id] of the
    server's answer.  When the answer carries none, the new row cannot be
    updated or deleted afterwards: both handlers stop at the missing [_id]
    without a call; when it carries one, the next update is addressed to
    it.  The list is assumed to hold rows only. *)
Theorem added_row_needs_server_id (remote : api_call -> jsval + exn)
    (rows0 : list row) (data data' : row) (result : jsval) :
  let l := Item <$> rows0 in
  let added := run_handler (fun _ => inl result) id
                 (Behaviour.handleAddFromDialog data) l in
  exists newBehavior,
    rows added.1 = l ++ [Item newBehavior]
    /\ added.2 = None
    /\ field newBehavior "_id" = get_opt result "_id"
    /\ field newBehavior "user_id" = field data "user_id"
    /\ (truthy (get_opt result "_id") = false ->
          run_handler remote meanwhile
            (Behaviour.handleUpdate type_error_text (length rows0) data')
            (rows added.1)
          = ({| rows := rows added.1;
                toasts := [toast_error "Cannot update: Missing _id field"
                  "Please refresh the page to load the latest data with IDs"];
                calls := [] |}, None)
          /\ run_handler remote meanwhile
               (Behaviour.handleDelete type_error_text (length rows0))
               (rows added.1)
             = ({| rows := rows added.1;
                   toasts := [toast_error "Cannot delete: Missing _id field"
                     "Please refresh the page to load the latest data with IDs"];
                   calls := [] |}, None))
    /\ (truthy (get_opt result "_id") = true ->
          exists behavior,
            calls (run_handler remote meanwhile
                     (Behaviour.handleUpdate type_error_text (length rows0) data')
                     (rows added.1)).1
            = [updateBehavior (get_opt result "_id") behavior]).
Proof.
  intros l added. eexists.
  assert (Hspread : spread_array l = l).
  { subst l. unfold spread_array. rewrite <- list_fmap_compose.
    by apply list_fmap_ext. }
  assert (Hrows : rows added.1 = l ++ [Item
            (<["_id" := get_opt result "_id"]>
             (<["behavior_id" := get_opt result "behavior_id"]>
             (<["user_id" := field data "user_id"]>
             (<["product_id" := field data "product_id"]>
             (<["action" := field data "action"]>
             (<["timestamp" := field data "timestamp"]> ∅))))))]).
  { subst added. unfold run_handler, Behaviour.handleAddFromDialog. simpl.
    by rewrite Hspread. }
  split; [exact Hrows |].
  assert (Hread : read (rows added.1) (length rows0) = Some
            (<["_id" := get_opt result "_id"]>
             (<["behavior_id" := get_opt result "behavior_id"]>
             (<["user_id" := field data "user_id"]>
             (<["product_id" := field data "product_id"]>
             (<["action" := field data "action"]>
             (<["timestamp" := field data "timestamp"]> ∅))))))).
  { rewrite Hrows. unfold read.
    rewrite lookup_app_r by (subst l; by rewrite length_fmap).
    subst l. rewrite length_fmap, Nat.sub_diag. done. }
  assert (Hid : forall (m : row) v, field (<["_id" := v]> m) "_id" = v).
  { intros m v. unfold field. by rewrite lookup_insert_eq. }
  split; [done |]. split; [apply Hid |]. split; [done |]. split.
  - intros Hfalsy. unfold run_handler, Behaviour.handleUpdate, Behaviour.handleDelete.
    rewrite Hread, !Hid, Hfalsy. done.
  - intros Htruthy. eexists.
    unfold run_handler, Behaviour.handleUpdate. rewrite Hread, !Hid, Htruthy.
    rewrite (ApiFacts.js_or_truthy _ _ Htruthy). simpl.
    by destruct (remote _).
Qed.

End Runs.

Lemma bodyless_answer_reported_as_failure_witness :
  toasts (run_handler
            (through_apiFetch "TypeError"
               (fun _ => Response 204 "No Content"
                           (NotJson "Unexpected end of JSON input")))
            id (Catalog.handleDelete "TypeError" 0) [Item row_with_id]).1
  = [toast_error "Failed to delete product" "Unexpected end of JSON input"].
Proof.
  rewrite (proj2 (bodyless_answer_reported_as_failure "TypeError" id
                    [Item row_with_id] 0 row_with_id 204 "No Content"
                    "Unexpected end of JSON input" eq_refl eq_refl)).
  reflexivity.
Defined.

Lemma no_row_at_index_witness :
  (run_handler (fun _ => inl VNull) id
     (Behaviour.handleDelete "TypeError" 3) [Item row_with_id]).2
  = Some (Error_ "TypeError").
Proof.
  rewrite (proj1 (proj2 (no_row_at_index "TypeError" (fun v => v) id
                           (fun _ => inl VNull) [Item row_with_id] 3 ∅ eq_refl))).
  reflexivity.
Defined.

End CoordinatorExtras.

(* ===================================================================== *)
(** * The editable table *)
(* ===================================================================== *)

Module EditableTableFacts.
Import Js Coordinator EditableTable DashboardVocabulary.

Lemma edits_snoc (e : Editing) (edits : list (string * jsval)) (k : string)
    (v : jsval) :
  foldl (fun e kv => handleCellChange kv.1 kv.2 e) e (edits ++ [(k, v)])
  = handleCellChange k v
      (foldl (fun e kv => handleCellChange kv.1 kv.2 e) e edits).
Proof. by rewrite foldl_app. Qed.

Lemma edits_row (rowIndex : nat) (row : DataRow) (e0 : Editing)
    (edits : list (string * jsval)) :
  editingRow (foldl (fun e kv => handleCellChange kv.1 kv.2 e)
                (startEditing rowIndex row e0) edits) = Some rowIndex.
Proof.
  induction edits as [|[k v] edits IH] using rev_ind; [done |].
  by rewrite edits_snoc.
Qed.

Lemma edits_untouched (rowIndex : nat) (row : DataRow) (e0 : Editing)
    (edits : list (string * jsval)) (k : string) :
  k ∉ edits.*1 ->
  editedData (foldl (fun e kv => handleCellChange kv.1 kv.2 e)
                (startEditing rowIndex row e0) edits) !! k = row !! k.
Proof.
  induction edits as [|[k' v] edits IH] using rev_ind; intros Hk; [done |].
  rewrite edits_snoc. simpl. rewrite fmap_app in Hk.
  rewrite lookup_insert_ne.
  - apply IH. intros Hin. apply Hk. apply elem_of_app. by left.
  - intros ->. apply Hk. apply elem_of_app. right. simpl. by left.
Qed.

Lemma edits_last_write (rowIndex : nat) (row : DataRow) (e0 : Editing)
    (after : list (string * jsval)) : forall before k v,
  k ∉ after.*1 ->
  editedData (foldl (fun e kv => handleCellChange kv.1 kv.2 e)
                (startEditing rowIndex row e0) (before ++ (k, v) :: after)) !! k
  = Some v.
Proof.
  induction after as [|[k' v'] after IH] using rev_ind; intros before k v Hk.
  - rewrite edits_snoc. simpl. apply lookup_insert_eq.
  - rewrite app_comm_cons, app_assoc, edits_snoc. simpl.
    rewrite fmap_app in Hk. rewrite lookup_insert_ne.
    + apply IH. intros Hin. apply Hk. apply elem_of_app. by left.
    + intros ->. apply Hk. apply elem_of_app. right. simpl. by left.
Qed.

Lemma edits_keep_keys (rowIndex : nat) (row : DataRow) (e0 : Editing)
    (edits : list (string * jsval)) (k : string) :
  is_Some (row !! k) ->
  is_Some (editedData (foldl (fun e kv => handleCellChange kv.1 kv.2 e)
                         (startEditing rowIndex row e0) edits) !! k).
Proof.
  intros Hrow. induction edits as [|[k' v] edits IH] using rev_ind; [done |].
  rewrite edits_snoc. simpl. destruct (decide (k' = k)) as [-> | Hne].
  - rewrite lookup_insert_eq. by eexists.
  - by rewrite lookup_insert_ne.
Qed.

(** X18.  An edit session on a row: the buffer starts as a copy of the row, every
    cell change overwrites one key, so the buffer keeps every key of the
    row, a key that was not changed keeps the value of the row and a changed
    key has the value written last; saving calls [onUpdate] once, with the
    index the session was started with and the buffer, and cancelling calls
    nothing; both leave the table with no row in edit. *)
Theorem edit_session (rowIndex : nat) (row : DataRow)
    (edits : list (string * jsval)) (e0 : Editing) :
  let e := foldl (fun e kv => handleCellChange kv.1 kv.2 e)
             (startEditing rowIndex row e0) edits in
  (forall k, k ∉ edits.*1 -> editedData e !! k = row !! k)
  /\ (forall k, is_Some (row !! k) -> is_Some (editedData e !! k))
  /\ (forall before k v after,
        edits = before ++ (k, v) :: after -> k ∉ after.*1 ->
        editedData e !! k = Some v)
  /\ saveEditing true e = (Some (rowIndex, editedData e), idle)
  /\ saveEditing false e = (None, idle)
  /\ cancelEditing e = idle
  /\ saveEditing true (cancelEditing e) = (None, idle).
Proof.
  intros e. subst e. split; [| split; [| split; [| split; [| split]]]].
  - intros k. apply edits_untouched.
  - intros k. apply edits_keep_keys.
  - intros before k v after -> Hk. by apply edits_last_write.
  - unfold saveEditing. by rewrite edits_row.
  - unfold saveEditing. by rewrite edits_row.
  - done.
Qed.

Section Catalog.

Variable type_error_text : string.
Variable js_Number : jsval -> jsval.

(** What [handleUpdate] of the catalog page does with the buffer [data]
    saved at [rowIndex], where the list holds the row [at_k]. *)
Lemma catalog_update_at (settled : jsval + exn) (l : list slot)
    (rowIndex : nat) (at_k data : row) :
  read l rowIndex = Some at_k ->
  let ran := run_handler (fun _ => settled) id
               (Catalog.handleUpdate type_error_text js_Number rowIndex data) l in
  ran.2 = None
  /\ (exists product,
        calls ran.1 = [updateProduct (field at_k "product_id") product])
  /\ read (rows ran.1) rowIndex =
       Some (match settled with
             | inl _ => <["product_id" := field at_k "product_id"]> data
             | inr _ => merge (Some at_k) data
             end)
  /\ (forall i, i <> rowIndex -> read (rows ran.1) i = read l i).
Proof.
  intros Hread. unfold run_handler, Catalog.handleUpdate. rewrite Hread. simpl.
  destruct settled as [v | error]; simpl.
  - split; [done | split; [by eexists | split]].
    + by rewrite CoordinatorFacts.read_array_set_eq.
    + intros i Hi. rewrite CoordinatorFacts.read_array_set_ne by done.
      apply CoordinatorFacts.read_spread_array.
  - split; [done | split; [by eexists | split]].
    + by rewrite CoordinatorFacts.update_merged_row, Hread.
    + intros i Hi. by apply CoordinatorFacts.update_merged_others.
Qed.

(** A buffer that started as the row and kept its [product_id] is the row
    it overrides, under either way of writing it back. *)
Lemma buffer_written_back (settled : jsval + exn) (item data : row) :
  is_Some (item !! "product_id") ->
  data !! "product_id" = item !! "product_id" ->
  (forall k, is_Some (item !! k) -> is_Some (data !! k)) ->
  match settled with
  | inl _ => <["product_id" := field item "product_id"]> data
  | inr _ => merge (Some item) data
  end = data.
Proof.
  intros Hkey Hid Hfull. destruct settled as [v | error].
  - apply insert_id. rewrite Hid. unfold field. by destruct Hkey as [w ->].
  - unfold merge. simpl. apply map_eq. intros k.
    destruct (data !! k) as [w|] eqn:E.
    + by apply lookup_union_Some_l.
    + rewrite lookup_union_r by done.
      destruct (item !! k) as [w|] eqn:E'; [| done].
      destruct (Hfull k) as [w' Hw']; [by eexists | congruence].
Qed.

Lemma read_items (data : list DataRow) (i : nat) :
  read (Item <$> data) i = data !! i.
Proof. unfold read. rewrite list_lookup_fmap. by destruct (data !! i). Qed.

End Catalog.

Lemma filter_lookup {A : Type} (P : A -> Prop) `{!forall x, Decision (P x)}
    (l : list A) : forall k r,
  filter P l !! k = Some r ->
  exists j, l !! j = Some r /\ P r /\ length (filter P (take j l)) = k.
Proof.
  induction l as [|a l IH]; intros k r Hk; [done |].
  rewrite filter_cons in Hk. destruct (decide (P a)) as [Ha | Ha].
  - destruct k as [|k]; simpl in Hk.
    + injection Hk as ->. exists 0%nat. by rewrite take_0.
    + destruct (IH k r Hk) as (j & Hj & Hr & Hlen).
      exists (S j). split; [done | split; [done |]].
      simpl. rewrite filter_cons_True by done. simpl. by rewrite Hlen.
  - destruct (IH k r Hk) as (j & Hj & Hr & Hlen).
    exists (S j). split; [done | split; [done |]].
    simpl. by rewrite filter_cons_False.
Qed.

Lemma filter_all {A : Type} (P : A -> Prop) `{!forall x, Decision (P x)}
    (l : list A) :
  length (filter P l) = length l <-> Forall P l.
Proof.
  induction l as [|a l IH]; [by split; [constructor |] |].
  rewrite filter_cons. pose proof (length_filter P l) as Hle.
  destruct (decide (P a)) as [Ha | Ha]; simpl.
  - rewrite Forall_cons. split.
    + intros E. split; [done |]. apply IH. lia.
    + intros [_ Hl]. f_equal. by apply IH.
  - split; [lia |]. intros Hall. by apply Forall_cons in Hall as [? _].
Qed.

Section Search.

Variable trim : string -> string.
Variable lower : string -> string.
Variable contains : string -> string -> bool.
Variable type_error_text : string.
Variable js_Number : jsval -> jsval.

Local Abbreviation filteredData := (EditableTable.filteredData trim lower contains).
Local Abbreviation matches q :=
  (fun row => row_matches lower contains (lower q) row = true).

(** Where the row shown at position [k] of a search sits in the list. *)
Lemma shown_row_position (searchQuery : string) (data : list DataRow) (k : nat)
    (shown : DataRow) :
  String.eqb (trim searchQuery) "" = false ->
  filteredData searchQuery data !! k = Some shown ->
  exists j at_k,
    data !! j = Some shown /\ data !! k = Some at_k /\ (k <= j)%nat
    /\ length (filter (matches searchQuery) (take j data)) = k.
Proof.
  intros Hq Hk. unfold EditableTable.filteredData in Hk. rewrite Hq in Hk.
  apply filter_lookup in Hk as (j & Hj & _ & Hlen).
  assert (Hjlen : (j < length data)%nat) by (by eapply lookup_lt_Some).
  assert (Hle : (k <= j)%nat).
  { rewrite <- Hlen. etrans; [apply length_filter |]. rewrite length_take. lia. }
  destruct (lookup_lt_is_Some_2 data k) as [at_k Hat]; [lia |].
  by exists j, at_k.
Qed.

(** X19.  The catalog page holds the list [data] and shows it in the
    table; the pencil of the row shown at position [rowIndex] is clicked,
    the row is edited without touching its [product_id] (the column is not
    editable) and saved.  The table calls the page with [rowIndex] and the
    buffer, and the handler resolves.  With no search typed in, the row
    shown at [rowIndex] is the row of the list there: whether the call then
    succeeds or fails, the catalog shows the saved buffer at that row and
    the other rows as they were, and the call is addressed to the
    [product_id] of the row.  With a search typed in, the page takes the
    position in the view for a position in its whole list: the row [item]
    sits at a position [j >= rowIndex], the call is addressed to the
    product at position [rowIndex] of the list, and that row is the one
    written: the buffer under the [product_id] of that row after a
    successful call, that row overridden by the buffer after a failed one;
    every other row, the edited one included when [rowIndex < j], is as it
    was. *)
Theorem saved_edit_shows_in_catalog (settled : jsval + exn)
    (searchQuery : string) (data : list DataRow) (rowIndex : nat)
    (item : DataRow) (edits : list (string * jsval)) :
  filteredData searchQuery data !! rowIndex = Some item ->
  is_Some (item !! "product_id") ->
  "product_id" ∉ edits.*1 ->
  let e := foldl (fun e kv => handleCellChange kv.1 kv.2 e)
             (startEditing rowIndex item idle) edits in
  exists buffer,
    (saveEditing true e).1 = Some (rowIndex, buffer)
    /\ let ran := run_handler (fun _ => settled) id
                    (Catalog.handleUpdate type_error_text js_Number rowIndex buffer)
                    (Item <$> data) in
       ran.2 = None
       /\ (forall i, i <> rowIndex -> read (rows ran.1) i = data !! i)
       /\ (String.eqb (trim searchQuery) "" = true ->
             data !! rowIndex = Some item
             /\ read (rows ran.1) rowIndex = Some buffer
             /\ exists product,
                  calls ran.1 = [updateProduct (field item "product_id") product])
       /\ (String.eqb (trim searchQuery) "" = false ->
             exists j at_k,
               data !! j = Some item /\ data !! rowIndex = Some at_k
               /\ (rowIndex <= j)%nat
               /\ (rowIndex = j
                    <-> Forall (matches searchQuery) (take j data))
               /\ (exists product,
                     calls ran.1 = [updateProduct (field at_k "product_id") product])
               /\ read (rows ran.1) rowIndex =
                    Some (match settled with
                          | inl _ => <["product_id" := field at_k "product_id"]> buffer
                          | inr _ => merge (Some at_k) buffer
                          end)).
Proof.
  intros Hshown Hkey Hedits e.
  exists (editedData e). split.
  { subst e. unfold saveEditing. by rewrite edits_row. }
  assert (Hid : editedData e !! "product_id" = item !! "product_id").
  { subst e. by apply edits_untouched. }
  assert (Hfull : forall k, is_Some (item !! k) -> is_Some (editedData e !! k)).
  { intros k. subst e. apply edits_keep_keys. }
  destruct (String.eqb (trim searchQuery) "") eqn:Hq.
  - assert (Hat : data !! rowIndex = Some item).
    { unfold EditableTable.filteredData in Hshown. by rewrite Hq in Hshown. }
    destruct (catalog_update_at type_error_text js_Number settled (Item <$> data)
                rowIndex item (editedData e))
      as (Hres & Hcall & Hrow & Hothers).
    { by rewrite read_items. }
    split; [exact Hres |]. split.
    { intros i Hi. rewrite (Hothers i Hi). apply read_items. }
    split; [| done]. intros _. split; [done |]. split; [| done].
    rewrite Hrow. f_equal. by apply buffer_written_back.
  - destruct (shown_row_position searchQuery data rowIndex item Hq Hshown)
      as (j & at_k & Hj & Hat & Hle & Hlen).
    destruct (catalog_update_at type_error_text js_Number settled (Item <$> data)
                rowIndex at_k (editedData e))
      as (Hres & Hcall & Hrow & Hothers).
    { by rewrite read_items. }
    split; [exact Hres |]. split.
    { intros i Hi. rewrite (Hothers i Hi). apply read_items. }
    split; [done |]. intros _. exists j, at_k.
    split; [done | split; [done | split; [done | split; [| done]]]].
    assert (Hjlen : (j < length data)%nat) by (by eapply lookup_lt_Some).
    rewrite <- filter_all, Hlen, length_take. lia.
Qed.

(** X20.  With a search typed in, the table shows the rows that match and numbers
    them as shown; the delete button of the row shown at position [k] calls
    the page with [k], and the page takes [k] for a position in its whole
    list.  The row shown at [k] sits at a position [j >= k] of the list,
    with [j = k] only if every row before it matches too; the call is
    addressed to the product at position [k], that row is the one removed,
    and when [k < j] the row the user clicked is still in the list. *)
Theorem table_passes_view_index (remote : api_call -> jsval + exn)
    (searchQuery : string) (data : list DataRow) (k : nat) (shown : DataRow) :
  String.eqb (trim searchQuery) "" = false ->
  filteredData searchQuery data !! k = Some shown ->
  exists j at_k,
    data !! j = Some shown /\ data !! k = Some at_k /\ (k <= j)%nat
    /\ (k = j <-> Forall (matches searchQuery) (take j data))
    /\ EditableTable.handleDelete true true k = Some k
    /\ let ran := run_handler remote id
                    (Catalog.handleDelete type_error_text k) (Item <$> data) in
       calls ran.1 = [deleteProduct (field at_k "product_id")]
       /\ rows ran.1 = Item <$> delete k data
       /\ ((k < j)%nat -> read (rows ran.1) (j - 1) = Some shown).
Proof.
  intros Hq Hk. unfold EditableTable.filteredData in Hk. rewrite Hq in Hk.
  apply filter_lookup in Hk as (j & Hj & _ & Hlen).
  assert (Hjlen : (j < length data)%nat) by (by eapply lookup_lt_Some).
  assert (Hle : (k <= j)%nat).
  { rewrite <- Hlen. etrans; [apply length_filter |]. rewrite length_take. lia. }
  destruct (lookup_lt_is_Some_2 data k) as [at_k Hat]; [lia |].
  exists j, at_k. split; [done | split; [done | split; [done |]]].
  split; [| split; [done |]].
  - rewrite <- filter_all, Hlen, length_take. lia.
  - assert (Hread : read (Item <$> data) k = Some at_k).
    { unfold read. by rewrite list_lookup_fmap, Hat. }
    assert (Hrows : filter_out k (Item <$> data) = Item <$> delete k data).
    { rewrite CoordinatorFacts.filter_out_delete.
      - apply list_eq. intros i. rewrite list_lookup_fmap.
        destruct (decide (i < k)%nat).
        + rewrite !list_lookup_delete_lt by done. by rewrite list_lookup_fmap.
        + rewrite !list_lookup_delete_ge by lia. by rewrite list_lookup_fmap.
      - apply Forall_fmap, Forall_forall. by intros. }
    unfold run_handler, Catalog.handleDelete. rewrite Hread. simpl.
    assert (Hafter : (k < j)%nat -> read (Item <$> delete k data) (j - 1) = Some shown).
    { intros Hlt. unfold read. rewrite list_lookup_fmap.
      rewrite list_lookup_delete_ge by lia.
      replace (S (j - 1)) with j by lia. by rewrite Hj. }
    destruct (remote _); simpl; by rewrite Hrows.
Qed.

End Search.

(** The server is down.  With no search typed in, the kettle renamed in
    the first row shows under its new name.  With a search for "la" the
    lamp comes first in the view: its renaming is written over the kettle,
    the first row of the list, and the lamp itself stays as it was. *)
Lemma saved_edit_shows_in_catalog_witness :
  read (rows (run_handler (fun _ => inr Samples.server_down) id
                (Catalog.handleUpdate "TypeError" (fun v => v) 0
                   (<["name" := VStr "Jug"]> (product "P1" "Kettle")))
                (Item <$> three_products)).1) 0
  = Some (<["name" := VStr "Jug"]> (product "P1" "Kettle"))
  /\ read (rows (run_handler (fun _ => inr Samples.server_down) id
                   (Catalog.handleUpdate "TypeError" (fun v => v) 0
                      (<["name" := VStr "Desk lamp"]> (product "P2" "Lamp")))
                   (Item <$> three_products)).1) 0
    = Some (product "P2" "Desk lamp")
  /\ read (rows (run_handler (fun _ => inr Samples.server_down) id
                   (Catalog.handleUpdate "TypeError" (fun v => v) 0
                      (<["name" := VStr "Desk lamp"]> (product "P2" "Lamp")))
                   (Item <$> three_products)).1) 1
    = Some (product "P2" "Lamp").
Proof.
  assert (Hfresh : "product_id" ∉ [("name", VStr "Jug")].*1).
  { vm_compute. intros H.
    by repeat (apply elem_of_cons in H as [H | H]; [discriminate |]);
      apply elem_of_nil in H. }
  assert (Hfresh' : "product_id" ∉ [("name", VStr "Desk lamp")].*1).
  { vm_compute. intros H.
    by repeat (apply elem_of_cons in H as [H | H]; [discriminate |]);
      apply elem_of_nil in H. }
  destruct (saved_edit_shows_in_catalog (fun s => s) toLowerCase includes
              "TypeError" (fun v => v) (inr Samples.server_down) ""
              three_products 0 (product "P1" "Kettle") [("name", VStr "Jug")]
              eq_refl (ex_intro _ _ eq_refl) Hfresh)
    as (buffer & Hsave & _ & _ & Hblank & _).
  destruct (Hblank eq_refl) as (_ & Hrow & _).
  injection Hsave as <-.
  destruct (saved_edit_shows_in_catalog (fun s => s) toLowerCase includes
              "TypeError" (fun v => v) (inr Samples.server_down) "la"
              three_products 0 (product "P2" "Lamp")
              [("name", VStr "Desk lamp")]
              eq_refl (ex_intro _ _ eq_refl) Hfresh')
    as (buffer' & Hsave' & _ & Hothers & _ & Hsearch).
  destruct (Hsearch eq_refl) as (j & at_k & _ & Hat & _ & _ & _ & Hrow').
  injection Hsave' as <-. injection Hat as <-.
  split; [exact Hrow |]. split.
  - etrans; [exact Hrow' |]. vm_compute. reflexivity.
  - etrans; [apply (Hothers 1%nat); lia |]. reflexivity.
Defined.

(** A search for "la" shows the lamp and the laptop; the delete button of
    the lamp, first in the view, removes the kettle. *)
Lemma table_passes_view_index_witness :
  rows (run_handler (fun _ => inl VNull) id
          (Catalog.handleDelete "TypeError" 0) (Item <$> three_products)).1
  = Item <$> [product "P2" "Lamp"; product "P3" "Laptop"].
Proof.
  destruct (table_passes_view_index (fun s => s) toLowerCase includes "TypeError"
              (fun _ => inl VNull) "la" three_products 0 (product "P2" "Lamp"))
    as (j & at_k & _ & _ & _ & _ & _ & _ & Hrows & _).
  - reflexivity.
  - vm_compute. reflexivity.
  - exact Hrows.
Defined.

End EditableTableFacts.

(* ===================================================================== *)
(** * The dashboard pages and their dialogs *)
(* ===================================================================== *)

Module DashboardFacts.
Import Js Api Dashboard DashboardVocabulary.

Section Facts.

Variable type_error_text : string.
Variable network : nat -> request -> fetch_result.

Local Abbreviation settle := (Dashboard.settle type_error_text network).
Local Abbreviation send := (Dashboard.send type_error_text network).
Local Abbreviation upload_files := (Dashboard.upload_files type_error_text network).

(** ** The uploads at the head of every [handleUpload] *)

Lemma upload_files_first_rejected {C : Type} (catalogFile behaviourFile : option Page.File)
    (p : page C) (first : request) (e : exn) :
  head (plan catalogFile behaviourFile) = Some first ->
  settle (length (requests p)) first = Rejected e ->
  upload_files catalogFile behaviourFile p
  = ({| cells := cells p; notices := notices p;
        requests := requests p ++ [first] |}, inr e).
Proof.
  intros Hhead Hrej. unfold Dashboard.upload_files, bind, Dashboard.send, toast, ret.
  destruct catalogFile as [c|]; [| destruct behaviourFile as [b|]];
    simpl in Hhead; try discriminate; injection Hhead as <-;
    unfold Dashboard.settle in *; simpl; by rewrite Hrej.
Qed.

Lemma upload_files_resolved {C : Type} (catalogFile behaviourFile : option Page.File)
    (p : page C) :
  (forall i r, plan catalogFile behaviourFile !! i = Some r ->
     exists v, settle (length (requests p) + i) r = Resolved v) ->
  upload_files catalogFile behaviourFile p
  = ({| cells := cells p;
        notices := notices p ++ uploaded catalogFile behaviourFile;
        requests := requests p ++ plan catalogFile behaviourFile |}, inl tt).
Proof.
  intros Hall. unfold Dashboard.upload_files, bind, Dashboard.send, toast, ret.
  unfold Dashboard.settle in *.
  destruct catalogFile as [c|]; destruct behaviourFile as [b|]; simpl.
  - destruct (Hall 0%nat (uploadProducts c) eq_refl) as [v Hv].
    destruct (Hall 1%nat (uploadUserBehavior b) eq_refl) as [v' Hv'].
    rewrite Nat.add_0_r in Hv. rewrite Hv. simpl.
    rewrite length_app. simpl. rewrite Hv'.
    by rewrite <- !app_assoc.
  - destruct (Hall 0%nat (uploadProducts c) eq_refl) as [v Hv].
    rewrite Nat.add_0_r in Hv. rewrite Hv. simpl. by rewrite ?app_nil_r.
  - destruct (Hall 0%nat (uploadUserBehavior b) eq_refl) as [v Hv].
    rewrite Nat.add_0_r in Hv. rewrite Hv. done.
  - rewrite ?app_nil_r. by destruct p.
Qed.

(** ** The list refreshes *)

(** What a rejected [apiFetch] gives to [error instanceof Error ?
    error.message : fallback]: always the message. *)
Lemma rejected_message (fallback : string) (r : fetch_result) (e : exn) :
  apiFetch type_error_text r = Rejected e ->
  exists message, e = Error_ message /\ message_or fallback e = message.
Proof.
  unfold apiFetch.
  destruct r as [status statusText b | [m | v]]; simpl.
  - unfold settle_response. destruct (negb (ok status)).
    + destruct (error_argument _ _ _ _); intros [= <-]; by eexists.
    + destruct b; [discriminate |]. intros [= <-]. by eexists.
  - intros [= <-]. by eexists.
  - intros [= <-]. by eexists.
Qed.

(** X21.  The refresh of the behaviour page, and of the catalog page, settles
    without throwing whatever the network does: one request is sent,
    [isRefreshing] is false afterwards and [isLoading] untouched.  When the
    request is rejected the rows stay as they were; the automatic refresh
    ([showToast] false) then shows nothing, and the refresh button shows the
    message of the error, never the fallback ["Using local data"], since what
    [apiFetch] rejects with is always an [Error].  The load of the stored
    recommendations when the dashboard opens is silent in the same way: it
    returns, shows no notification, leaves [isLoading] false, and keeps
    what the page showed when the request is rejected. *)
Theorem refresh_settles (showToast : bool) :
  (forall p : page BehaviourPage.state,
     let r := BehaviourPage.fetchBehaviors type_error_text network showToast p in
     r.2 = inl tt
     /\ requests r.1 = requests p ++ [getBehaviors]
     /\ BehaviourPage.isRefreshing (cells r.1) = false
     /\ BehaviourPage.isLoading (cells r.1) = BehaviourPage.isLoading (cells p)
     /\ match settle (length (requests p)) getBehaviors with
        | Resolved data =>
            BehaviourPage.behaviour (cells r.1)
            = Normalizer.fetchBehaviors data (BehaviourPage.behaviour (cells p))
            /\ notices r.1 = notices p ++
                 (if showToast
                  then [note_success "Behaviors refreshed successfully"] else [])
        | Rejected e =>
            BehaviourPage.behaviour (cells r.1) = BehaviourPage.behaviour (cells p)
            /\ exists message,
                 e = Error_ message
                 /\ notices r.1 = notices p ++
                      (if showToast
                       then [note_error "Failed to fetch behaviors" (Some message)]
                       else [])
        end)
  /\ (forall p : page CatalogPage.state,
        let r := CatalogPage.fetchProducts type_error_text network showToast p in
        r.2 = inl tt
        /\ requests r.1 = requests p ++ [getProducts]
        /\ CatalogPage.isRefreshing (cells r.1) = false
        /\ CatalogPage.isLoading (cells r.1) = CatalogPage.isLoading (cells p)
        /\ match settle (length (requests p)) getProducts with
           | Resolved data =>
               CatalogPage.catalog (cells r.1)
               = Normalizer.fetchProducts data (CatalogPage.catalog (cells p))
               /\ notices r.1 = notices p ++
                    (if showToast
                     then [note_success "Products refreshed successfully"] else [])
           | Rejected e =>
               CatalogPage.catalog (cells r.1) = CatalogPage.catalog (cells p)
               /\ exists message,
                    e = Error_ message
                    /\ notices r.1 = notices p ++
                         (if showToast
                          then [note_error "Failed to fetch products" (Some message)]
                          else [])
           end)
  /\ (forall p : page RecommendationsPage.state,
        let r := RecommendationsPage.fetchStoredRecommendations type_error_text
                   network p in
        r.2 = inl tt
        /\ notices r.1 = notices p
        /\ requests r.1 = requests p ++ [getAllStoredRecommendations]
        /\ RecommendationsPage.isLoading (cells r.1) = false
        /\ RecommendationsPage.shown (cells r.1)
           = match settle (length (requests p)) getAllStoredRecommendations with
             | Resolved data =>
                 Normalizer.fetchStoredRecommendations data
                   (RecommendationsPage.shown (cells p))
             | Rejected _ => RecommendationsPage.shown (cells p)
             end).
Proof.
  split; [| split]; intros p r; subst r;
    [| | unfold RecommendationsPage.fetchStoredRecommendations, finally,
           try_catch, bind, Dashboard.send, update, ret; simpl;
         by destruct (apiFetch _ _)];
    unfold BehaviourPage.fetchBehaviors, CatalogPage.fetchProducts,
      finally, try_catch, bind, Dashboard.send, update, when, toast, ret;
    simpl;
    destruct (apiFetch _ _) as [data | e] eqn:E; simpl.
  - destruct showToast; simpl; repeat split; try done; by rewrite app_nil_r.
  - destruct (rejected_message "Using local data" _ _ E) as (m & -> & _).
    destruct showToast; simpl; repeat split; try done; exists m;
      by rewrite ?app_nil_r.
  - destruct showToast; simpl; repeat split; try done; by rewrite app_nil_r.
  - destruct (rejected_message "Using local data" _ _ E) as (m & -> & _).
    destruct showToast; simpl; repeat split; try done; exists m;
      by rewrite ?app_nil_r.
Qed.

Lemma fetchBehaviors_run (showToast : bool) (p : page BehaviourPage.state) :
  BehaviourPage.fetchBehaviors type_error_text network showToast p
  = match settle (length (requests p)) getBehaviors with
    | Resolved data =>
        ({| cells :=
              {| BehaviourPage.behaviour :=
                   Normalizer.fetchBehaviors data (BehaviourPage.behaviour (cells p));
                 BehaviourPage.isLoading := BehaviourPage.isLoading (cells p);
                 BehaviourPage.isRefreshing := false |};
            notices := notices p ++
              (if showToast
               then [note_success "Behaviors refreshed successfully"] else []);
            requests := requests p ++ [getBehaviors] |}, inl tt)
    | Rejected e =>
        ({| cells :=
              {| BehaviourPage.behaviour := BehaviourPage.behaviour (cells p);
                 BehaviourPage.isLoading := BehaviourPage.isLoading (cells p);
                 BehaviourPage.isRefreshing := false |};
            notices := notices p ++
              (if showToast
               then [note_error "Failed to fetch behaviors"
                       (Some (message_or "Using local data" e))] else []);
            requests := requests p ++ [getBehaviors] |}, inl tt)
    end.
Proof.
  unfold BehaviourPage.fetchBehaviors, finally, try_catch, bind, Dashboard.send,
    update, when, toast, ret. simpl.
  destruct (apiFetch _ _); destruct showToast; simpl; by rewrite ?app_nil_r.
Qed.

Lemma fetchProducts_run (showToast : bool) (p : page CatalogPage.state) :
  CatalogPage.fetchProducts type_error_text network showToast p
  = match settle (length (requests p)) getProducts with
    | Resolved data =>
        ({| cells :=
              {| CatalogPage.catalog :=
                   Normalizer.fetchProducts data (CatalogPage.catalog (cells p));
                 CatalogPage.isLoading := CatalogPage.isLoading (cells p);
                 CatalogPage.isRefreshing := false |};
            notices := notices p ++
              (if showToast
               then [note_success "Products refreshed successfully"] else []);
            requests := requests p ++ [getProducts] |}, inl tt)
    | Rejected e =>
        ({| cells :=
              {| CatalogPage.catalog := CatalogPage.catalog (cells p);
                 CatalogPage.isLoading := CatalogPage.isLoading (cells p);
                 CatalogPage.isRefreshing := false |};
            notices := notices p ++
              (if showToast
               then [note_error "Failed to fetch products"
                       (Some (message_or "Using local data" e))] else []);
            requests := requests p ++ [getProducts] |}, inl tt)
    end.
Proof.
  unfold CatalogPage.fetchProducts, finally, try_catch, bind, Dashboard.send,
    update, when, toast, ret. simpl.
  destruct (apiFetch _ _); destruct showToast; simpl; by rewrite ?app_nil_r.
Qed.

(** ** The uploads of the pages *)

Lemma behaviour_upload_unfold (catalogFile behaviourFile : option Page.File)
    (p : page BehaviourPage.state) :
  BehaviourPage.handleUpload type_error_text network catalogFile behaviourFile p
  = let p1 := {| cells := BehaviourPage.setIsLoading true (cells p);
                 notices := notices p; requests := requests p |} in
    match upload_files catalogFile behaviourFile p1 with
    | (p2, inl _) =>
        let r := BehaviourPage.fetchBehaviors type_error_text network false p2 in
        ({| cells := BehaviourPage.setIsLoading false (cells r.1);
            notices := notices r.1; requests := requests r.1 |}, inl tt)
    | (p2, inr e) =>
        ({| cells := BehaviourPage.setIsLoading false (cells p2);
            notices := notices p2
              ++ [note_error "Upload failed" (Some (message_or "Please try again" e))];
            requests := requests p2 |}, inl tt)
    end.
Proof.
  unfold BehaviourPage.handleUpload, finally, try_catch, bind, update, toast.
  simpl. destruct (upload_files _ _ _) as [p2 [[] | e]]; [| done].
  rewrite fetchBehaviors_run. by destruct (settle _ _).
Qed.

Lemma catalog_upload_unfold (catalogFile behaviourFile : option Page.File)
    (p : page CatalogPage.state) :
  CatalogPage.handleUpload type_error_text network catalogFile behaviourFile p
  = let p1 := {| cells := CatalogPage.setIsLoading true (cells p);
                 notices := notices p; requests := requests p |} in
    match upload_files catalogFile behaviourFile p1 with
    | (p2, inl _) =>
        let r := CatalogPage.fetchProducts type_error_text network false p2 in
        ({| cells := CatalogPage.setIsLoading false (cells r.1);
            notices := notices r.1; requests := requests r.1 |}, inl tt)
    | (p2, inr e) =>
        ({| cells := CatalogPage.setIsLoading false (cells p2);
            notices := notices p2
              ++ [note_error "Upload failed" (Some (message_or "Please try again" e))];
            requests := requests p2 |}, inl tt)
    end.
Proof.
  unfold CatalogPage.handleUpload, finally, try_catch, bind, update, toast.
  simpl. destruct (upload_files _ _ _) as [p2 [[] | e]]; [| done].
  rewrite fetchProducts_run. by destruct (settle _ _).
Qed.

Lemma recommendations_upload_unfold
    (catalogFile behaviourFile : option Page.File)
    (p : page RecommendationsPage.state) :
  RecommendationsPage.handleUpload type_error_text network catalogFile behaviourFile p
  = match upload_files catalogFile behaviourFile p with
    | (p2, inl _) =>
        ({| cells := cells p2;
            notices := notices p2
              ++ [note_info "Files uploaded! Click 'Generate' to create new recommendations."
                    None];
            requests := requests p2 |}, inl tt)
    | (p2, inr e) =>
        ({| cells := cells p2;
            notices := notices p2
              ++ [note_error "Upload failed" (Some (message_or "Please try again" e))];
            requests := requests p2 |}, inl tt)
    end.
Proof.
  unfold RecommendationsPage.handleUpload, try_catch, bind, toast.
  by destruct (upload_files _ _ _) as [p2 [[] | e]].
Qed.

Lemma behaviour_upload_returns (catalogFile behaviourFile : option Page.File)
    (p : page BehaviourPage.state) :
  (BehaviourPage.handleUpload type_error_text network catalogFile behaviourFile p).2
  = inl tt.
Proof.
  rewrite behaviour_upload_unfold. cbv zeta.
  by destruct (upload_files _ _ _) as [p2 [[] | e]].
Qed.

Lemma catalog_upload_returns (catalogFile behaviourFile : option Page.File)
    (p : page CatalogPage.state) :
  (CatalogPage.handleUpload type_error_text network catalogFile behaviourFile p).2
  = inl tt.
Proof.
  rewrite catalog_upload_unfold. cbv zeta.
  by destruct (upload_files _ _ _) as [p2 [[] | e]].
Qed.

Lemma recommendations_upload_returns (catalogFile behaviourFile : option Page.File)
    (p : page RecommendationsPage.state) :
  (RecommendationsPage.handleUpload type_error_text network catalogFile
     behaviourFile p).2 = inl tt.
Proof.
  rewrite recommendations_upload_unfold.
  by destruct (upload_files _ _ _) as [p2 [[] | e]].
Qed.

(** X22.  When the first upload a page is asked for is rejected, nothing else is
    sent: not the second file, not the refresh.  The handler itself returns;
    the page shows ["Upload failed"] with the message of the error, its rows
    are untouched and [isLoading] is false again. *)
Theorem failed_upload_stops_the_sequence
    (catalogFile behaviourFile : option Page.File) (first : request) (e : exn) :
  head (plan catalogFile behaviourFile) = Some first ->
  let failed := note_error "Upload failed" (Some (message_or "Please try again" e)) in
  (forall p : page BehaviourPage.state,
     settle (length (requests p)) first = Rejected e ->
     BehaviourPage.handleUpload type_error_text network catalogFile behaviourFile p
     = ({| cells := BehaviourPage.setIsLoading false (cells p);
           notices := notices p ++ [failed];
           requests := requests p ++ [first] |}, inl tt))
  /\ (forall p : page CatalogPage.state,
        settle (length (requests p)) first = Rejected e ->
        CatalogPage.handleUpload type_error_text network catalogFile behaviourFile p
        = ({| cells := CatalogPage.setIsLoading false (cells p);
              notices := notices p ++ [failed];
              requests := requests p ++ [first] |}, inl tt))
  /\ (forall p : page RecommendationsPage.state,
        settle (length (requests p)) first = Rejected e ->
        RecommendationsPage.handleUpload type_error_text network catalogFile
          behaviourFile p
        = ({| cells := cells p;
              notices := notices p ++ [failed];
              requests := requests p ++ [first] |}, inl tt)).
Proof.
  intros Hhead failed. split; [| split]; intros p Hrej.
  - rewrite behaviour_upload_unfold. cbv zeta.
    by rewrite (upload_files_first_rejected _ _ _ first e).
  - rewrite catalog_upload_unfold. cbv zeta.
    by rewrite (upload_files_first_rejected _ _ _ first e).
  - rewrite recommendations_upload_unfold.
    by rewrite (upload_files_first_rejected _ _ _ first e).
Qed.

(** X23.  When every upload asked for resolves, the behaviour page and the
    catalog page send them in order, the catalog file first, then ask for
    their list again.  The notifications are those of the uploads alone: the
    refresh is silent, so when it is rejected the page keeps its rows and
    shows nothing about it.  [isLoading] and [isRefreshing] are false at the
    end. *)
Theorem upload_then_silent_refresh (catalogFile behaviourFile : option Page.File) :
  (forall p : page BehaviourPage.state,
     (forall i r, plan catalogFile behaviourFile !! i = Some r ->
        exists v, settle (length (requests p) + i) r = Resolved v) ->
     let r := BehaviourPage.handleUpload type_error_text network catalogFile
                behaviourFile p in
     r.2 = inl tt
     /\ requests r.1 = requests p ++ plan catalogFile behaviourFile ++ [getBehaviors]
     /\ notices r.1 = notices p ++ uploaded catalogFile behaviourFile
     /\ BehaviourPage.isLoading (cells r.1) = false
     /\ BehaviourPage.isRefreshing (cells r.1) = false
     /\ BehaviourPage.behaviour (cells r.1)
        = match settle (length (requests p)
                        + length (plan catalogFile behaviourFile)) getBehaviors with
          | Resolved data =>
              Normalizer.fetchBehaviors data (BehaviourPage.behaviour (cells p))
          | Rejected _ => BehaviourPage.behaviour (cells p)
          end)
  /\ (forall p : page CatalogPage.state,
        (forall i r, plan catalogFile behaviourFile !! i = Some r ->
           exists v, settle (length (requests p) + i) r = Resolved v) ->
        let r := CatalogPage.handleUpload type_error_text network catalogFile
                   behaviourFile p in
        r.2 = inl tt
        /\ requests r.1 = requests p ++ plan catalogFile behaviourFile ++ [getProducts]
        /\ notices r.1 = notices p ++ uploaded catalogFile behaviourFile
        /\ CatalogPage.isLoading (cells r.1) = false
        /\ CatalogPage.isRefreshing (cells r.1) = false
        /\ CatalogPage.catalog (cells r.1)
           = match settle (length (requests p)
                           + length (plan catalogFile behaviourFile)) getProducts with
             | Resolved data =>
                 Normalizer.fetchProducts data (CatalogPage.catalog (cells p))
             | Rejected _ => CatalogPage.catalog (cells p)
             end).
Proof.
  split; intros p Hall r; subst r.
  - rewrite behaviour_upload_unfold. cbv zeta.
    rewrite upload_files_resolved by exact Hall.
    rewrite fetchBehaviors_run. cbn [requests]. rewrite length_app.
    destruct (settle _ getBehaviors); simpl;
      by rewrite app_nil_r, <- app_assoc.
  - rewrite catalog_upload_unfold. cbv zeta.
    rewrite upload_files_resolved by exact Hall.
    rewrite fetchProducts_run. cbn [requests]. rewrite length_app.
    destruct (settle _ getProducts); simpl;
      by rewrite app_nil_r, <- app_assoc.
Qed.

Ltac frame := (split; [done |]); (split; [done |]); (split; [| done]).

(** X24.  [uploadBothFiles] sends the products file, then the behaviour file, and
    resolves with the answers under [products] and [behavior]; when an
    upload is rejected it rejects with the same error and sends nothing the
    more; without files it resolves with an empty object and sends
    nothing.  It shows nothing and touches no cell. *)
Theorem uploadBothFiles_in_order {C : Type}
    (productsFile behaviorFile : option Page.File) (p : page C) :
  let r := uploadBothFiles type_error_text network productsFile behaviorFile p in
  cells r.1 = cells p /\ notices r.1 = notices p
  /\ (exists sent, requests r.1 = requests p ++ sent
        /\ sent `prefix_of` plan productsFile behaviorFile
        /\ match r.2 with
           | inl results =>
               sent = plan productsFile behaviorFile
               /\ (is_Some (results !! "products") <-> is_Some productsFile)
               /\ (is_Some (results !! "behavior") <-> is_Some behaviorFile)
               /\ (forall i q v, sent !! i = Some q ->
                     settle (length (requests p) + i) q = Resolved v ->
                     results !! (match q with
                                 | uploadProducts _ => "products"
                                 | _ => "behavior"
                                 end) = Some v)
           | inr e =>
               exists done_before q,
                 sent = done_before ++ [q]
                 /\ settle (length (requests p) + length done_before) q = Rejected e
           end)
  /\ (productsFile = None -> behaviorFile = None -> r = (p, inl ∅)).
Proof.
  intros r. subst r. unfold uploadBothFiles, bind, Dashboard.send, ret.
  unfold Dashboard.settle.
  assert (Hkeys : forall (m : gmap string jsval) k (o : option Page.File),
            (is_Some o -> is_Some (m !! k)) -> (o = None -> m !! k = None) ->
            is_Some (m !! k) <-> is_Some o).
  { intros m k [f|] H1 H2.
    - split; [by eexists | done].
    - rewrite H2 by done. split; by intros [? ?]. }
  destruct productsFile as [c|]; destruct behaviorFile as [b|]; simpl.
  - destruct (uploadFile _ (network (length (requests p)) _)) as [v | e] eqn:E1;
      simpl.
    + destruct (uploadFile _ (network (length (requests p ++ _)) _))
        as [v' | e'] eqn:E2; simpl; frame;
        exists [uploadProducts c; uploadUserBehavior b];
        (split; [by rewrite <- app_assoc |]); (split; [done |]).
      * split; [done |]. split; [| split].
        -- apply Hkeys; [| done]. intros _.
           rewrite lookup_insert_ne by done. rewrite lookup_insert_eq. by eexists.
        -- apply Hkeys; [| done]. intros _. rewrite lookup_insert_eq. by eexists.
        -- intros [|[|i]] q w Hq Hw; simpl in Hq; try done;
             injection Hq as <-.
           ++ rewrite Nat.add_0_r in Hw. rewrite E1 in Hw. injection Hw as <-.
              rewrite lookup_insert_ne by done. apply lookup_insert_eq.
           ++ rewrite length_app in E2. simpl in E2. rewrite E2 in Hw.
              injection Hw as <-. apply lookup_insert_eq.
      * exists [uploadProducts c], (uploadUserBehavior b).
        rewrite length_app in E2. by rewrite E2.
    + frame. exists [uploadProducts c].
      split; [done |]. split; [by exists [uploadUserBehavior b] |].
      exists [], (uploadProducts c). simpl. by rewrite Nat.add_0_r, E1.
  - destruct (uploadFile _ _) as [v | e] eqn:E1; simpl; frame;
      exists [uploadProducts c]; (split; [done |]); (split; [done |]).
    + split; [done |]. split; [| split].
      * apply Hkeys; [| done]. intros _. rewrite lookup_insert_eq. by eexists.
      * apply Hkeys; [by intros [? ?] |]. intros _.
        by rewrite lookup_insert_ne.
      * intros [|i] q w Hq Hw; simpl in Hq; try done. injection Hq as <-.
        rewrite Nat.add_0_r in Hw. rewrite E1 in Hw. injection Hw as <-.
        apply lookup_insert_eq.
    + exists [], (uploadProducts c). simpl. by rewrite Nat.add_0_r, E1.
  - destruct (uploadFile _ _) as [v | e] eqn:E1; simpl; frame;
      exists [uploadUserBehavior b]; (split; [done |]); (split; [done |]).
    + split; [done |]. split; [| split].
      * apply Hkeys; [by intros [? ?] |]. intros _.
        by rewrite lookup_insert_ne.
      * apply Hkeys; [| done]. intros _. rewrite lookup_insert_eq. by eexists.
      * intros [|i] q w Hq Hw; simpl in Hq; try done. injection Hq as <-.
        rewrite Nat.add_0_r in Hw. rewrite E1 in Hw. injection Hw as <-.
        apply lookup_insert_eq.
    + exists [], (uploadUserBehavior b). simpl. by rewrite Nat.add_0_r, E1.
  - split; [done |]. split; [done |]. split; [| by destruct p].
    exists []. rewrite app_nil_r. split; [done |]. split; [done |].
    split; [done |]. split; [| split]; try done; apply Hkeys; try done;
      by intros [? ?].
Qed.

(** ** The recommendations page of the dashboard *)

(** X25.  Generating recommendations returns whatever the network does and
    leaves [isGenerating] false.  With a blank user id it only shows
    ["Please enter a User ID"] and sends nothing.  Otherwise it sends one
    request for that user; when the request is rejected the recommendations
    and the explanation stay as they were and the error shown carries the
    message of the rejection; when it resolves with rows, under
    [recommendations] or as a bare array, the rows are adopted and the
    notification counts exactly the rows adopted. *)
Theorem generate_recommendations (trim : string -> string)
    (p : page RecommendationsPage.state) :
  let userId := RecommendationsPage.userId (cells p) in
  let r := RecommendationsPage.handleGenerateRecommendations type_error_text
             network trim p in
  let started := note_info "Generating recommendations..."
    (Some "This may take a moment as we analyze user behavior and product data.") in
  r.2 = inl tt
  /\ (String.eqb (trim userId) "" = true ->
        r.1 = {| cells := cells p;
                 notices := notices p ++ [note_error "Please enter a User ID" None];
                 requests := requests p |})
  /\ (String.eqb (trim userId) "" = false ->
        requests r.1 = requests p ++ [generateRecommendations userId]
        /\ RecommendationsPage.isGenerating (cells r.1) = false
        /\ match settle (length (requests p)) (generateRecommendations userId) with
           | Resolved data =>
               RecommendationsPage.shown (cells r.1)
               = Normalizer.handleGenerateRecommendations data
                   (RecommendationsPage.shown (cells p))
               /\ exists title,
                    notices r.1 = notices p ++ [started; note_success title]
                    /\ (forall l,
                          Normalizer.array_field data "recommendations" = Some l
                          \/ (Normalizer.array_field data "recommendations" = None
                              /\ Normalizer.as_array data = Some l) ->
                          title = RecommendationsPage.generated (length l)
                          /\ Normalizer.recommendations
                               (RecommendationsPage.shown (cells r.1)) = l)
           | Rejected e =>
               RecommendationsPage.shown (cells r.1)
               = RecommendationsPage.shown (cells p)
               /\ exists message,
                    e = Error_ message
                    /\ notices r.1 = notices p
                         ++ [started;
                             note_error "Failed to generate recommendations"
                               (Some message)]
           end).
Proof.
  intros userId r started. subst r userId.
  unfold RecommendationsPage.handleGenerateRecommendations. cbv beta.
  destruct (String.eqb (trim (RecommendationsPage.userId (cells p))) "") eqn:Eid.
  { split; [done |]. split; [done | discriminate]. }
  unfold finally, try_catch, bind, Dashboard.send, update, toast, ret. simpl.
  destruct (apiFetch _ _) as [data | e] eqn:E; simpl.
  - split; [done |]. split; [discriminate |]. intros _.
    split; [done |]. split; [done |]. split; [done |].
    eexists. split; [by rewrite <- app_assoc |].
    intros l [Hl | [Hnone Hl]]; unfold Normalizer.handleGenerateRecommendations.
    + by rewrite Hl.
    + by rewrite Hnone, Hl.
  - destruct (rejected_message "Please try again" _ _ E) as (m & -> & _).
    split; [done |]. split; [discriminate |]. intros _.
    split; [done |]. split; [done |]. split; [done |].
    exists m. split; [done |]. by rewrite <- app_assoc.
Qed.

(** ** The upload dialog in front of a page *)

(** X26.  The upload dialog in front of any of the three pages: once a file is
    chosen, the upload button always ends with the dialog closed, both files
    cleared and no error in the dialog, whatever the network did, because
    the [handleUpload] of the pages never throws; the page is left as its
    own handler leaves it, so a failed upload is only told by the
    notification of the page. *)
Theorem dialog_closes_whatever_the_upload (d : UploadDialog.dialog) :
  is_Some (UploadDialog.catalogFile d) \/ is_Some (UploadDialog.behaviourFile d) ->
  let closed := {| UploadDialog.open := false; UploadDialog.catalogFile := None;
                   UploadDialog.behaviourFile := None;
                   UploadDialog.isUploading := false; UploadDialog.error := "" |} in
  (forall p,
     UploadDialog.handleUpload
       (Some (BehaviourPage.handleUpload type_error_text network)) d p
     = (closed, (BehaviourPage.handleUpload type_error_text network
                   (UploadDialog.catalogFile d) (UploadDialog.behaviourFile d) p).1))
  /\ (forall p,
        UploadDialog.handleUpload
          (Some (CatalogPage.handleUpload type_error_text network)) d p
        = (closed, (CatalogPage.handleUpload type_error_text network
                      (UploadDialog.catalogFile d) (UploadDialog.behaviourFile d) p).1))
  /\ (forall p,
        UploadDialog.handleUpload
          (Some (RecommendationsPage.handleUpload type_error_text network)) d p
        = (closed, (RecommendationsPage.handleUpload type_error_text network
                      (UploadDialog.catalogFile d) (UploadDialog.behaviourFile d) p).1)).
Proof.
  intros Hfile closed. split; [| split]; intros p; unfold UploadDialog.handleUpload.
  - pose proof (behaviour_upload_returns (UploadDialog.catalogFile d)
                  (UploadDialog.behaviourFile d) p) as Hret.
    destruct (UploadDialog.catalogFile d) eqn:Ec;
      destruct (UploadDialog.behaviourFile d) eqn:Eb; simpl;
      try (destruct Hfile as [[? ?] | [? ?]]; discriminate);
      rewrite ?Ec, ?Eb;
      destruct (BehaviourPage.handleUpload _ _ _ _ _) as [w [[] | e]];
      by simpl in Hret.
  - pose proof (catalog_upload_returns (UploadDialog.catalogFile d)
                  (UploadDialog.behaviourFile d) p) as Hret.
    destruct (UploadDialog.catalogFile d) eqn:Ec;
      destruct (UploadDialog.behaviourFile d) eqn:Eb; simpl;
      try (destruct Hfile as [[? ?] | [? ?]]; discriminate);
      rewrite ?Ec, ?Eb;
      destruct (CatalogPage.handleUpload _ _ _ _ _) as [w [[] | e]];
      by simpl in Hret.
  - pose proof (recommendations_upload_returns (UploadDialog.catalogFile d)
                  (UploadDialog.behaviourFile d) p) as Hret.
    destruct (UploadDialog.catalogFile d) eqn:Ec;
      destruct (UploadDialog.behaviourFile d) eqn:Eb; simpl;
      try (destruct Hfile as [[? ?] | [? ?]]; discriminate);
      rewrite ?Ec, ?Eb;
      destruct (RecommendationsPage.handleUpload _ _ _ _ _) as [w [[] | e]];
      by simpl in Hret.
Qed.

End Facts.

Lemma failed_upload_stops_the_sequence_witness :
  requests (BehaviourPage.handleUpload "TypeError" refusing
              (Some Samples.small_csv) (Some Samples.small_csv)
              fresh_behaviour_page).1
  = [uploadProducts Samples.small_csv].
Proof.
  rewrite (proj1 (failed_upload_stops_the_sequence "TypeError" refusing
                    (Some Samples.small_csv) (Some Samples.small_csv)
                    (uploadProducts Samples.small_csv) (Error_ "database is down")
                    eq_refl) fresh_behaviour_page eq_refl).
  reflexivity.
Defined.

(** The server refuses the catalog file; the dialog closes all the same. *)
Lemma dialog_closes_whatever_the_upload_witness :
  let d := UploadDialog.handleCatalogChange (Some Samples.small_csv)
             UploadDialog.initial in
  let r := UploadDialog.handleUpload
             (Some (BehaviourPage.handleUpload "TypeError" refusing)) d
             fresh_behaviour_page in
  UploadDialog.open r.1 = false
  /\ notices r.2 = [note_error "Upload failed" (Some "database is down")].
Proof.
  cbv zeta.
  rewrite (proj1 (dialog_closes_whatever_the_upload "TypeError" refusing
                    (UploadDialog.handleCatalogChange (Some Samples.small_csv)
                       UploadDialog.initial)
                    (or_introl (ex_intro _ Samples.small_csv eq_refl)))
             fresh_behaviour_page).
  split; reflexivity.
Defined.

End DashboardFacts.

Module DialogFacts.
Import Js Coordinator Vocabulary.

(** ** The upload dialog *)

(** X27.  Whatever files the user picks and removes, the dialog only ever holds
    CSV files: a pick that is not a CSV file sets the error of its slot and
    leaves the file chosen before in place, a pick that is one replaces it
    and clears the error; and an upload never puts a file in a slot. *)
Theorem upload_dialog_holds_csv_only (actions : list UploadDialog.Action) :
  let d := foldl UploadDialog.step UploadDialog.initial actions in
  (forall f, UploadDialog.catalogFile d = Some f -> declared_csv f)
  /\ (forall f, UploadDialog.behaviourFile d = Some f -> declared_csv f)
  /\ (forall f, Page.isCSV f = false ->
        let d' := UploadDialog.handleCatalogChange (Some f) d in
        UploadDialog.catalogFile d' = UploadDialog.catalogFile d
        /\ UploadDialog.error d'
           = "Please select a valid CSV file for product catalog")
  /\ (forall f, Page.isCSV f = true ->
        let d' := UploadDialog.handleBehaviourChange (Some f) d in
        UploadDialog.behaviourFile d' = Some f /\ UploadDialog.error d' = "")
  /\ (forall (W : Type) onUpload (w : W),
        let d' := (UploadDialog.handleUpload onUpload d w).1 in
        (UploadDialog.catalogFile d' = UploadDialog.catalogFile d
         \/ UploadDialog.catalogFile d' = None)
        /\ (UploadDialog.behaviourFile d' = UploadDialog.behaviourFile d
            \/ UploadDialog.behaviourFile d' = None)).
Proof.
  intros d.
  assert (Hcsv : (forall f, UploadDialog.catalogFile d = Some f -> Page.isCSV f = true)
                 /\ (forall f, UploadDialog.behaviourFile d = Some f ->
                       Page.isCSV f = true)).
  { subst d. induction actions as [|a actions IH] using rev_ind; [done |].
    rewrite foldl_app. simpl. destruct IH as [IHc IHb].
    destruct a as [v | [file|] | [file|] | |]; simpl; try done.
    - destruct (Page.isCSV file) eqn:E; simpl; [| done].
      split; [| done]. by intros f [= <-].
    - destruct (Page.isCSV file) eqn:E; simpl; [| done].
      split; [done |]. by intros f [= <-]. }
  destruct Hcsv as [Hc Hb].
  split; [| split; [| split; [| split]]].
  - intros f Hf. apply StagerFacts.isCSV_spec. by apply Hc.
  - intros f Hf. apply StagerFacts.isCSV_spec. by apply Hb.
  - intros f Hf. simpl. by rewrite Hf.
  - intros f Hf. simpl. by rewrite Hf.
  - intros W onUpload w. unfold UploadDialog.handleUpload.
    destruct (UploadDialog.catalogFile d) eqn:Ec;
      destruct (UploadDialog.behaviourFile d) eqn:Eb; simpl;
      rewrite ?Ec, ?Eb; try (by split; left);
      destruct onUpload as [g|]; try destruct (g _ _ _) as [w' [[] | e]];
      simpl; rewrite ?Ec, ?Eb; split; auto.
Qed.

(** X28.  The upload button of the dialog.  With no file chosen it sets the error
    ["Please select at least one file to upload"] and calls nothing.  With a
    file it calls [onUpload] once with both slots; when the call returns the
    dialog closes with its slots and error cleared, and when the call throws
    it stays open, keeps its files and shows the message of the error;
    [isUploading] is false at the end either way. *)
Theorem upload_dialog_outcomes {W : Type}
    (onUpload : option Page.File -> option Page.File -> W -> W * (unit + exn))
    (d : UploadDialog.dialog) (w : W) :
  let r := UploadDialog.handleUpload (Some onUpload) d w in
  let called := onUpload (UploadDialog.catalogFile d) (UploadDialog.behaviourFile d) w in
  (UploadDialog.catalogFile d = None -> UploadDialog.behaviourFile d = None ->
     r = (UploadDialog.setError "Please select at least one file to upload" d, w))
  /\ (is_Some (UploadDialog.catalogFile d) \/ is_Some (UploadDialog.behaviourFile d) ->
        r.2 = called.1
        /\ r.1 = match called.2 with
                 | inl _ =>
                     {| UploadDialog.open := false; UploadDialog.catalogFile := None;
                        UploadDialog.behaviourFile := None;
                        UploadDialog.isUploading := false; UploadDialog.error := "" |}
                 | inr err =>
                     {| UploadDialog.open := UploadDialog.open d;
                        UploadDialog.catalogFile := UploadDialog.catalogFile d;
                        UploadDialog.behaviourFile := UploadDialog.behaviourFile d;
                        UploadDialog.isUploading := false;
                        UploadDialog.error :=
                          Dashboard.message_or "Failed to upload files" err |}
                 end).
Proof.
  intros r called. subst r called. unfold UploadDialog.handleUpload.
  destruct (UploadDialog.catalogFile d) eqn:Ec;
    destruct (UploadDialog.behaviourFile d) eqn:Eb; simpl; rewrite ?Ec, ?Eb;
    (split; [try done |]).
  - intros _. destruct (onUpload _ _ _) as [w' [[] | e]];
      unfold UploadDialog.setIsUploading, UploadDialog.setOpen,
        UploadDialog.setBehaviourFile, UploadDialog.setCatalogFile,
        UploadDialog.setError; simpl; by rewrite ?Ec, ?Eb.
  - intros _. destruct (onUpload _ _ _) as [w' [[] | e]];
      unfold UploadDialog.setIsUploading, UploadDialog.setOpen,
        UploadDialog.setBehaviourFile, UploadDialog.setCatalogFile,
        UploadDialog.setError; simpl; by rewrite ?Ec, ?Eb.
  - intros _. destruct (onUpload _ _ _) as [w' [[] | e]];
      unfold UploadDialog.setIsUploading, UploadDialog.setOpen,
        UploadDialog.setBehaviourFile, UploadDialog.setCatalogFile,
        UploadDialog.setError; simpl; by rewrite ?Ec, ?Eb.
  - by intros [[? ?] | [? ?]].
Qed.

(** ** The add dialogs *)

Lemma handleSubmit_run {W : Type} (required : list string) (blank : row)
    (onAdd : row -> W -> W * option exn) (d : AddDialog.dialog) (w : W) :
  AddDialog.handleSubmit required blank onAdd d w
  = if AddDialog.missing required (AddDialog.formData d) then (d, w)
    else
      match onAdd (AddDialog.formData d) w with
      | (w', None) =>
          ({| AddDialog.open := false; AddDialog.isAdding := false;
              AddDialog.formData := blank |}, w')
      | (w', Some _) =>
          ({| AddDialog.open := AddDialog.open d; AddDialog.isAdding := false;
              AddDialog.formData := AddDialog.formData d |}, w')
      end.
Proof.
  unfold AddDialog.handleSubmit.
  destruct (AddDialog.missing _ _); [done |]. simpl.
  by destruct (onAdd _ _) as [w' [e|]].
Qed.

Section Pages.

Variable remote : api_call -> jsval + exn.
Variable meanwhile : list slot -> list slot.

(** X29.  The add-behaviour dialog in front of the behaviour page.  While the
    user id or the product id of the form is empty, submitting does
    nothing.  Otherwise one [addBehavior] call is made with the four fields
    of the form.  When it resolves, the row is appended with the ids of the
    answer, the dialog closes and the form is reset; when it is rejected,
    the page shows the error and keeps its list, and the dialog stays as it
    was, form included, so that the user can submit again.  [isAdding] is
    false at the end either way. *)
Theorem add_behavior_through_dialog (stamp : string) (d : AddDialog.dialog)
    (w : world) :
  let data := AddDialog.formData d in
  let r := AddDialog.AddBehaviorDialog_handleSubmit stamp
             (AddDialog.page_handler remote meanwhile Behaviour.handleAddFromDialog)
             d w in
  let behavior : row :=
    <["user_id" := field data "user_id"]>
    (<["product_id" := field data "product_id"]>
    (<["action" := field data "action"]>
    (<["timestamp" := field data "timestamp"]> ∅))) in
  (truthy (field data "user_id") = false \/ truthy (field data "product_id") = false ->
     r = (d, w))
  /\ (truthy (field data "user_id") = true ->
      truthy (field data "product_id") = true ->
      calls r.2 = calls w ++ [addBehavior behavior]
      /\ AddDialog.isAdding r.1 = false
      /\ match remote (addBehavior behavior) with
         | inl result =>
             AddDialog.open r.1 = false
             /\ AddDialog.formData r.1 = AddDialog.blank_behavior stamp
             /\ rows r.2 = spread_array (meanwhile (rows w))
                  ++ [Item (<["_id" := get_opt result "_id"]>
                           (<["behavior_id" := get_opt result "behavior_id"]>
                              behavior))]
             /\ toasts r.2 = toasts w ++ [toast_success "Behavior added successfully"]
         | inr error =>
             AddDialog.open r.1 = AddDialog.open d
             /\ AddDialog.formData r.1 = data
             /\ rows r.2 = meanwhile (rows w)
             /\ toasts r.2 = toasts w
                  ++ [toast_error "Failed to add behavior" (describe error)]
         end).
Proof.
  intros data r behavior. subst r.
  unfold AddDialog.AddBehaviorDialog_handleSubmit. rewrite handleSubmit_run.
  unfold AddDialog.missing. simpl. fold data. split.
  - intros [-> | ->]; simpl; [done | by rewrite orb_true_r].
  - intros -> ->. simpl.
    unfold AddDialog.page_handler, Behaviour.handleAddFromDialog. simpl.
    fold data. fold behavior. by destruct (remote _).
Qed.

(** X30.  The add-product dialog in front of the catalog page: the same, with the
    product id, the name, the brand and the category required; the row
    appended keeps the product id of the form unless the answer carries a
    truthy one. *)
Theorem add_product_through_dialog (d : AddDialog.dialog) (w : world) :
  let data := AddDialog.formData d in
  let r := @AddDialog.AddProductDialog_handleSubmit world
             (AddDialog.page_handler remote meanwhile Catalog.handleAddFromDialog)
             d w in
  let product : row :=
    <["product_id" := field data "product_id"]>
    (<["name" := field data "name"]>
    (<["brand" := field data "brand"]>
    (<["category" := field data "category"]>
    (<["price" := field data "price"]>
    (<["rating" := field data "rating"]>
    (<["features" := field data "features"]> ∅)))))) in
  (forall key, key ∈ ["product_id"; "name"; "brand"; "category"] ->
     truthy (field data key) = false -> r = (d, w))
  /\ ((forall key, key ∈ ["product_id"; "name"; "brand"; "category"] ->
         truthy (field data key) = true) ->
      calls r.2 = calls w ++ [addProduct product]
      /\ AddDialog.isAdding r.1 = false
      /\ match remote (addProduct product) with
         | inl result =>
             AddDialog.open r.1 = false
             /\ AddDialog.formData r.1 = AddDialog.blank_product
             /\ rows r.2 = spread_array (meanwhile (rows w))
                  ++ [Item (<["product_id" :=
                               js_or (get_opt result "product_id")
                                     (field data "product_id")]> product)]
             /\ toasts r.2 = toasts w ++ [toast_success "Product added successfully"]
         | inr error =>
             AddDialog.open r.1 = AddDialog.open d
             /\ AddDialog.formData r.1 = data
             /\ rows r.2 = meanwhile (rows w)
             /\ toasts r.2 = toasts w
                  ++ [toast_error "Failed to add product" (describe error)]
         end).
Proof.
  intros data r product. subst r.
  unfold AddDialog.AddProductDialog_handleSubmit. rewrite handleSubmit_run.
  unfold AddDialog.missing. simpl. fold data. split.
  - intros key Hkey Hfalsy.
    repeat (apply elem_of_cons in Hkey as [-> | Hkey]);
      try (by apply elem_of_nil in Hkey);
      rewrite Hfalsy; simpl; by rewrite ?orb_true_r.
  - intros Hall.
    rewrite (Hall "product_id"), (Hall "name"), (Hall "brand"), (Hall "category")
      by (repeat constructor). simpl.
    unfold AddDialog.page_handler, Catalog.handleAddFromDialog. simpl.
    fold data. fold product. by destruct (remote _).
Qed.

End Pages.

(** A catalog file is chosen in the open dialog and the upload button is
    pressed.  The page is offline and [onUpload] throws: the dialog stays
    open, keeps the file and shows the message of the error.  The page
    accepts the file and [onUpload] returns: the dialog closes with its
    slots cleared.  [onUpload] was called with the chosen file: the page,
    which counts its calls, is at 1. *)
Lemma upload_dialog_outcomes_witness :
  UploadDialog.handleUpload
    (Some (fun (c b : option Page.File) (w : nat) =>
             (S w, inr (Error_ "offline") : unit + exn)))
    (UploadDialog.handleCatalogChange (Some Samples.small_csv)
       (UploadDialog.setOpen true UploadDialog.initial))
    0%nat
  = ({| UploadDialog.open := true;
        UploadDialog.catalogFile := Some Samples.small_csv;
        UploadDialog.behaviourFile := None;
        UploadDialog.isUploading := false;
        UploadDialog.error := "offline" |}, 1%nat)
  /\ UploadDialog.handleUpload
       (Some (fun (c b : option Page.File) (w : nat) =>
                (S w, inl tt : unit + exn)))
       (UploadDialog.handleCatalogChange (Some Samples.small_csv)
          (UploadDialog.setOpen true UploadDialog.initial))
       0%nat
     = ({| UploadDialog.open := false;
           UploadDialog.catalogFile := None;
           UploadDialog.behaviourFile := None;
           UploadDialog.isUploading := false;
           UploadDialog.error := "" |}, 1%nat).
Proof.
  split.
  - destruct (proj2 (upload_dialog_outcomes
                       (fun (c b : option Page.File) (w : nat) =>
                          (S w, inr (Error_ "offline") : unit + exn))
                       (UploadDialog.handleCatalogChange (Some Samples.small_csv)
                          (UploadDialog.setOpen true UploadDialog.initial))
                       0%nat)
                    (or_introl (ex_intro _ Samples.small_csv eq_refl)))
      as [Hpage Hdialog].
    apply injective_projections; [exact Hdialog | exact Hpage].
  - destruct (proj2 (upload_dialog_outcomes
                       (fun (c b : option Page.File) (w : nat) =>
                          (S w, inl tt : unit + exn))
                       (UploadDialog.handleCatalogChange (Some Samples.small_csv)
                          (UploadDialog.setOpen true UploadDialog.initial))
                       0%nat)
                    (or_introl (ex_intro _ Samples.small_csv eq_refl)))
      as [Hpage Hdialog].
    apply injective_projections; [exact Hdialog | exact Hpage].
Defined.

End DialogFacts.
